(** * pi_pipeline: spreadsheet ingestion and course-structure builder

  A shallow embedding of the two core stages of the pipeline,

  - [process_excel_files.py]: header mapping and the per-sheet row
    aggregation of [excel_to_json_grouped];
  - [python/workbook_to_xml.py]: [slugify], [canonical_block_title],
    [_to_int] and [build_xml_for_sheet];

  together with the properties the specification states about them.

  Text is modelled by [string] (a sequence of 8-bit characters, read as
  UTF-8).  Case folding and white space follow Python on the ASCII range,
  which is where every literal of the two programs lives. *)

From Stdlib Require Import ZArith String Ascii DecimalString DecimalPos.
From stdpp Require Import gmap strings list sorting.

Open Scope Z_scope.

(** ** Python string primitives *)

Module PyStr.

(** [str.isspace] on the ASCII range: TAB..CR, FS..US and the blank. *)
Definition is_space (c : ascii) : bool :=
  let n := N_of_ascii c in
  ((9 <=? n) && (n <=? 13) || (28 <=? n) && (n <=? 32))%N.

Definition is_digit (c : ascii) : bool :=
  let n := N_of_ascii c in ((48 <=? n) && (n <=? 57))%N.

Definition is_lower (c : ascii) : bool :=
  let n := N_of_ascii c in ((97 <=? n) && (n <=? 122))%N.

Definition is_upper (c : ascii) : bool :=
  let n := N_of_ascii c in ((65 <=? n) && (n <=? 90))%N.

Definition lower_char (c : ascii) : ascii :=
  if is_upper c then ascii_of_N (N_of_ascii c + 32) else c.

(** [s.lower()] *)
Fixpoint lower (s : string) : string :=
  match s with
  | EmptyString => EmptyString
  | String c r => String (lower_char c) (lower r)
  end.

Definition is_empty (s : string) : bool :=
  match s with EmptyString => true | _ => false end.

Fixpoint lstrip_by (p : ascii -> bool) (s : string) : string :=
  match s with
  | EmptyString => EmptyString
  | String c r => if p c then lstrip_by p r else s
  end.

Fixpoint rstrip_by (p : ascii -> bool) (s : string) : string :=
  match s with
  | EmptyString => EmptyString
  | String c r =>
      let r' := rstrip_by p r in
      if p c && is_empty r' then EmptyString else String c r'
  end.

Definition strip_by (p : ascii -> bool) (s : string) : string :=
  rstrip_by p (lstrip_by p s).

(** [s.strip()] *)
Definition strip : string -> string := strip_by is_space.

(** [s.split()]: the maximal runs of non-blank characters. *)
Fixpoint split (s : string) : list string :=
  match s with
  | EmptyString => []
  | String c r =>
      if is_space c then split r
      else match r with
           | EmptyString => [String c EmptyString]
           | String c' _ =>
               if is_space c' then String c EmptyString :: split r
               else match split r with
                    | w :: ws => String c w :: ws
                    | [] => [String c EmptyString]
                    end
           end
  end.

(** [sep.join(ws)] *)
Fixpoint join (sep : string) (ws : list string) : string :=
  match ws with
  | [] => EmptyString
  | [w] => w
  | w :: ws' => w +:+ sep +:+ join sep ws'
  end.

(** [sub in s] *)
Fixpoint contains (sub s : string) : bool :=
  String.prefix sub s ||
  match s with
  | EmptyString => false
  | String _ r => contains sub r
  end.

(** [s in (a, b, ...)] *)
Definition one_of (s : string) (l : list string) : bool :=
  existsb (String.eqb s) l.

(** [str(z)] and the [{z}] of an f-string, for an integer. *)
Definition show_Z (z : Z) : string := NilZero.string_of_int (Z.to_int z).

Definition show_nat (n : nat) : string := show_Z (Z.of_nat n).

Definition digit_val (c : ascii) : Z := Z.of_N (N_of_ascii c) - 48.

(** The digit part of an integer literal: decimal digits, with single
    underscores allowed between two digits. [seen] tells whether the
    previous character was a digit. *)
Fixpoint parse_digits (acc : Z) (seen : bool) (s : string) : option Z :=
  match s with
  | EmptyString => if seen then Some acc else None
  | String c r =>
      if is_digit c then parse_digits (acc * 10 + digit_val c) true r
      else if Ascii.eqb c "_"%char then
             if seen then parse_digits acc false r else None
      else None
  end.

(** [int(s)] in base 10; [None] stands for [ValueError]. *)
Definition py_int (s : string) : option Z :=
  match strip s with
  | String "+"%char r => parse_digits 0 false r
  | String "-"%char r => Z.opp <$> parse_digits 0 false r
  | t => parse_digits 0 false t
  end.

End PyStr.


(** ** Insertion-ordered dictionaries

    A Python [dict] (or [OrderedDict]) whose iteration order the program
    relies on: keys are distinct and kept in the order of first insertion. *)

Module ODict.
Section defs.
Context {K V : Type} `{EqDecision K}.

(** [d.get(k)] *)
Fixpoint get (k : K) (d : list (K * V)) : option V :=
  match d with
  | [] => None
  | (k', v) :: r => if decide (k = k') then Some v else get k r
  end.

(** [d[k] = v]: in place for a key already present, appended otherwise. *)
Fixpoint set (k : K) (v : V) (d : list (K * V)) : list (K * V) :=
  match d with
  | [] => [(k, v)]
  | (k', v') :: r =>
      if decide (k = k') then (k, v) :: r else (k', v') :: set k v r
  end.

Definition keys (d : list (K * V)) : list K := d.*1.

Definition values (d : list (K * V)) : list V := d.*2.

End defs.
End ODict.

(** Python's [sorted(l, key=...)] on integer keys.  The sort is stable, which
    determines its result; insertion from the right is one such sort. *)
Fixpoint insert_by {A} (key : A -> Z) (x : A) (l : list A) : list A :=
  match l with
  | [] => [x]
  | y :: r => if key x <=? key y then x :: y :: r else y :: insert_by key x r
  end.

Definition sorted_by {A} (key : A -> Z) (l : list A) : list A :=
  foldr (insert_by key) [] l.

(** [a or b] on optional text: [None] and the empty string are falsy. *)
Definition py_or (a b : option string) : option string :=
  match a with
  | Some s => if PyStr.is_empty s then b else a
  | None => b
  end.

(** ** Stage 1: [process_excel_files.py] *)

Module Excel.
Import PyStr.

(** A cell value as the program sees it: [None], or a value, which the
    program only ever inspects through [str(value)]. *)
Definition cell : Type := option string.

Definition FILETYPE_NORMALIZE : list (string * string) :=
  [ ("audio", "Audio Bar");
    ("audio bar", "Audio Bar");
    ("embedded mp4", "Embedded MP4");
    ("embedded  mp4", "Embedded MP4");
    ("mp4", "Embedded MP4");
    ("video", "Embedded MP4");
    ("embedded mp3", "Embedded MP3");
    ("mp3", "Embedded MP3") ]%string.

Definition clean (s : cell) : option string :=
  (fun v => join " " (split (strip v))) <$> s.

Definition norm_filetype (raw : cell) : string :=
  match raw with
  | None => "Audio Bar"
  | Some v =>
      if is_empty (strip v) then "Audio Bar"
      else let key := join " " (split (lower (strip v))) in
           default (strip v) (ODict.get key FILETYPE_NORMALIZE)
  end.

(** *** Header mapping *)

Inductive field : Set :=
  | f_slide_number | f_lesson | f_section | f_title
  | f_transcription | f_file_type | f_notes.

(** [s] without the prefix [p], when it has it. *)
Fixpoint drop_prefix (p s : string) : option string :=
  match p, s with
  | EmptyString, _ => Some s
  | String a p', String b s' =>
      if Ascii.eqb a b then drop_prefix p' s' else None
  | String _ _, EmptyString => None
  end.

(** The pattern "audio", blanks, "#" matched against the whole text. *)
Definition re_audio_hash (text : string) : bool :=
  match drop_prefix "audio" text with
  | Some r => String.eqb (lstrip_by is_space r) "#"
  | None => false
  end.

(** The pattern "#", blanks, "audios" matched against the whole text. *)
Definition re_hash_audios (text : string) : bool :=
  match drop_prefix "#" text with
  | Some r => String.eqb (lstrip_by is_space r) "audios"
  | None => false
  end.

(** The pattern: an optional "#" and blanks, then "slide" or "slides",
    matched against the whole text. *)
Definition re_opt_hash_slides (text : string) : bool :=
  one_of text ["slide"; "slides"]%string ||
  match drop_prefix "#" text with
  | Some r => one_of (lstrip_by is_space r) ["slide"; "slides"]%string
  | None => false
  end.

Definition map_header (raw : cell) : option field :=
  match raw with
  | None => None
  | Some v =>
      let text_raw := strip v in
      let text := lower text_raw in
      if re_audio_hash text then None
      else if re_hash_audios text || String.eqb text "audios" then None
      else if re_opt_hash_slides text then Some f_slide_number
      else if one_of text ["slide number"; "slidenumber"; "slide"]%string
           then Some f_slide_number
      else if one_of text ["lesson#"; "lesson"]%string then Some f_lesson
      else if contains "block" text && contains "section" text
           then Some f_section
      else if contains "assignable" text && contains "unit" text
           then Some f_title
      else if one_of text ["script"; "transcription"; "audio"]%string
           then Some f_transcription
      else if contains "file location" text && contains "html" text
           then Some f_file_type
      else if one_of text ["file type"; "filetype"; "file_type"]%string
           then Some f_file_type
      else if String.prefix "notes" text then Some f_notes
      else if one_of text ["occurrence"; "occurence"; "slide title";
                           "slidetitle"; "link to dev"; "linktodev"]%string
           then None
      else None
  end.

(** *** Row aggregation: the body of [excel_to_json_grouped] for one sheet *)

(** The six values [get(colname)] reads from a data row; a column the header
    does not have reads as [None]. *)
Record Row : Type := {
  r_slide : cell;
  r_section : cell;
  r_title : cell;
  r_transcript : cell;
  r_notes : cell;
  r_ftype : cell
}.

Record AudioItem : Type := {
  filename : string;
  file_type : string;
  transcription : option string;
  notes : option string
}.

Record Slide : Type := {
  slide_number : Z;
  lesson : string;
  section : option string;
  title : option string;
  audio : list AudioItem
}.

(** A slide once the closing loop has given it its ["audio_total"]. *)
Record SlideOut : Type := {
  slide : Slide;
  audio_total : nat
}.

(** The variables the row loop carries from one row to the next. *)
Record AggState : Type := {
  last_slide : option Z;
  last_section : option string;
  last_title : option string;
  audio_counts : gmap Z nat;
  slides_by_num : list (Z * Slide)
}.

Definition init : AggState :=
  {| last_slide := None; last_section := None; last_title := None;
     audio_counts := ∅; slides_by_num := [] |}.

(** [c is None or str(c).strip() == ""] *)
Definition blank (c : cell) : bool :=
  match c with
  | None => true
  | Some v => is_empty (strip v)
  end.

(** [counts.setdefault(k, v)] *)
Definition setdefault (k : Z) (v : nat) (counts : gmap Z nat) : gmap Z nat :=
  match counts !! k with
  | Some _ => counts
  | None => <[k := v]> counts
  end.

(** [int(str(c).strip())] *)
Definition cell_int (c : cell) : option Z :=
  c ≫= (fun v => py_int (strip v)).

(** Lines 219-230: the slide a row belongs to, with the state after the
    slide cell was read; [None] is the [continue] of a skipped row. *)
Definition resolve_slide (st : AggState) (row : Row) : option (Z * AggState) :=
  if blank (r_slide row) then
    match last_slide st with
    | Some n => Some (n, st)
    | None => None
    end
  else
    match cell_int (r_slide row) with
    | None => None
    | Some n =>
        Some (n, {| last_slide := Some n;
                    last_section := last_section st;
                    last_title := last_title st;
                    audio_counts := setdefault n 0%nat (audio_counts st);
                    slides_by_num := slides_by_num st |})
    end.

(** The rows of line 236: nothing to record. *)
Definition decorative (row : Row) : bool :=
  match r_transcript row, r_notes row with
  | None, None => blank (r_ftype row)
  | _, _ => false
  end.

Definition mk_filename (base : string) (n : Z) (a_idx : nat) : string :=
  base +:+ "_" +:+ show_Z n +:+ "_" +:+ show_nat a_idx.

Definition mk_audio (base : string) (n : Z) (a_idx : nat) (row : Row)
  : AudioItem :=
  {| filename := mk_filename base n a_idx;
     file_type := norm_filetype (r_ftype row);
     transcription := clean (r_transcript row);
     notes := py_or (clean (r_notes row)) None |}.

Definition new_slide (lesson_num n : Z) (sec ttl : option string) : Slide :=
  {| slide_number := n;
     lesson := "Lesson " +:+ show_Z lesson_num;
     section := sec; title := ttl; audio := [] |}.

Definition push_audio (item : AudioItem) (s : Slide) : Slide :=
  {| slide_number := slide_number s; lesson := lesson s;
     section := section s; title := title s;
     audio := audio s ++ [item] |}.

(** [slides[n]["audio"].append(item)] *)
Definition append_audio (n : Z) (item : AudioItem) (slides : list (Z * Slide))
  : list (Z * Slide) :=
  match ODict.get n slides with
  | Some s => ODict.set n (push_audio item s) slides
  | None => slides
  end.

(** One iteration of the row loop. *)
Definition step (base : string) (lesson_num : Z) (st : AggState) (row : Row)
  : AggState :=
  match resolve_slide st row with
  | None => st
  | Some (n, st1) =>
      let sec := py_or (clean (r_section row)) (last_section st1) in
      let ttl := py_or (clean (r_title row)) (last_title st1) in
      if decorative row then
        {| last_slide := last_slide st1; last_section := sec;
           last_title := ttl; audio_counts := audio_counts st1;
           slides_by_num := slides_by_num st1 |}
      else
        let slides1 :=
          match ODict.get n (slides_by_num st1) with
          | Some _ => slides_by_num st1
          | None => ODict.set n (new_slide lesson_num n sec ttl)
                      (slides_by_num st1)
          end in
        let a_idx := S (default 0%nat (audio_counts st1 !! n)) in
        {| last_slide := last_slide st1; last_section := sec;
           last_title := ttl;
           audio_counts := <[n := a_idx]> (audio_counts st1);
           slides_by_num :=
             append_audio n (mk_audio base n a_idx row) slides1 |}
  end.

Definition aggregate (base : string) (lesson_num : Z) (rows : list Row)
  : AggState :=
  foldl (step base lesson_num) init rows.

(** *** The sheet object *)

Record TocEntry : Type := {
  toc_slide_number : Z;
  toc_section : option string;
  toc_title : string
}.

Record Totals : Type := {
  total_slides : nat;
  total_audio_items : nat
}.

Record SheetObject : Type := {
  sheet_name : string;
  base : string;
  level : Z;
  unit_num : Z;
  lesson_num : Z;
  toc : list TocEntry;
  slides : list SlideOut;
  totals : Totals;
  xcode : option string
}.

(** The loop of lines 266-271 over the sorted slides: it collects the
    slides and adds up their audio totals. *)
Definition close_slide (acc : list SlideOut * nat) (s : Slide)
  : list SlideOut * nat :=
  let s' := {| slide := s; audio_total := length (audio s) |} in
  (acc.1 ++ [s'], (acc.2 + audio_total s')%nat).

Definition close_slides (d : list (Z * Slide)) : list SlideOut * nat :=
  foldl close_slide ([], 0%nat) (sorted_by slide_number (ODict.values d)).

(** The substitution of "Slide", blanks, digits, blanks, ":", blanks at the
    start of a title by nothing, letter case ignored. *)
Definition strip_slide_label (t : string) : string :=
  match drop_prefix "slide" (lower (substring 0 5 t)) with
  | Some _ =>
      let r1 := lstrip_by is_space (substring 5 (String.length t - 5) t) in
      let r2 := lstrip_by is_digit r1 in
      if String.eqb r1 r2 then t
      else match lstrip_by is_space r2 with
           | String ":" r3 => lstrip_by is_space r3
           | _ => t
           end
  | None => t
  end.

Definition toc_entry (s : SlideOut) : TocEntry :=
  let raw := default EmptyString (title (slide s)) in
  let short_title := strip (strip_slide_label raw) in
  {| toc_slide_number := slide_number (slide s);
     toc_section := section (slide s);
     toc_title := if is_empty short_title then raw else short_title |}.

(** The sheet object of one tab.  [name] is the tab's title, [b], [lv], [un]
    and [ln] what [parse_sheet_signature] made of it, [rows] the rows below
    the header row and [codes] the table [_CODES_BY_BASE]. *)
Definition sheet_object (name b : string) (lv un ln : Z) (rows : list Row)
    (codes : gmap string string) : SheetObject :=
  let closed := close_slides (slides_by_num (aggregate b ln rows)) in
  {| sheet_name := name; base := b; level := lv; unit_num := un;
     lesson_num := ln;
     toc := toc_entry <$> closed.1;
     slides := closed.1;
     totals := {| total_slides := length closed.1;
                  total_audio_items := closed.2 |};
     xcode := codes !! b |}.

(** *** The header row and the columns *)

#[global] Instance field_eq_dec : EqDecision field.
Proof. solve_decision. Defined.

(** [enumerate(l)], counting from [k]. *)
Fixpoint enumerate_from {A} (k : nat) (l : list A) : list (nat * A) :=
  match l with
  | [] => []
  | x :: r => (k, x) :: enumerate_from (S k) r
  end.

(** A worksheet: its rows, row 1 first, each row the values of its cells.
    All rows of a worksheet have the width of the sheet. *)
Definition worksheet : Type := list (list cell).

Definition ws_width (ws : worksheet) : nat :=
  foldr Nat.max 0%nat (length <$> ws).

(** [[cell.value for cell in ws[r]]]: a row below the last one reads as
    empty cells. *)
Definition ws_row (ws : worksheet) (r : nat) : list cell :=
  default (replicate (ws_width ws) None) (ws !! pred r).

(** ["slide_number" in mapped and "transcription" in mapped] *)
Definition has_required (row_vals : list cell) : bool :=
  let mapped := map_header <$> row_vals in
  bool_decide (Some f_slide_number ∈ mapped) &&
  bool_decide (Some f_transcription ∈ mapped).

(** The loop of [find_header_row] over the row numbers [rs]. *)
Fixpoint scan_header (ws : worksheet) (rs : list nat)
  : option (nat * list cell) :=
  match rs with
  | [] => None
  | r :: rest =>
      if has_required (ws_row ws r) then Some (r, ws_row ws r)
      else scan_header ws rest
  end.

Definition find_header_row (ws : worksheet) : nat * list cell :=
  let hi := Nat.min (length ws) 8 in
  default (2%nat, ws_row ws 2) (scan_header ws (seq 1 hi)).

(** One iteration of the loop of [header_map]. *)
Definition note_column (col_idx : list (field * nat)) (ih : nat * cell)
  : list (field * nat) :=
  match map_header ih.2 with
  | Some m =>
      match ODict.get m col_idx with
      | Some _ => col_idx
      | None => ODict.set m ih.1 col_idx
      end
  | None => col_idx
  end.

Definition header_map (ws : worksheet) : list (field * nat) * nat :=
  let hdr := find_header_row ws in
  (foldl note_column [] (enumerate_from 0 hdr.2), hdr.1).

(** [get(colname)] on a data row. *)
Definition get_cell (cols : list (field * nat)) (row : list cell) (f : field)
  : cell :=
  match ODict.get f cols with
  | Some idx => mjoin (row !! idx)
  | None => None
  end.

Definition read_row (cols : list (field * nat)) (row : list cell) : Row :=
  {| r_slide := get_cell cols row f_slide_number;
     r_section := get_cell cols row f_section;
     r_title := get_cell cols row f_title;
     r_transcript := get_cell cols row f_transcription;
     r_notes := get_cell cols row f_notes;
     r_ftype := get_cell cols row f_file_type |}.

(** [[c for c in needed if c not in cols]] *)
Definition missing_columns (cols : list (field * nat)) : list field :=
  filter (λ c, ODict.get c cols = None) [f_slide_number; f_transcription].

(** One tab, from its cells to its sheet object; the error carries the
    missing columns and the header row that was used. *)
Definition compile_tab (name b : string) (lv un ln : Z) (ws : worksheet)
    (codes : gmap string string) : SheetObject + (list field * nat) :=
  let hm := header_map ws in
  match missing_columns hm.1 with
  | [] => inl (sheet_object name b lv un ln
                 (read_row hm.1 <$> drop hm.2 ws) codes)
  | missing => inr (missing, hm.2)
  end.

End Excel.

(** ** Stage 2: [python/workbook_to_xml.py] *)

Module Xml.
Import PyStr.

Definition is_quote (c : ascii) : bool :=
  let n := N_of_ascii c in ((n =? 34) || (n =? 39))%N.

(** The substitution of the four quote characters by nothing: the ASCII
    double and single quote, and the two curly double quotes (in UTF-8 the
    bytes E2 80 9C and E2 80 9D). *)
Fixpoint remove_quotes (s : string) : string :=
  match s with
  | EmptyString => EmptyString
  | String c r =>
      if is_quote c then remove_quotes r
      else
        match r with
        | String c1 (String c2 r') =>
            if ((N_of_ascii c =? 226) && (N_of_ascii c1 =? 128) &&
                ((N_of_ascii c2 =? 156) || (N_of_ascii c2 =? 157)))%N
            then remove_quotes r'
            else String c (remove_quotes r)
        | _ => String c (remove_quotes r)
        end
  end.

Definition is_slug_char (c : ascii) : bool := is_lower c || is_digit c.

(** The substitution of every maximal run of characters other than [a-z0-9]
    by one underscore. *)
Fixpoint squash (s : string) : string :=
  match s with
  | EmptyString => EmptyString
  | String c r =>
      if is_slug_char c then String c (squash r)
      else match r with
           | EmptyString => "_"
           | String c' _ =>
               if is_slug_char c' then String "_" (squash r) else squash r
           end
  end.

Definition or_text (s : option string) (d : string) : string :=
  default d (py_or s None).

Definition slugify (s : option string) : string :=
  let s1 := lower (strip (or_text s "")) in
  let s2 := squash (remove_quotes s1) in
  or_text (Some (strip_by (Ascii.eqb "_") s2)) "section".

Definition canonical_block_title (section : option string) : string :=
  let low := lower (strip (or_text section "")) in
  if one_of low ["unit intro"; "intro"; "lesson opener"]%string
  then "Lesson Opener"
  else if contains "warm-up" low || contains "warm up" low
          || contains "review and repetition" low
  then "Warm-up Review and Repetition"
  else if contains "multimodal mini" low then "Multimodal Minilesson"
  else if contains "vocabulary booster" low then "Vocabulary Booster"
  else if contains "apply to reading and writing" low
  then "Apply to Reading and Writing"
  else if contains "additional supports" low then "Additional Supports"
  else or_text section "Lesson".

(** A JSON scalar as it reaches [_to_int], which reads it through [str]
    only; a value of another type enters as the text [str] gives it. *)
Inductive pyval : Type :=
  | PyNone
  | PyInt (z : Z)
  | PyStr (s : string).

Definition py_str (v : pyval) : string :=
  match v with
  | PyNone => "None"
  | PyInt z => show_Z z
  | PyStr s => s
  end.

Record TocEntry : Type := {
  slide_number : pyval;
  section : option string;
  title : option string
}.

(** The keys of a sheet dictionary that [build_xml_for_sheet] reads;
    [None] is an absent key. *)
Record Sheet : Type := {
  sheet_name : option string;
  base : option string;
  xcode : option string;
  code : option string;
  level : option pyval;
  unit_ : option pyval;
  lesson_num : option pyval;
  toc : list TocEntry
}.

Record Au : Type := {
  au_id : string;
  au_title : string;
  au_description : string;
  au_url : string;
  au_teacherResource : option string;
  au_skill : option string
}.

Record Block : Type := {
  block_id : string;
  block_title : string;
  block_description : string;
  aus : list Au
}.

Record Resource : Type := {
  res_title : string;
  res_description : string;
  res_sku : string;
  res_role : string
}.

(** The course element, without its constant player configuration. *)
Record Course : Type := {
  course_id : string;
  course_title : string;
  course_description : string;
  additionalResources : list Resource
}.

(** The children of the root element: the course, then the blocks in the
    order they were appended. *)
Record CourseStructure : Type := {
  course : Course;
  blocks : list Block
}.

(** The part of [s] before its last slash: [s.rsplit('/', 1)[0]]. *)
Fixpoint before_last_slash (s : string) : option string :=
  match s with
  | EmptyString => None
  | String c r =>
      match before_last_slash r with
      | Some p => Some (String c p)
      | None => if Ascii.eqb c "/" then Some EmptyString else None
      end
  end.

Definition rsplit_head (s : string) : string :=
  default s (before_last_slash s).

Definition lesson_url (sn : Z) : string :=
  "contents/lesson/" +:+ show_Z sn +:+ ".html".

Definition support_url (sn : Z) : string :=
  "contents/teacherResources/support_" +:+ show_Z sn +:+ ".html".

Definition site : string := "http://benchmarkuniverse.com/".

(** [grouped.setdefault(key, []).append(item)] *)
Definition group_add (key : string) (item : TocEntry)
    (grouped : list (string * list TocEntry)) : list (string * list TocEntry) :=
  ODict.set key (default [] (ODict.get key grouped) ++ [item]) grouped.

Definition group_toc (toc : list TocEntry) : list (string * list TocEntry) :=
  foldl (fun g item => group_add (canonical_block_title (section item)) item g)
        [] toc.

(** [max(l)] of a list that is not empty. *)
Definition py_max (l : list Z) : option Z :=
  match l with
  | [] => None
  | x :: r => Some (foldl Z.max x r)
  end.

Section builder.

(** Python's [int(float(s))] on text; [None] when either call raises.
    Binary floating point is not modelled: the builder is read for any such
    function. *)
Variable float_int : string -> option Z.

(** [_to_int(v, None)] *)
Definition to_int (v : pyval) : option Z :=
  match py_int (py_str v) with
  | Some z => Some z
  | None => float_int (py_str v)
  end.

(** [_to_int(v, 0)] *)
Definition to_int0 (v : pyval) : Z := default 0 (to_int v).

Definition key0 (it : TocEntry) : Z := to_int0 (slide_number it).

(** Lines 149-156. *)
Definition scan_entry (acc : gmap Z (option string) * list Z) (t : TocEntry)
  : gmap Z (option string) * list Z :=
  match to_int (slide_number t) with
  | None => acc
  | Some sn => (<[sn := title t]> acc.1, acc.2 ++ [sn])
  end.

Definition scan_toc (toc : list TocEntry) : gmap Z (option string) * list Z :=
  foldl scan_entry (∅, []) toc.

(** [title_by_slide.get(sn) or d] *)
Definition title_or (title_by_slide : gmap Z (option string)) (sn : Z)
    (d : string) : string :=
  or_text (mjoin (title_by_slide !! sn)) d.

Definition opener_au (xc ph_skill : string)
    (title_by_slide : gmap Z (option string)) (it : TocEntry) : Au :=
  let sn := key0 it in
  {| au_id := site +:+ xc +:+ "/block/lesson_opener_lesson";
     au_title := title_or title_by_slide sn "Lesson Opener";
     au_description := title_or title_by_slide sn "Lesson Opener";
     au_url := lesson_url sn;
     au_teacherResource := Some (support_url sn);
     au_skill := Some ph_skill |}.

Definition opener_block (xc ph_skill : string)
    (title_by_slide : gmap Z (option string)) (block_title : string)
    (items : list TocEntry) : Block :=
  {| block_id := site +:+ xc +:+ "/block/lesson_opener_block";
     block_title := block_title;
     block_description := block_title;
     aus := opener_au xc ph_skill title_by_slide <$> sorted_by key0 items |}.

(** One iteration of the loop of lines 227-252: [seen] counts the slugs of
    the block so far. *)
Definition standard_au (block_id ph_skill : string)
    (title_by_slide : gmap Z (option string))
    (acc : gmap string nat * list Au) (it : TocEntry)
  : gmap string nat * list Au :=
  let sn := key0 it in
  let au_title := title_or title_by_slide sn ("Slide " +:+ show_Z sn) in
  let key := slugify (Some au_title) in
  let n := S (default 0%nat (acc.1 !! key)) in
  let au_slug := if (n =? 1)%nat then key else key +:+ "_" +:+ show_nat n in
  (<[key := n]> acc.1,
   acc.2 ++ [ {| au_id := rsplit_head block_id +:+ "/" +:+ au_slug;
                 au_title := au_title;
                 au_description := au_title;
                 au_url := lesson_url sn;
                 au_teacherResource := Some (support_url sn);
                 au_skill := Some ph_skill |} ]).

Definition standard_block (xc ph_skill : string) (lesson_n block_index : Z)
    (title_by_slide : gmap Z (option string)) (block_title : string)
    (items : list TocEntry) : Block :=
  let slug := slugify (match items with
                       | it :: _ => section it
                       | [] => Some block_title
                       end) in
  let block_id := site +:+ xc +:+ "/block" +:+ show_Z block_index
                  +:+ "/lesson_" +:+ show_Z lesson_n +:+ "/" +:+ slug in
  {| block_id := block_id;
     block_title := block_title;
     block_description := block_title;
     aus := (foldl (standard_au block_id ph_skill title_by_slide) (∅, [])
               (sorted_by key0 items)).2 |}.

(** One iteration of the loop over [grouped.items()]: the state is
    [block_index] and the blocks appended to the root so far. *)
Definition emit_group (xc ph_skill : string) (lesson_n : Z)
    (title_by_slide : gmap Z (option string))
    (st : Z * list Block) (g : string * list TocEntry) : Z * list Block :=
  if String.eqb g.1 "Lesson Opener" then
    (st.1, st.2 ++ [opener_block xc ph_skill title_by_slide g.1 g.2])
  else if String.eqb g.1 "Additional Supports" then st
  else
    let block_index := st.1 + 1 in
    (block_index,
     st.2 ++ [standard_block xc ph_skill lesson_n block_index title_by_slide
                g.1 g.2]).

(** Lines 254-280: the closing block. *)
Definition additional_supports_block (xc : string)
    (lesson_n block_index last_slide_num : Z) : Block :=
  let stem := site +:+ xc +:+ "/block" +:+ show_Z block_index
              +:+ "/lesson_" +:+ show_Z lesson_n in
  {| block_id := stem +:+ "/additional_supports";
     block_title := "Additional Supports";
     block_description := "Additional Supports";
     aus := [ {| au_id := stem +:+ "/additionalsupports_0";
                 au_title := "Additional Supports";
                 au_description := "Additional Supports";
                 au_url := lesson_url (last_slide_num + 1);
                 au_teacherResource := None;
                 au_skill := None |} ] |}.

Definition get_str (v : option pyval) : string :=
  strip (py_str (default (PyStr "") v)).

Definition mk_resource (t d sku : string) : Resource :=
  {| res_title := t; res_description := d; res_sku := sku;
     res_role := "student" |}.

(** [build_xml_for_sheet(sheet, xcode)]: the tree, or [None] for a skipped
    sheet, and the file stem. *)
Definition build_xml_for_sheet (sheet : Sheet) (xcode_arg : option string)
  : option CourseStructure * string :=
  let sheet_name := or_text (Some (strip (or_text (sheet_name sheet) "")))
                      "Sheet" in
  let base := or_text (Some (strip (or_text (base sheet) "")))
                (slugify (Some sheet_name)) in
  let xc := strip (or_text (py_or xcode_arg (py_or (xcode sheet) (code sheet)))
                     "XCODE") in
  let level_str := get_str (level sheet) in
  let unit_str := get_str (unit_ sheet) in
  let lesson_n := to_int0 (default (PyInt 0) (lesson_num sheet)) in
  let unit_n := to_int0 (PyStr unit_str) in
  let ph_skill := sheet_name +:+ ":skill" in
  let ph_book1 := sheet_name +:+ ":book1" in
  let ph_book2 := sheet_name +:+ ":book2" in
  let ph_read := sheet_name +:+ ":read_aloud_card" in
  let heading := "Benchmark Phonics Intervention - Level " +:+ level_str
                 +:+ " Unit " +:+ unit_str +:+ " {" +:+ ph_skill +:+ "}" in
  let unit_plus := unit_n + 1 in
  let crs :=
    {| course_id := site +:+ xc;
       course_title := heading;
       course_description := heading;
       additionalResources :=
         [ mk_resource ("Reading Collection Unit " +:+ unit_str)
             ("Unit " +:+ unit_str +:+ " Student Book") ph_book1;
           mk_resource ("Reading Collection Unit " +:+ show_Z unit_plus)
             ("Unit " +:+ show_Z unit_plus +:+ " Student Book") ph_book2;
           mk_resource "Read-Aloud Card"
             ("Unit " +:+ unit_str +:+ " Student Book") ph_read ] |} in
  match toc sheet with
  | [] => (None, base)
  | _ =>
      let grouped := group_toc (toc sheet) in
      let scanned := scan_toc (toc sheet) in
      match py_max scanned.2 with
      | None => (None, base)
      | Some last_slide_num =>
          let st := foldl (emit_group xc ph_skill lesson_n scanned.1)
                      (-1, []) grouped in
          let block_index := st.1 + 1 in
          (Some {| course := crs;
                   blocks := st.2 ++
                     [additional_supports_block xc lesson_n block_index
                        last_slide_num] |},
           base)
      end
  end.

End builder.

End Xml.

(** * Vocabulary of the properties *)

(** The audio sequence of slide [n] in the slide dictionary, empty while the
    slide has no record. *)
Definition audio_of (n : Z) (d : list (Z * Excel.Slide))
  : list Excel.AudioItem :=
  from_option Excel.audio [] (ODict.get n d).

(** What the row loop maintains: every recorded slide sits under its own
    number, its file names count up from 1, and its counter is the length of
    its audio sequence. *)
Definition slide_ok (b : string) (counts : gmap Z nat) (n : Z)
    (s : Excel.Slide) : Prop :=
  Excel.slide_number s = n ∧
  Excel.filename <$> Excel.audio s =
    Excel.mk_filename b n <$> seq 1 (length (Excel.audio s)) ∧
  default 0%nat (counts !! n) = length (Excel.audio s).

Definition agg_inv (b : string) (st : Excel.AggState) : Prop :=
  NoDup (ODict.keys (Excel.slides_by_num st)) ∧
  (∀ n s, ODict.get n (Excel.slides_by_num st) = Some s →
          slide_ok b (Excel.audio_counts st) n s) ∧
  (∀ n, ODict.get n (Excel.slides_by_num st) = None →
        default 0%nat (Excel.audio_counts st !! n) = 0%nat).

(** A slide as the closing loop leaves it. *)
Definition with_total (s : Excel.Slide) : Excel.SlideOut :=
  {| Excel.slide := s; Excel.audio_total := length (Excel.audio s) |}.

(** ** Sample data *)

Definition row_of (sl sec ttl tr : Excel.cell) : Excel.Row :=
  {| Excel.r_slide := sl; Excel.r_section := sec; Excel.r_title := ttl;
     Excel.r_transcript := tr; Excel.r_notes := None;
     Excel.r_ftype := None |}.

(** Two rows for slide 1, one for slide 2, then slide 1 once more. *)
Definition lesson_rows : list Excel.Row :=
  [ row_of (Some "1") (Some "Intro") (Some "Slide 1: Welcome") (Some "Hello");
    row_of None None None (Some "Listen");
    row_of (Some "2") (Some "Warm-up") (Some "Sounds") (Some "Say it");
    row_of (Some "1") None None (Some "Again") ]%string.

Definition lesson_sheet : Excel.SheetObject :=
  Excel.sheet_object "Level 3 Unit 7 Lesson 4" "level_3_unit_7_lesson_4"
    3 7 4 lesson_rows ∅.

Definition lesson_slide_1 : Excel.SlideOut :=
  with_total
    {| Excel.slide_number := 1;
       Excel.lesson := "Lesson 4";
       Excel.section := Some "Intro"%string;
       Excel.title := Some "Slide 1: Welcome"%string;
       Excel.audio :=
         [ {| Excel.filename := "level_3_unit_7_lesson_4_1_1";
              Excel.file_type := "Audio Bar";
              Excel.transcription := Some "Hello"%string;
              Excel.notes := None |};
           {| Excel.filename := "level_3_unit_7_lesson_4_1_2";
              Excel.file_type := "Audio Bar";
              Excel.transcription := Some "Listen"%string;
              Excel.notes := None |};
           {| Excel.filename := "level_3_unit_7_lesson_4_1_3";
              Excel.file_type := "Audio Bar";
              Excel.transcription := Some "Again"%string;
              Excel.notes := None |} ] |}.

(** ** Carry-forward, in the words of the specification *)

(** The number a row's own slide cell gives, if it gives one. *)
Definition slide_cell_value (r : Excel.Row) : option Z :=
  if Excel.blank (Excel.r_slide r) then None
  else Excel.cell_int (Excel.r_slide r).

(** The slide number of the most recent row with a non-blank parseable
    slide cell. *)
Definition recent_slide (rows : list Excel.Row) : option Z :=
  last (omap slide_cell_value rows).

(** A row's own section and title, when the cell is not blank. *)
Definition own_section (r : Excel.Row) : option string :=
  py_or (Excel.clean (Excel.r_section r)) None.

Definition own_title (r : Excel.Row) : option string :=
  py_or (Excel.clean (Excel.r_title r)) None.

(** The most recent non-blank section and title, over all the rows. *)
Definition recent_section (rows : list Excel.Row) : option string :=
  last (omap own_section rows).

Definition recent_title (rows : list Excel.Row) : option string :=
  last (omap own_title rows).

(** The rows that resolve to a slide: those with a parseable slide cell,
    and those with a blank one once a slide number has been seen ([seen]).
    The others are the rows the loop skips for their slide cell. *)
Fixpoint kept_rows (seen : bool) (rows : list Excel.Row) : list Excel.Row :=
  match rows with
  | [] => []
  | r :: rest =>
      if Excel.blank (Excel.r_slide r) then
        if seen then r :: kept_rows seen rest else kept_rows seen rest
      else
        match Excel.cell_int (Excel.r_slide r) with
        | Some _ => r :: kept_rows true rest
        | None => kept_rows seen rest
        end
  end.

(** The most recent non-blank section and title among the rows that
    resolved to a slide. *)
Definition carried_section (rows : list Excel.Row) : option string :=
  last (omap own_section (kept_rows false rows)).

Definition carried_title (rows : list Excel.Row) : option string :=
  last (omap own_title (kept_rows false rows)).

(** Whether a row resolves to a slide after the rows [pre]. *)
Definition resolves (pre : list Excel.Row) (row : Excel.Row) : Prop :=
  if Excel.blank (Excel.r_slide row) then is_Some (recent_slide pre)
  else is_Some (Excel.cell_int (Excel.r_slide row)).

(** The reading of C3 as it is worded: a parseable slide cell puts the
    counter of its slide back to 0, whatever the rows [pre] before it. *)
Definition counter_reset_as_stated (b : string) (ln : Z)
    (pre : list Excel.Row) (row : Excel.Row) : Prop :=
  ∀ n, Excel.blank (Excel.r_slide row) = false →
       Excel.cell_int (Excel.r_slide row) = Some n →
       ∃ st1, Excel.resolve_slide (Excel.aggregate b ln pre) row
                = Some (n, st1) ∧
              Excel.last_slide st1 = Some n ∧
              Excel.audio_counts st1 !! n = Some 0%nat.

(** The reading of the last part of C5 as it is worded: a row that resolves
    to a slide and has a blank section (title) cell goes on with the most
    recent non-blank section (title) of the sheet. *)
Definition section_inherited_as_stated (b : string) (ln : Z)
    (pre : list Excel.Row) (row : Excel.Row) : Prop :=
  resolves pre row →
  let st' := Excel.step b ln (Excel.aggregate b ln pre) row in
  (own_section row = None → Excel.last_section st' = recent_section pre) ∧
  (own_title row = None → Excel.last_title st' = recent_title pre).

(** A slide cell that is not a number. *)
Definition malformed_row : Excel.Row :=
  row_of (Some "n/a") (Some "Warm-up") (Some "Sounds") (Some "Say it")%string.

(** A heading above the first slide, and the first slide's row below it. *)
Definition heading_row : Excel.Row :=
  row_of None (Some "Intro") (Some "Welcome") None%string.

Definition first_slide_row : Excel.Row :=
  row_of (Some "1") None None (Some "Hello")%string.

(** A continuation row. *)
Definition continuation_row : Excel.Row :=
  row_of None None None (Some "Once more")%string.

(** ** The course document, in the words of the specification *)

(** The canonical block title of a toc entry. *)
Definition entry_title (t : Xml.TocEntry) : string :=
  Xml.canonical_block_title (Xml.section t).

(** The toc entries that classify as [T], in toc order. *)
Definition entries_of (T : string) (toc : list Xml.TocEntry)
  : list Xml.TocEntry :=
  filter (λ t, entry_title t = T) toc.

(** One iteration of the grouping loop. *)
Definition add_entry (g : list (string * list Xml.TocEntry))
    (item : Xml.TocEntry) : list (string * list Xml.TocEntry) :=
  Xml.group_add (Xml.canonical_block_title (Xml.section item)) item g.

(** The slide numbers of the toc that parse, in toc order. *)
Definition parseable_numbers (float_int : string → option Z)
    (toc : list Xml.TocEntry) : list Z :=
  omap (λ t, Xml.to_int float_int (Xml.slide_number t)) toc.

Definition has_parseable (float_int : string → option Z)
    (toc : list Xml.TocEntry) : Prop :=
  ∃ t, t ∈ toc ∧ is_Some (Xml.to_int float_int (Xml.slide_number t)).

(** The titles of [l] in the order they are first seen, those of [seen]
    left out. *)
Fixpoint first_seen (seen l : list string) : list string :=
  match l with
  | [] => []
  | x :: r =>
      if decide (x ∈ seen) then first_seen seen r
      else x :: first_seen (seen ++ [x]) r
  end.

(** What a block shows of the entries it was made from: its title and the
    urls of its units. *)
Definition block_view (b : Xml.Block) : string * list string :=
  (Xml.block_title b, Xml.au_url <$> Xml.aus b).

(** The url of the unit made from a toc entry. *)
Definition unit_url (float_int : string → option Z) (it : Xml.TocEntry)
  : string :=
  Xml.lesson_url (Xml.key0 float_int it).

Definition group_view (float_int : string → option Z)
    (g : string * list Xml.TocEntry) : string * list string :=
  (g.1, unit_url float_int <$> sorted_by (Xml.key0 float_int) g.2).

(** Every identifier of a document: block ids and unit ids. *)
Definition document_ids (doc : Xml.CourseStructure) : list string :=
  Xml.blocks doc ≫= (λ b, Xml.block_id b :: (Xml.au_id <$> Xml.aus b)).

(** The reading of C2 as it is worded. *)
Definition opener_first_as_stated (float_int : string → option Z)
    (sheet : Xml.Sheet) (xc : option string) : Prop :=
  has_parseable float_int (Xml.toc sheet) →
  (∃ t, t ∈ Xml.toc sheet ∧ entry_title t = "Lesson Opener"%string) →
  ∃ doc, (Xml.build_xml_for_sheet float_int sheet xc).1 = Some doc ∧
         Xml.block_title <$> head (Xml.blocks doc)
           = Some "Lesson Opener"%string.

(** The reading of C10 as it is worded, in two parts: the entry [e] is a
    unit of the block of its title, with the url of slide 0; and the sort of
    its block puts no genuinely numbered entry in front of it. *)
Definition kept_as_unit (float_int : string → option Z) (sheet : Xml.Sheet)
    (xc : option string) (e : Xml.TocEntry) : Prop :=
  ∃ doc b, (Xml.build_xml_for_sheet float_int sheet xc).1 = Some doc ∧
           b ∈ Xml.blocks doc ∧
           Xml.block_title b = entry_title e ∧
           Xml.lesson_url 0 ∈ Xml.au_url <$> Xml.aus b.

Definition sorts_first (float_int : string → option Z)
    (toc : list Xml.TocEntry) (e : Xml.TocEntry) : Prop :=
  ∃ l1 l2,
    sorted_by (Xml.key0 float_int) (entries_of (entry_title e) toc)
      = l1 ++ e :: l2 ∧
    Forall (λ x, Xml.to_int float_int (Xml.slide_number x) = None) l1.

Definition unparseable_as_stated (float_int : string → option Z)
    (sheet : Xml.Sheet) (xc : option string) : Prop :=
  has_parseable float_int (Xml.toc sheet) →
  ∀ e, e ∈ Xml.toc sheet →
       Xml.to_int float_int (Xml.slide_number e) = None →
       kept_as_unit float_int sheet xc e ∧
       sorts_first float_int (Xml.toc sheet) e.

(** ** Sample sheets *)

Definition entry (n : Xml.pyval) (sec ttl : string) : Xml.TocEntry :=
  {| Xml.slide_number := n; Xml.section := Some sec; Xml.title := Some ttl |}.

Definition sheet_with (toc : list Xml.TocEntry) : Xml.Sheet :=
  {| Xml.sheet_name := Some "Level 3 Unit 7 Lesson 4"%string;
     Xml.base := Some "level_3_unit_7_lesson_4"%string;
     Xml.xcode := Some "X12345"%string;
     Xml.code := None;
     Xml.level := Some (Xml.PyInt 3);
     Xml.unit_ := Some (Xml.PyInt 7);
     Xml.lesson_num := Some (Xml.PyInt 4);
     Xml.toc := toc |}.

(** A float conversion that raises on every text: what Python does on the
    texts the samples below hand to it ("None"). *)
Definition float_raises : string → option Z := λ _, None.

(** The usual shape: the opener comes first in the toc. *)
Definition opener_first_sheet : Xml.Sheet :=
  sheet_with
    [ entry (Xml.PyInt 1) "Intro" "Welcome";
      entry (Xml.PyInt 2) "Warm-up" "Sounds";
      entry (Xml.PyInt 3) "Additional Supports" "Extras";
      entry (Xml.PyInt 4) "Multimodal Mini-Lesson" "Blend" ]%string.

(** The opener section comes second in the toc. *)
Definition warmup_first_sheet : Xml.Sheet :=
  sheet_with
    [ entry (Xml.PyInt 1) "Warm-up" "Sounds";
      entry (Xml.PyInt 2) "Intro" "Welcome" ]%string.

(** Two slides in the opener section. *)
Definition two_opener_sheet : Xml.Sheet :=
  sheet_with
    [ entry (Xml.PyInt 1) "Intro" "Welcome";
      entry (Xml.PyInt 2) "Intro" "Goals";
      entry (Xml.PyInt 3) "Warm-up" "Sounds" ]%string.

(** Three units of one block whose titles are "Blend", "Blend" and
    "Blend 2". *)
Definition slug_clash_sheet : Xml.Sheet :=
  sheet_with
    [ entry (Xml.PyInt 1) "Warm-up" "Blend";
      entry (Xml.PyInt 2) "Warm-up" "Blend";
      entry (Xml.PyInt 3) "Warm-up" "Blend 2" ]%string.

(** Entries without a slide number, next to numbered ones. *)
Definition lost_warmup : Xml.TocEntry := entry Xml.PyNone "Warm-up" "Lost".

Definition lost_support : Xml.TocEntry :=
  entry Xml.PyNone "Additional Supports" "Extras".

Definition unnumbered_sheet : Xml.Sheet :=
  sheet_with
    [ entry (Xml.PyInt (-1)) "Warm-up" "Cover";
      entry (Xml.PyInt 2) "Warm-up" "Sounds";
      lost_warmup;
      lost_support ]%string.

(** ** Text, character by character *)

(** Every character of [s] satisfies [p]. *)
Fixpoint string_forall (p : ascii → bool) (s : string) : bool :=
  match s with
  | EmptyString => true
  | String c r => p c && string_forall p r
  end.

(** The number a digit sequence reads as, most significant digit first,
    after the digits that gave [acc]. *)
Fixpoint uint_val (acc : Z) (d : Decimal.uint) : Z :=
  match d with
  | Decimal.Nil => acc
  | Decimal.D0 l => uint_val (acc * 10 + 0) l
  | Decimal.D1 l => uint_val (acc * 10 + 1) l
  | Decimal.D2 l => uint_val (acc * 10 + 2) l
  | Decimal.D3 l => uint_val (acc * 10 + 3) l
  | Decimal.D4 l => uint_val (acc * 10 + 4) l
  | Decimal.D5 l => uint_val (acc * 10 + 5) l
  | Decimal.D6 l => uint_val (acc * 10 + 6) l
  | Decimal.D7 l => uint_val (acc * 10 + 7) l
  | Decimal.D8 l => uint_val (acc * 10 + 8) l
  | Decimal.D9 l => uint_val (acc * 10 + 9) l
  end.

(** ** More vocabulary for the row loop *)

(** A slide with further audio items at the end. *)
Definition extend_audio (s : Excel.Slide) (extra : list Excel.AudioItem)
  : Excel.Slide :=
  {| Excel.slide_number := Excel.slide_number s;
     Excel.lesson := Excel.lesson s;
     Excel.section := Excel.section s;
     Excel.title := Excel.title s;
     Excel.audio := Excel.audio s ++ extra |}.

(** The slide a row belongs to after the rows [pre]: its own number, or the
    carried one when its slide cell is blank. *)
Definition row_slide (pre : list Excel.Row) (row : Excel.Row) : option Z :=
  if Excel.blank (Excel.r_slide row) then recent_slide pre
  else Excel.cell_int (Excel.r_slide row).

(** The rows that give an audio item: they resolve to a slide and are not
    decorative. *)
Definition content_rows (rows : list Excel.Row) : list Excel.Row :=
  filter (λ r, Excel.decorative r = false) (kept_rows false rows).

(** The number of audio items of a slide dictionary. *)
Definition audio_count (d : list (Z * Excel.Slide)) : nat :=
  sum_list ((λ s, length (Excel.audio s)) <$> ODict.values d).

(** A word: a text that is not empty and has no blank in it. *)
Definition is_word (w : string) : bool :=
  negb (PyStr.is_empty w) &&
  string_forall (λ c, negb (PyStr.is_space c)) w.

(** A small worksheet: a banner row, the header row, two data rows. *)
Definition sample_ws : Excel.worksheet :=
  [ [Some "Level 3 Unit 7"; None; None];
    [Some "Slide"; Some "AUDIO"; Some "Audio #"];
    [Some "1"; Some "Hello"; Some "1"];
    [None; Some "Listen"; Some "2"] ]%string.

(** A worksheet without a transcription column: no row has both headers,
    and row 2, a data row, is read as the header row. *)
Definition headless_ws : Excel.worksheet :=
  [ [Some "Slide"; Some "Notes"];
    [Some "1"; Some "check"] ]%string.

(** The characters of a slug: lower-case letters, digits and the
    underscore. *)
Definition slug_char (c : ascii) : bool :=
  Xml.is_slug_char c || Ascii.eqb c "_".

(** The seven titles [canonical_block_title] names itself. *)
Definition fixed_titles : list string :=
  [ "Lesson Opener"; "Warm-up Review and Repetition";
    "Multimodal Minilesson"; "Vocabulary Booster";
    "Apply to Reading and Writing"; "Additional Supports"; "Lesson" ]%string.

(** ** The block loop as a recursion *)

(** The blocks the loop over the groups appends, starting from block index
    [i], and the block index it ends with. *)
Fixpoint emitted (float_int : string → option Z) (xc ph_skill : string)
    (lesson_n : Z) (title_by_slide : gmap Z (option string)) (i : Z)
    (groups : list (string * list Xml.TocEntry)) : list Xml.Block :=
  match groups with
  | [] => []
  | g :: rest =>
      if String.eqb g.1 "Lesson Opener" then
        Xml.opener_block float_int xc ph_skill title_by_slide g.1 g.2
          :: emitted float_int xc ph_skill lesson_n title_by_slide i rest
      else if String.eqb g.1 "Additional Supports" then
        emitted float_int xc ph_skill lesson_n title_by_slide i rest
      else
        Xml.standard_block float_int xc ph_skill lesson_n (i + 1)
          title_by_slide g.1 g.2
          :: emitted float_int xc ph_skill lesson_n title_by_slide (i + 1) rest
  end.

Fixpoint next_index (i : Z) (groups : list (string * list Xml.TocEntry)) : Z :=
  match groups with
  | [] => i
  | g :: rest =>
      if String.eqb g.1 "Lesson Opener" then next_index i rest
      else if String.eqb g.1 "Additional Supports" then next_index i rest
      else next_index (i + 1) rest
  end.

(** An identifier that carries the block index [j]. *)
Definition indexed_id (xc : string) (j : Z) (rest : string) : string :=
  Xml.site +:+ xc +:+ "/block" +:+ PyStr.show_Z j +:+ String "/" rest.

Definition opener_id (xc : string) : string :=
  Xml.site +:+ xc +:+ "/block/lesson_opener_block".



Definition opener_unit_id (xc : string) : string :=
  Xml.site +:+ xc +:+ "/block/lesson_opener_lesson".

(** What the identifiers of a block and of its units have in common: the
    opener block ([None]) has its two fixed identifiers, every other block
    carries a block index ([Some j]) in all of them. *)
Definition tagged (xc : string) (b : Xml.Block) (t : option Z) : Prop :=
  match t with
  | None =>
      Xml.block_id b = opener_id xc ∧
      Forall (λ au, Xml.au_id au = opener_unit_id xc) (Xml.aus b)
  | Some j =>
      (∃ r, Xml.block_id b = indexed_id xc j r) ∧
      Forall (λ au, ∃ r, Xml.au_id au = indexed_id xc j r) (Xml.aus b)
  end.


(** ** The hand-over from stage 1 to stage 2 *)

(** A toc entry of stage 1 as stage 2 reads it back from the JSON text:
    the slide number is a JSON number, the section a string or null, the
    title a string. *)
Definition toc_dict (t : Excel.TocEntry) : Xml.TocEntry :=
  {| Xml.slide_number := Xml.PyInt (Excel.toc_slide_number t);
     Xml.section := Excel.toc_section t;
     Xml.title := Some (Excel.toc_title t) |}.

(** The sheet dictionary of a sheet object: stage 1 writes no [code] key,
    and the [xcode] key only when the code table has the base. *)
Definition sheet_dict (o : Excel.SheetObject) : Xml.Sheet :=
  {| Xml.sheet_name := Some (Excel.sheet_name o);
     Xml.base := Some (Excel.base o);
     Xml.xcode := Excel.xcode o;
     Xml.code := None;
     Xml.level := Some (Xml.PyInt (Excel.level o));
     Xml.unit_ := Some (Xml.PyInt (Excel.unit_num o));
     Xml.lesson_num := Some (Xml.PyInt (Excel.lesson_num o));
     Xml.toc := toc_dict <$> Excel.toc o |}.

(* [_extract_sheets] on a workbook of stage 1 (a dictionary with the key
   [sheets] and no key [code], lines 308-312) pairs each sheet dictionary
   with its own [xcode]: [py_or None (Excel.xcode o)]. *)

(** * Properties *)

(** ** Dictionaries and sorting *)

Section odict_facts.
Context {K V : Type} `{EqDecision K}.
Implicit Types (d : list (K * V)) (k : K) (v : V).

Lemma get_set_eq d k v : ODict.get k (ODict.set k v d) = Some v.
Proof.
  induction d as [|[k' v'] d IH]; simpl.
  - by rewrite decide_True.
  - destruct (decide (k = k')) as [->|Hne]; simpl.
    + by rewrite decide_True.
    + by rewrite decide_False.
Qed.

Lemma get_set_ne d k k' v :
  k ≠ k' → ODict.get k' (ODict.set k v d) = ODict.get k' d.
Proof.
  intros Hne. induction d as [|[k0 v0] d IH]; simpl.
  - by rewrite decide_False.
  - destruct (decide (k = k0)) as [->|Hk]; simpl.
    + by rewrite !decide_False.
    + destruct (decide (k' = k0)); [done | apply IH].
Qed.

Lemma get_None_keys d k : ODict.get k d = None ↔ k ∉ ODict.keys d.
Proof.
  unfold ODict.keys. induction d as [|[k0 v0] d IH]; simpl.
  - split; [intros _; apply not_elem_of_nil | done].
  - rewrite not_elem_of_cons. destruct (decide (k = k0)) as [->|Hk].
    + split; [done | intros [? _]; done].
    + rewrite IH. tauto.
Qed.

Lemma get_Some_elem_of d k v : ODict.get k d = Some v → (k, v) ∈ d.
Proof.
  induction d as [|[k0 v0] d IH]; simpl; [done|].
  destruct (decide (k = k0)) as [->|Hk].
  - intros [= ->]. apply list_elem_of_here.
  - intros Hg. apply list_elem_of_further, IH, Hg.
Qed.

Lemma elem_of_get d k v :
  NoDup (ODict.keys d) → (k, v) ∈ d → ODict.get k d = Some v.
Proof.
  unfold ODict.keys. induction d as [|[k0 v0] d IH]; simpl.
  - intros _ Hin. by apply elem_of_nil in Hin.
  - intros Hnd Hin. apply NoDup_cons in Hnd as [Hk0 Hnd].
    apply elem_of_cons in Hin as [[= -> ->]|Hin].
    + by rewrite decide_True.
    + destruct (decide (k = k0)) as [->|Hk]; [|by apply IH].
      exfalso. apply Hk0. apply list_elem_of_fmap. by exists (k0, v).
Qed.

Lemma keys_set d k v :
  ODict.keys (ODict.set k v d) =
  match ODict.get k d with
  | Some _ => ODict.keys d
  | None => ODict.keys d ++ [k]
  end.
Proof.
  unfold ODict.keys. induction d as [|[k0 v0] d IH]; [done|].
  cbn [ODict.set ODict.get].
  destruct (decide (k = k0)) as [->|Hk]; [done|].
  rewrite !fmap_cons, IH. by destruct (ODict.get k d).
Qed.

Lemma NoDup_keys_set d k v :
  NoDup (ODict.keys d) → NoDup (ODict.keys (ODict.set k v d)).
Proof.
  intros Hnd. rewrite keys_set.
  destruct (ODict.get k d) eqn:Hg; [done|].
  apply NoDup_app. split_and!; [done | | apply NoDup_singleton].
  intros x Hx Hx'. apply list_elem_of_singleton in Hx' as ->.
  by apply get_None_keys in Hg.
Qed.

End odict_facts.

Lemma app_eq_app_cons {A} (l1 l2 m1 m2 : list A) e :
  l1 ++ l2 = m1 ++ e :: m2 →
  (∃ t, l1 = m1 ++ e :: t ∧ m2 = t ++ l2) ∨
  (∃ t, m1 = l1 ++ t ∧ l2 = t ++ e :: m2).
Proof.
  revert m1. induction l1 as [|a l1 IH]; intros m1 Hs; simpl in *.
  - right. by exists m1.
  - destruct m1 as [|a' m1]; simpl in *.
    + injection Hs as <- <-. left. by exists l1.
    + injection Hs as <- Hs.
      destruct (IH _ Hs) as [(t & -> & ->)|(t & -> & ->)].
      * left. by exists t.
      * right. by exists t.
Qed.

Section sorting_facts.
Context {A : Type} (key : A → Z).

Lemma insert_by_Permutation x (l : list A) : insert_by key x l ≡ₚ x :: l.
Proof.
  induction l as [|y l IH]; simpl; [done|].
  destruct (key x <=? key y); [done|].
  rewrite IH. apply Permutation_swap.
Qed.

Lemma sorted_by_Permutation (l : list A) : sorted_by key l ≡ₚ l.
Proof.
  induction l as [|x l IH]; simpl; [done|].
  by rewrite insert_by_Permutation, IH.
Qed.

(** Where [x] lands: after elements of smaller key only, and right before
    the first element whose key is not smaller. *)
Lemma insert_by_split x (l : list A) :
  ∃ l1 l2, l = l1 ++ l2 ∧ insert_by key x l = l1 ++ x :: l2 ∧
           Forall (λ y, key y < key x) l1 ∧
           (∀ y, head l2 = Some y → key x ≤ key y).
Proof.
  induction l as [|y l IH]; simpl.
  - exists [], []. split_and!; [done..|]. by intros y [=].
  - destruct (key x <=? key y) eqn:Hle.
    + exists [], (y :: l). split_and!; [done..|]. intros ? [= <-]. lia.
    + destruct IH as (l1 & l2 & -> & -> & Hall & Hhd).
      exists (y :: l1), l2. split_and!; [done..| |done].
      constructor; [lia | done].
Qed.

(** The stable sort puts in front of an element only elements whose key is
    not larger. *)
Lemma sorted_by_before (l : list A) e :
  e ∈ l →
  ∃ l1 l2, sorted_by key l = l1 ++ e :: l2 ∧ Forall (λ y, key y ≤ key e) l1.
Proof.
  induction l as [|x l IH]; [by intros ?%elem_of_nil|].
  intros Hin. simpl.
  destruct (insert_by_split x (sorted_by key l))
    as (l1 & l2 & Hs & -> & Hlt & Hhd).
  apply elem_of_cons in Hin as [->|Hin].
  { exists l1, l2. split; [done|].
    eapply Forall_impl; [exact Hlt|]. simpl. lia. }
  destruct (IH Hin) as (m1 & m2 & Hm & Hall).
  rewrite Hm in Hs. symmetry in Hs.
  destruct (app_eq_app_cons _ _ _ _ _ Hs) as [(t & -> & ->)|(t & -> & ->)].
  - exists m1, (t ++ x :: l2). split; [by rewrite <- app_assoc|done].
  - exists (l1 ++ x :: t), m2. split; [by rewrite <- !app_assoc|].
    apply Forall_app in Hall as [H1 H2].
    apply Forall_app. split; [done|]. constructor; [|done].
    destruct t as [|y t]; simpl in Hhd.
    + apply Hhd. done.
    + apply Forall_cons in H2 as [Hy _]. specialize (Hhd y eq_refl). lia.
Qed.

End sorting_facts.

(** The sort looks at the keys only. *)
Lemma insert_by_ext {A} (k1 k2 : A → Z) x (l : list A) :
  k1 x = k2 x → Forall (λ y, k1 y = k2 y) l →
  insert_by k1 x l = insert_by k2 x l.
Proof.
  intros Hx. induction 1 as [|y l Hy _ IH]; simpl; [done|].
  by rewrite Hx, Hy, IH.
Qed.

Lemma sorted_by_ext {A} (k1 k2 : A → Z) (l : list A) :
  Forall (λ y, k1 y = k2 y) l → sorted_by k1 l = sorted_by k2 l.
Proof.
  induction 1 as [|x l Hx Hl IH]; simpl; [done|].
  rewrite IH. apply insert_by_ext; [done|].
  by rewrite sorted_by_Permutation.
Qed.

(** ** Row aggregation *)

Section aggregation_facts.
Import Excel.
Context (b : string) (ln : Z).

Lemma setdefault_default n k (counts : gmap Z nat) :
  default 0%nat (setdefault n 0%nat counts !! k) = default 0%nat (counts !! k).
Proof.
  unfold setdefault. destruct (counts !! n) eqn:Hn; [done|].
  destruct (decide (n = k)) as [->|Hne].
  - by rewrite lookup_insert_eq, Hn.
  - by rewrite lookup_insert_ne.
Qed.

(** Reading the slide cell leaves the slides, the carried section and title
    and the value of every counter as they were. *)
Lemma resolve_slide_frame st row n st1 :
  resolve_slide st row = Some (n, st1) →
  last_slide st1 = Some n ∧
  last_section st1 = last_section st ∧
  last_title st1 = last_title st ∧
  slides_by_num st1 = slides_by_num st ∧
  ∀ k, default 0%nat (audio_counts st1 !! k) =
       default 0%nat (audio_counts st !! k).
Proof.
  unfold resolve_slide. destruct (blank (r_slide row)).
  - destruct (last_slide st) eqn:Hl; [|done]. by intros [= <- <-].
  - destruct (cell_int (r_slide row)); [|done]. intros [= <- <-]. simpl.
    split_and!; try done. intros k. apply setdefault_default.
Qed.

(** The effect of a row that carries content on the slide dictionary and
    the counters. *)
Lemma step_content st row n st1 :
  resolve_slide st row = Some (n, st1) →
  decorative row = false →
  let sec := py_or (clean (r_section row)) (last_section st1) in
  let ttl := py_or (clean (r_title row)) (last_title st1) in
  let s0 := default (new_slide ln n sec ttl)
              (ODict.get n (slides_by_num st1)) in
  let a_idx := S (default 0%nat (audio_counts st1 !! n)) in
  let st' := step b ln st row in
  ODict.get n (slides_by_num st') =
    Some (push_audio (mk_audio b n a_idx row) s0) ∧
  (∀ k, k ≠ n →
        ODict.get k (slides_by_num st') = ODict.get k (slides_by_num st1)) ∧
  audio_counts st' = <[n := a_idx]> (audio_counts st1) ∧
  ODict.keys (slides_by_num st') =
    match ODict.get n (slides_by_num st1) with
    | Some _ => ODict.keys (slides_by_num st1)
    | None => ODict.keys (slides_by_num st1) ++ [n]
    end.
Proof.
  intros Hres Hdec. cbn zeta. unfold step. rewrite Hres, Hdec. simpl.
  unfold append_audio.
  destruct (ODict.get n (slides_by_num st1)) as [s|] eqn:Hg; simpl.
  - rewrite Hg. split_and!; [apply get_set_eq | | done |].
    + intros k Hk. by apply get_set_ne.
    + by rewrite keys_set, Hg.
  - rewrite get_set_eq. split_and!; [apply get_set_eq | | done |].
    + intros k Hk. rewrite !get_set_ne by done. done.
    + rewrite !keys_set, get_set_eq, Hg. done.
Qed.

Lemma step_decorative st row n st1 :
  resolve_slide st row = Some (n, st1) →
  decorative row = true →
  slides_by_num (step b ln st row) = slides_by_num st1 ∧
  audio_counts (step b ln st row) = audio_counts st1.
Proof. intros Hres Hdec. unfold step. by rewrite Hres, Hdec. Qed.

Lemma step_inv st row : agg_inv b st → agg_inv b (step b ln st row).
Proof.
  intros (Hnd & Hok & Hnone).
  destruct (resolve_slide st row) as [[n st1]|] eqn:Hres;
    [|unfold step; by rewrite Hres].
  destruct (resolve_slide_frame _ _ _ _ Hres) as (_ & _ & _ & Hsl & Hcnt).
  destruct (decorative row) eqn:Hdec.
  - destruct (step_decorative _ _ _ _ Hres Hdec) as [Hs Hc].
    unfold agg_inv, slide_ok. rewrite Hs, Hc, Hsl.
    split_and!; [done| |].
    + intros k s Hg. rewrite Hcnt. by apply Hok.
    + intros k Hg. rewrite Hcnt. by apply Hnone.
  - destruct (step_content _ _ _ _ Hres Hdec) as (Hn & Hother & Hc & Hkeys).
    rewrite Hsl in *.
    assert (Hs0 : let s0 := default
                     (new_slide ln n
                        (py_or (clean (r_section row)) (last_section st1))
                        (py_or (clean (r_title row)) (last_title st1)))
                     (ODict.get n (slides_by_num st)) in
                  slide_number s0 = n ∧
                  filename <$> audio s0 =
                    mk_filename b n <$> seq 1 (length (audio s0)) ∧
                  default 0%nat (audio_counts st1 !! n) = length (audio s0)).
    { destruct (ODict.get n (slides_by_num st)) as [s|] eqn:Hg; simpl.
      - rewrite Hcnt. by apply Hok.
      - rewrite Hcnt. split_and!; [done..|]. by apply Hnone. }
    cbn zeta in Hs0. destruct Hs0 as (Hnum & Hfn & Hlen).
    unfold agg_inv. split_and!.
    + rewrite Hkeys. destruct (ODict.get n (slides_by_num st)) eqn:Hg; [done|].
      apply NoDup_app. split_and!; [done| |apply NoDup_singleton].
      intros x Hx ->%list_elem_of_singleton. by apply get_None_keys in Hg.
    + intros k s Hg. destruct (decide (k = n)) as [->|Hk].
      * rewrite Hn in Hg. injection Hg as <-.
        unfold slide_ok. rewrite Hc, lookup_insert_eq. simpl.
        rewrite length_app, fmap_app, Hfn. simpl.
        rewrite Nat.add_1_r, seq_S, fmap_app, Hlen. done.
      * rewrite Hother in Hg by done. specialize (Hok _ _ Hg).
        unfold slide_ok in *. rewrite Hc, lookup_insert_ne by done.
        by rewrite Hcnt.
    + intros k Hg. destruct (decide (k = n)) as [->|Hk].
      * by rewrite Hn in Hg.
      * rewrite Hother in Hg by done.
        rewrite Hc, lookup_insert_ne by done. rewrite Hcnt. by apply Hnone.
Qed.

Lemma init_inv : agg_inv b init.
Proof.
  unfold agg_inv, init. simpl. split_and!; [apply NoDup_nil_2|done..].
Qed.

Lemma foldl_step_inv rows st :
  agg_inv b st → agg_inv b (foldl (step b ln) st rows).
Proof.
  revert st. induction rows as [|r rows IH]; intros st Hinv; [done|].
  simpl. by apply IH, step_inv.
Qed.

Lemma aggregate_inv rows : agg_inv b (aggregate b ln rows).
Proof. apply foldl_step_inv, init_inv. Qed.

End aggregation_facts.

(** ** The sheet object *)

Lemma foldl_close_slide (l : list Excel.Slide) acc :
  foldl Excel.close_slide acc l =
  (acc.1 ++ (with_total <$> l),
   (acc.2 + sum_list (Excel.audio_total <$> (with_total <$> l)))%nat).
Proof.
  revert acc. induction l as [|s l IH]; intros [sl tot]; simpl.
  - by rewrite app_nil_r, Nat.add_0_r.
  - rewrite IH. simpl. rewrite <- app_assoc. simpl. f_equal.
    symmetry. apply Nat.add_assoc.
Qed.

Lemma close_slides_spec (d : list (Z * Excel.Slide)) :
  Excel.close_slides d =
  (with_total <$> sorted_by Excel.slide_number (ODict.values d),
   sum_list (Excel.audio_total <$>
               (with_total <$> sorted_by Excel.slide_number (ODict.values d)))).
Proof. unfold Excel.close_slides. by rewrite foldl_close_slide. Qed.

(** Every slide of a sheet object is a slide the row loop recorded under its
    own number. *)
Lemma sheet_slide_recorded name b lv un ln rows codes s :
  s ∈ Excel.slides (Excel.sheet_object name b lv un ln rows codes) →
  ∃ s0, s = with_total s0 ∧
        ODict.get (Excel.slide_number s0)
          (Excel.slides_by_num (Excel.aggregate b ln rows)) = Some s0 ∧
        slide_ok b (Excel.audio_counts (Excel.aggregate b ln rows))
          (Excel.slide_number s0) s0.
Proof.
  unfold Excel.sheet_object. simpl. rewrite close_slides_spec. simpl.
  intros (s0 & -> & Hin)%list_elem_of_fmap.
  rewrite sorted_by_Permutation in Hin.
  apply list_elem_of_fmap in Hin as ([k s1] & -> & Hin). simpl.
  destruct (aggregate_inv b ln rows) as (Hnd & Hok & _).
  pose proof (elem_of_get _ _ _ Hnd Hin) as Hg.
  pose proof (Hok _ _ Hg) as Hs. pose proof Hs as (Hk & _).
  exists s1. rewrite Hk. done.
Qed.

(** C8. In every sheet object the sheet compiler builds, [totals.slides] is
    the number of entries of [slides] and [totals.audio_items] is the sum of
    the slides' [audio_total]. *)
Theorem sheet_totals_agree name b lv un ln rows codes :
  let so := Excel.sheet_object name b lv un ln rows codes in
  Excel.total_slides (Excel.totals so) = length (Excel.slides so) ∧
  Excel.total_audio_items (Excel.totals so) =
    sum_list (Excel.audio_total <$> Excel.slides so).
Proof.
  cbn zeta. unfold Excel.sheet_object. simpl. split; [done|].
  by rewrite close_slides_spec.
Qed.

(** C4. For every slide of a sheet object, the file names of its audio
    items end in the numbers 1, 2, ..., [audio_total], in the order the
    items were appended, and [audio_total] is the length of the slide's
    audio sequence. *)
Theorem audio_suffixes_contiguous name b lv un ln rows codes s :
  s ∈ Excel.slides (Excel.sheet_object name b lv un ln rows codes) →
  Excel.filename <$> Excel.audio (Excel.slide s) =
    Excel.mk_filename b (Excel.slide_number (Excel.slide s))
      <$> seq 1 (Excel.audio_total s) ∧
  Excel.audio_total s = length (Excel.audio (Excel.slide s)).
Proof.
  intros (s0 & -> & _ & (_ & Hfn & _))%sheet_slide_recorded. done.
Qed.

Lemma audio_suffixes_contiguous_witness :
  lesson_slide_1 ∈ Excel.slides lesson_sheet ∧
  Excel.filename <$> Excel.audio (Excel.slide lesson_slide_1) =
    Excel.mk_filename "level_3_unit_7_lesson_4" 1 <$> seq 1 3 ∧
  Excel.audio_total lesson_slide_1 = 3%nat.
Proof.
  assert (H : lesson_slide_1 ∈ Excel.slides lesson_sheet).
  { vm_compute. apply list_elem_of_here. }
  split; [exact H|].
  exact (audio_suffixes_contiguous _ _ _ _ _ _ _ _ H).
Defined.

(** ** Rows the loop skips *)

(** C9. A data row whose slide cell is non-blank but is not an integer is
    skipped as a whole: the loop state after it is the state before it (no
    slide, no audio item, no change to the carried slide, section and
    title), and the rows after it are aggregated as if it were not there. *)
Theorem malformed_slide_row_skipped name b lv un ln codes row :
  Excel.blank (Excel.r_slide row) = false →
  Excel.cell_int (Excel.r_slide row) = None →
  (∀ st, Excel.step b ln st row = st) ∧
  (∀ pre post,
     Excel.aggregate b ln (pre ++ row :: post) =
     Excel.aggregate b ln (pre ++ post)) ∧
  (∀ pre post,
     Excel.sheet_object name b lv un ln (pre ++ row :: post) codes =
     Excel.sheet_object name b lv un ln (pre ++ post) codes).
Proof.
  intros Hnb Hint.
  assert (Hstep : ∀ st, Excel.step b ln st row = st).
  { intros st. unfold Excel.step, Excel.resolve_slide. by rewrite Hnb, Hint. }
  assert (Hagg : ∀ pre post,
             Excel.aggregate b ln (pre ++ row :: post) =
             Excel.aggregate b ln (pre ++ post)).
  { intros pre post. unfold Excel.aggregate.
    rewrite !foldl_app. simpl. by rewrite Hstep. }
  split_and!; [done..|].
  intros pre post. unfold Excel.sheet_object. by rewrite Hagg.
Qed.

Lemma malformed_slide_row_skipped_witness :
  Excel.blank (Excel.r_slide malformed_row) = false ∧
  Excel.cell_int (Excel.r_slide malformed_row) = None ∧
  Excel.sheet_object "Level 3 Unit 7 Lesson 4" "level_3_unit_7_lesson_4"
    3 7 4 (malformed_row :: lesson_rows) ∅ = lesson_sheet.
Proof.
  split; [reflexivity|]. split; [reflexivity|].
  exact (proj2 (proj2 (malformed_slide_row_skipped
                         "Level 3 Unit 7 Lesson 4" "level_3_unit_7_lesson_4"
                         3 7 4 ∅ malformed_row eq_refl eq_refl))
           [] lesson_rows).
Defined.

(** ** Carry-forward *)

Section carry_forward.
Import Excel.
Context (b : string) (ln : Z).

Lemma omap_cons_eq {A B} (f : A → option B) x (l : list A) :
  omap f (x :: l) =
  match f x with Some y => y :: omap f l | None => omap f l end.
Proof. done. Qed.

Lemma py_or_split a c :
  py_or a c = match py_or a None with Some s => Some s | None => c end.
Proof. destruct a as [s|]; simpl; [|done]. by destruct (PyStr.is_empty s). Qed.

Lemma agg_inv_count st n :
  agg_inv b st →
  default 0%nat (audio_counts st !! n) =
  length (audio_of n (slides_by_num st)).
Proof.
  intros (_ & Hok & Hnone). unfold audio_of.
  destruct (ODict.get n (slides_by_num st)) as [s|] eqn:Hg; simpl.
  - by destruct (Hok _ _ Hg) as (_ & _ & ?).
  - by apply Hnone.
Qed.

(** A row that resolves to slide [n] and carries content adds one audio
    item at the end of that slide, numbered one past the items the slide
    has, and touches no other slide. *)
Lemma step_appends st row n st1 :
  agg_inv b st →
  resolve_slide st row = Some (n, st1) →
  decorative row = false →
  let st' := step b ln st row in
  let k := S (length (audio_of n (slides_by_num st))) in
  audio_of n (slides_by_num st') =
    audio_of n (slides_by_num st) ++ [mk_audio b n k row] ∧
  audio_counts st' !! n = Some k ∧
  (∀ m, m ≠ n →
        ODict.get m (slides_by_num st') = ODict.get m (slides_by_num st)) ∧
  (is_Some (ODict.get n (slides_by_num st)) →
   ODict.keys (slides_by_num st') = ODict.keys (slides_by_num st)) ∧
  (ODict.get n (slides_by_num st) = None →
   ODict.get n (slides_by_num st') =
     Some (push_audio (mk_audio b n k row)
             (new_slide ln n (last_section st') (last_title st')))).
Proof.
  intros Hinv Hres Hdec. cbn zeta.
  destruct (resolve_slide_frame _ _ _ _ Hres) as (_ & Hsec & Httl & Hsl & Hcnt).
  destruct (step_content b ln _ _ _ _ Hres Hdec) as (Hn & Hother & Hc & Hkeys).
  rewrite Hsl in *. rewrite Hcnt, (agg_inv_count _ _ Hinv) in Hn, Hc.
  split_and!.
  - unfold audio_of at 1. rewrite Hn. simpl. f_equal. unfold audio_of.
    by destruct (ODict.get n (slides_by_num st)).
  - by rewrite Hc, lookup_insert_eq.
  - done.
  - intros [s Hs]. by rewrite Hkeys, Hs.
  - intros Hg. rewrite Hn, Hg. simpl. do 3 f_equal.
    + unfold step. by rewrite Hres, Hdec.
    + unfold step. by rewrite Hres, Hdec.
Qed.

(** What one row does to the carried slide, section and title. *)
Lemma step_skips st row : resolve_slide st row = None → step b ln st row = st.
Proof. intros Hres. unfold step. by rewrite Hres. Qed.

Lemma step_carries st row n st1 :
  resolve_slide st row = Some (n, st1) →
  last_slide (step b ln st row) = Some n ∧
  last_section (step b ln st row) =
    py_or (clean (r_section row)) (last_section st) ∧
  last_title (step b ln st row) = py_or (clean (r_title row)) (last_title st).
Proof.
  intros Hres.
  destruct (resolve_slide_frame _ _ _ _ Hres) as (Hl & Hsec & Httl & _).
  unfold step. rewrite Hres.
  destruct (decorative row); simpl; by rewrite Hl, Hsec, Httl.
Qed.

Lemma resolve_slide_cases st row :
  resolve_slide st row =
  match slide_cell_value row with
  | Some n =>
      Some (n, {| last_slide := Some n;
                  last_section := last_section st;
                  last_title := last_title st;
                  audio_counts := setdefault n 0%nat (audio_counts st);
                  slides_by_num := slides_by_num st |})
  | None =>
      if blank (r_slide row) then (λ n, (n, st)) <$> last_slide st else None
  end.
Proof.
  unfold resolve_slide, slide_cell_value.
  destruct (blank (r_slide row)).
  - by destruct (last_slide st).
  - by destruct (cell_int (r_slide row)).
Qed.

Lemma foldl_last_slide rows st :
  last_slide (foldl (step b ln) st rows) =
  match last (omap slide_cell_value rows) with
  | Some n => Some n
  | None => last_slide st
  end.
Proof.
  revert st. induction rows as [|r rows IH]; intros st; [done|].
  cbn [foldl]. rewrite IH, omap_cons_eq.
  destruct (resolve_slide st r) as [[n st1]|] eqn:Hres.
  - destruct (step_carries _ _ _ _ Hres) as (Hl & _). rewrite Hl.
    rewrite resolve_slide_cases in Hres.
    destruct (slide_cell_value r) as [m|] eqn:Hv.
    + injection Hres as <- _. rewrite last_cons.
      by destruct (last (omap slide_cell_value rows)).
    + destruct (blank (r_slide r)); [|done].
      destruct (last_slide st) as [m|]; [|done].
      by injection Hres as <- _.
  - rewrite (step_skips _ _ Hres).
    rewrite resolve_slide_cases in Hres.
    destruct (slide_cell_value r) as [m|] eqn:Hv; [done|]. done.
Qed.

(** The carried value of a cell column [own] read by [get], over the rows
    that resolve to a slide. *)
Lemma foldl_carried (get : AggState → option string)
    (own : Row → option string) rows st seen :
  (∀ st row, resolve_slide st row = None → get (step b ln st row) = get st) →
  (∀ st row n st1, resolve_slide st row = Some (n, st1) →
     get (step b ln st row) =
     match own row with Some s => Some s | None => get st end) →
  seen = (if last_slide st is Some _ then true else false) →
  get (foldl (step b ln) st rows) =
  match last (omap own (kept_rows seen rows)) with
  | Some s => Some s
  | None => get st
  end.
Proof.
  intros Hskip Hkeep. revert st seen.
  induction rows as [|r rows IH]; intros st seen Hseen; [done|].
  cbn [foldl kept_rows].
  destruct (resolve_slide st r) as [[n st1]|] eqn:Hres.
  - pose proof (step_carries _ _ _ _ Hres) as (Hl & _).
    rewrite (IH _ true) by (by rewrite Hl).
    rewrite (Hkeep _ _ _ _ Hres).
    rewrite resolve_slide_cases in Hres. unfold slide_cell_value in Hres.
    assert (Hk : (if blank (r_slide r)
                  then if seen then r :: kept_rows seen rows
                       else kept_rows seen rows
                  else match cell_int (r_slide r) with
                       | Some _ => r :: kept_rows true rows
                       | None => kept_rows seen rows
                       end) = r :: kept_rows true rows).
    { destruct (blank (r_slide r)).
      - destruct (last_slide st); [by subst seen|done].
      - by destruct (cell_int (r_slide r)). }
    rewrite Hk, omap_cons_eq. destruct (own r) as [s|]; [|done].
    rewrite last_cons. by destruct (last (omap own (kept_rows true rows))).
  - rewrite (step_skips _ _ Hres).
    rewrite resolve_slide_cases in Hres. unfold slide_cell_value in Hres.
    assert (Hk : (if blank (r_slide r)
                  then if seen then r :: kept_rows seen rows
                       else kept_rows seen rows
                  else match cell_int (r_slide r) with
                       | Some _ => r :: kept_rows true rows
                       | None => kept_rows seen rows
                       end) = kept_rows seen rows).
    { destruct (blank (r_slide r)).
      - destruct (last_slide st); [done|by subst seen].
      - by destruct (cell_int (r_slide r)). }
    rewrite Hk. by apply IH.
Qed.

Lemma aggregate_last_slide rows :
  last_slide (aggregate b ln rows) = recent_slide rows.
Proof.
  unfold aggregate, recent_slide. rewrite foldl_last_slide.
  by destruct (last (omap slide_cell_value rows)).
Qed.

Lemma aggregate_last_section rows :
  last_section (aggregate b ln rows) = carried_section rows.
Proof.
  unfold aggregate, carried_section.
  rewrite (foldl_carried last_section own_section rows init false).
  - by destruct (last (omap own_section (kept_rows false rows))).
  - intros st row Hres. by rewrite step_skips.
  - intros st row n st1 Hres.
    destruct (step_carries _ _ _ _ Hres) as (_ & -> & _). apply py_or_split.
  - done.
Qed.

Lemma aggregate_last_title rows :
  last_title (aggregate b ln rows) = carried_title rows.
Proof.
  unfold aggregate, carried_title.
  rewrite (foldl_carried last_title own_title rows init false).
  - by destruct (last (omap own_title (kept_rows false rows))).
  - intros st row Hres. by rewrite step_skips.
  - intros st row n st1 Hres.
    destruct (step_carries _ _ _ _ Hres) as (_ & _ & ->). apply py_or_split.
  - done.
Qed.

(** A row that resolves to a slide is one the loop does not skip for its
    slide cell. *)
Lemma resolves_resolve_slide pre row :
  resolves pre row →
  ∃ n st1, resolve_slide (aggregate b ln pre) row = Some (n, st1).
Proof.
  unfold resolves. rewrite resolve_slide_cases. unfold slide_cell_value.
  destruct (blank (r_slide row)).
  - rewrite aggregate_last_slide. intros [n ->]. by eexists _, _.
  - intros [n ->]. by eexists _, _.
Qed.

End carry_forward.

(** ** The audio counter of a slide *)

(** C3, as worded, fails: the second time a sheet names slide 1 the counter
    of slide 1 is 1, not 0. *)
Lemma counter_not_reset_on_revisit :
  ¬ counter_reset_as_stated "level_3_unit_7_lesson_4" 4
      [first_slide_row] first_slide_row.
Proof.
  intros H. destruct (H 1 eq_refl eq_refl) as (st1 & Hres & _ & Hc).
  apply resolve_slide_frame in Hres as (_ & _ & _ & _ & Hcnt).
  specialize (Hcnt 1). rewrite Hc in Hcnt. vm_compute in Hcnt. discriminate.
Qed.

(** C3, amended. A non-blank slide cell that parses as the integer [n]
    makes [n] the carried slide number and leaves slide [n] with a counter
    equal to the number of audio items the slide already has: 0 for a slide
    number not seen before, the old count otherwise.  A row with content
    then appends its item numbered one past that count. *)
Theorem slide_cell_keeps_counter b ln pre row n :
  Excel.blank (Excel.r_slide row) = false →
  Excel.cell_int (Excel.r_slide row) = Some n →
  let st := Excel.aggregate b ln pre in
  let have := length (audio_of n (Excel.slides_by_num st)) in
  ∃ st1,
    Excel.resolve_slide st row = Some (n, st1) ∧
    Excel.last_slide st1 = Some n ∧
    Excel.audio_counts st1 !! n = Some have ∧
    (Excel.decorative row = false →
     audio_of n (Excel.slides_by_num (Excel.step b ln st row)) =
       audio_of n (Excel.slides_by_num st)
         ++ [Excel.mk_audio b n (S have) row]).
Proof.
  intros Hnb Hint. cbn zeta.
  pose proof (aggregate_inv b ln pre) as Hinv.
  eexists. split_and!.
  - unfold Excel.resolve_slide. rewrite Hnb, Hint. reflexivity.
  - done.
  - simpl. rewrite <- (agg_inv_count b _ n Hinv). unfold Excel.setdefault.
    destruct (Excel.audio_counts (Excel.aggregate b ln pre) !! n) eqn:Hc.
    + by rewrite Hc.
    + by rewrite lookup_insert_eq.
  - intros Hdec.
    eapply (step_appends b ln _ row n); [done| |done].
    unfold Excel.resolve_slide. rewrite Hnb, Hint. reflexivity.
Qed.

Lemma slide_cell_keeps_counter_witness :
  Excel.blank (Excel.r_slide first_slide_row) = false ∧
  Excel.cell_int (Excel.r_slide first_slide_row) = Some 1 ∧
  ∃ st1,
    Excel.resolve_slide
      (Excel.aggregate "level_3_unit_7_lesson_4" 4 [first_slide_row])
      first_slide_row = Some (1, st1) ∧
    Excel.audio_counts st1 !! 1 = Some 1%nat.
Proof.
  split; [reflexivity|]. split; [reflexivity|].
  destruct (slide_cell_keeps_counter "level_3_unit_7_lesson_4" 4
              [first_slide_row] first_slide_row 1 eq_refl eq_refl)
    as (st1 & Hres & _ & Hc & _).
  exists st1. split; [exact Hres | exact Hc].
Defined.

(** ** Continuation rows *)

(** C5, as worded, fails in its last part: a section named on a row the
    loop skips (here a heading above the first slide number) is not
    carried to the rows below. *)
Lemma skipped_heading_not_inherited :
  ¬ section_inherited_as_stated "level_3_unit_7_lesson_4" 4
      [heading_row] first_slide_row.
Proof.
  intros H. unfold section_inherited_as_stated in H.
  destruct H as [Hsec _]; [by eexists|].
  specialize (Hsec eq_refl). vm_compute in Hsec. discriminate.
Qed.

(** C5, amended. A row whose slide cell is blank goes to the slide of the
    most recent row with a non-blank parseable slide cell: that number
    stays the carried one, and a row with content appends its audio item to
    that slide, raising its counter by one and creating no record for any
    other slide (the slide's own record is created here only if no earlier
    row of the slide carried content).  A row that resolves to a slide and
    has a blank section or title cell takes over the most recent non-blank
    section or title among the earlier rows that resolved to a slide. *)
Theorem blank_cells_inherit b ln pre row :
  resolves pre row →
  let st := Excel.aggregate b ln pre in
  let st' := Excel.step b ln st row in
  Excel.last_section st' =
    py_or (Excel.clean (Excel.r_section row)) (carried_section pre) ∧
  Excel.last_title st' =
    py_or (Excel.clean (Excel.r_title row)) (carried_title pre) ∧
  (Excel.blank (Excel.r_slide row) = true →
   ∀ n, recent_slide pre = Some n →
     Excel.last_slide st' = Some n ∧
     (Excel.decorative row = false →
      let have := length (audio_of n (Excel.slides_by_num st)) in
      audio_of n (Excel.slides_by_num st') =
        audio_of n (Excel.slides_by_num st)
          ++ [Excel.mk_audio b n (S have) row] ∧
      default 0%nat (Excel.audio_counts st !! n) = have ∧
      Excel.audio_counts st' !! n = Some (S have) ∧
      (∀ m, m ≠ n →
         ODict.get m (Excel.slides_by_num st') =
         ODict.get m (Excel.slides_by_num st)) ∧
      (is_Some (ODict.get n (Excel.slides_by_num st)) →
       ODict.keys (Excel.slides_by_num st') =
       ODict.keys (Excel.slides_by_num st)))).
Proof.
  intros Hres. cbn zeta.
  pose proof (aggregate_inv b ln pre) as Hinv.
  destruct (resolves_resolve_slide b ln _ _ Hres) as (n & st1 & Hrs).
  destruct (step_carries b ln _ _ _ _ Hrs) as (Hl & Hsec & Httl).
  rewrite Hsec, Httl, aggregate_last_section, aggregate_last_title.
  split_and!; [done..|].
  intros Hb m Hm.
  assert (n = m) as ->.
  { rewrite resolve_slide_cases in Hrs. unfold slide_cell_value in Hrs.
    rewrite Hb, aggregate_last_slide, Hm in Hrs. simpl in Hrs. congruence. }
  split; [done|]. intros Hdec.
  destruct (step_appends b ln _ _ _ _ Hinv Hrs Hdec)
    as (Ha & Hc & Hother & Hkeys & _).
  split_and!; [done| |done..].
  by apply (agg_inv_count b).
Qed.

Lemma blank_cells_inherit_witness :
  resolves (take 1 lesson_rows) continuation_row ∧
  Excel.last_section
    (Excel.step "level_3_unit_7_lesson_4" 4
       (Excel.aggregate "level_3_unit_7_lesson_4" 4 (take 1 lesson_rows))
       continuation_row) = Some "Intro"%string.
Proof.
  assert (H : resolves (take 1 lesson_rows) continuation_row).
  { by exists 1. }
  split; [exact H|].
  exact (proj1 (blank_cells_inherit "level_3_unit_7_lesson_4" 4
                  (take 1 lesson_rows) continuation_row H)).
Defined.

(** ** Header mapping *)

(** C6, as worded, fails: the header text "Slide #" maps to no field. *)
Lemma slide_hash_is_not_mapped :
  Excel.map_header (Some "Slide #"%string) ≠ Some Excel.f_slide_number.
Proof. vm_compute. discriminate. Qed.

(** C6, amended. The header text "Audio #" maps to no field, and so does
    "Slide #"; with the hash in front, "# Slide" maps to [slide_number], as
    do "Slide", "Slides", "# Slides" and "Slide Number". *)
Theorem header_hash_mapping :
  Excel.map_header (Some "Audio #"%string) = None ∧
  Excel.map_header (Some "Slide #"%string) = None ∧
  Excel.map_header (Some "# Slide"%string) = Some Excel.f_slide_number ∧
  Excel.map_header (Some "Slide"%string) = Some Excel.f_slide_number ∧
  Excel.map_header (Some "Slides"%string) = Some Excel.f_slide_number ∧
  Excel.map_header (Some "# Slides"%string) = Some Excel.f_slide_number ∧
  Excel.map_header (Some "Slide Number"%string) = Some Excel.f_slide_number.
Proof. repeat split; reflexivity. Qed.

(** ** Grouping the toc *)

Section grouping_facts.
Implicit Types (g : list (string * list Xml.TocEntry)) (toc : list Xml.TocEntry).

Lemma default_get_group_add g item T :
  default [] (ODict.get T (add_entry g item)) =
  default [] (ODict.get T g) ++ entries_of T [item].
Proof.
  unfold add_entry, Xml.group_add, entries_of.
  rewrite filter_cons, filter_nil. fold (entry_title item).
  destruct (decide (entry_title item = T)) as [<-|Hne].
  - by rewrite get_set_eq.
  - rewrite get_set_ne by done. by rewrite app_nil_r.
Qed.

Lemma get_group_add_nonempty g item T items :
  (∀ T items, ODict.get T g = Some items → items ≠ []) →
  ODict.get T (add_entry g item) = Some items → items ≠ [].
Proof.
  intros Hg. unfold add_entry, Xml.group_add. fold (entry_title item).
  destruct (decide (entry_title item = T)) as [<-|Hne].
  - rewrite get_set_eq. intros [= <-]. by destruct (default _ _).
  - rewrite get_set_ne by done. apply Hg.
Qed.

Lemma foldl_add_entry toc g done :
  NoDup (ODict.keys g) →
  (∀ T, default [] (ODict.get T g) = entries_of T done) →
  (∀ T items, ODict.get T g = Some items → items ≠ []) →
  let g' := foldl add_entry g toc in
  NoDup (ODict.keys g') ∧
  (∀ T, default [] (ODict.get T g') = entries_of T (done ++ toc)) ∧
  (∀ T items, ODict.get T g' = Some items → items ≠ []) ∧
  ODict.keys g' = ODict.keys g ++ first_seen (ODict.keys g) (entry_title <$> toc).
Proof.
  revert g done. induction toc as [|item toc IH]; intros g done Hnd Hget Hne.
  - simpl. rewrite !app_nil_r. done.
  - cbn [foldl]. cbn zeta.
    destruct (IH (add_entry g item) (done ++ [item])) as (H1 & H2 & H3 & H4).
    + unfold add_entry, Xml.group_add. by apply NoDup_keys_set.
    + intros T. rewrite default_get_group_add, Hget.
      unfold entries_of. by rewrite filter_app.
    + intros T items. by apply get_group_add_nonempty.
    + split_and!; [done| |done|].
      * intros T. rewrite H2. by rewrite <- app_assoc.
      * rewrite H4. unfold add_entry at 1 2, Xml.group_add. rewrite keys_set.
        fold (entry_title item). rewrite fmap_cons. cbn [first_seen].
        destruct (ODict.get (entry_title item) g) eqn:Hg.
        -- rewrite decide_True; [done|].
           destruct (decide (entry_title item ∈ ODict.keys g)) as [|Hn];
             [done|]. apply get_None_keys in Hn. congruence.
        -- rewrite decide_False by (by apply get_None_keys).
           by rewrite <- app_assoc.
Qed.

Lemma group_toc_facts toc :
  NoDup (ODict.keys (Xml.group_toc toc)) ∧
  (∀ T, default [] (ODict.get T (Xml.group_toc toc)) = entries_of T toc) ∧
  (∀ T items, ODict.get T (Xml.group_toc toc) = Some items → items ≠ []) ∧
  ODict.keys (Xml.group_toc toc) = first_seen [] (entry_title <$> toc).
Proof.
  apply (foldl_add_entry toc [] []); [apply NoDup_nil_2|done..].
Qed.

(** A group holds the entries of its title, in toc order. *)
Lemma group_toc_elem_of toc T items :
  (T, items) ∈ Xml.group_toc toc → items = entries_of T toc ∧ items ≠ [].
Proof.
  destruct (group_toc_facts toc) as (Hnd & Hget & Hne & _).
  intros Hin. pose proof (elem_of_get _ _ _ Hnd Hin) as Hg.
  split; [|by eapply Hne]. rewrite <- Hget, Hg. done.
Qed.

(** Every entry sits in the group of its title. *)
Lemma group_toc_of_entry toc e :
  e ∈ toc →
  (entry_title e, entries_of (entry_title e) toc) ∈ Xml.group_toc toc.
Proof.
  destruct (group_toc_facts toc) as (Hnd & Hget & Hne & _).
  intros Hin. apply get_Some_elem_of.
  specialize (Hget (entry_title e)).
  destruct (ODict.get (entry_title e) (Xml.group_toc toc)) as [items|] eqn:Hg.
  - simpl in Hget. by rewrite Hget.
  - simpl in Hget. exfalso.
    assert (He : e ∈ entries_of (entry_title e) toc).
    { unfold entries_of. by apply list_elem_of_filter. }
    rewrite <- Hget in He. by apply elem_of_nil in He.
Qed.

(** The first title of a kind among the first-seen titles is the first of
    that kind in the list itself. *)
Lemma head_filter_first_seen (P : string → Prop) `{∀ x, Decision (P x)}
    seen l :
  Forall (λ x, ¬ P x) seen →
  head (filter P (first_seen seen l)) = head (filter P l).
Proof.
  revert seen. induction l as [|x l IH]; intros seen Hseen; [done|].
  cbn [first_seen]. destruct (decide (x ∈ seen)) as [Hin|Hnin].
  - rewrite (filter_cons_False P x l); [by apply IH|].
    rewrite Forall_forall in Hseen. by apply Hseen.
  - rewrite !filter_cons. destruct (decide (P x)); [done|].
    apply IH. apply Forall_app. split; [done|]. by constructor.
Qed.

End grouping_facts.

(** ** The block loop *)

Lemma fst_filter_fmap {A B} (P : A → Prop) `{∀ x, Decision (P x)}
    (l : list (A * B)) :
  (filter (λ g, P g.1) l).*1 = filter P (l.*1).
Proof.
  induction l as [|[a c] l IH]; [done|].
  rewrite fmap_cons, !filter_cons. simpl.
  destruct (decide (P a)); [rewrite fmap_cons|]; by rewrite IH.
Qed.

Lemma foldl_max_spec (l : list Z) x :
  foldl Z.max x l ∈ x :: l ∧ Forall (λ y, y ≤ foldl Z.max x l) (x :: l).
Proof.
  revert x. induction l as [|y l IH]; intros x; simpl.
  - split; [apply list_elem_of_here|]. by constructor.
  - destruct (IH (Z.max x y)) as [Hin Hall].
    apply Forall_cons in Hall as [Hm Hall]. split.
    + apply elem_of_cons in Hin as [Hin|Hin].
      * rewrite Hin. destruct (Z.max_spec x y) as [[_ ->]|[_ ->]].
        -- apply list_elem_of_further, list_elem_of_here.
        -- apply list_elem_of_here.
      * by do 2 apply list_elem_of_further.
    + constructor; [lia|]. constructor; [lia|done].
Qed.

Lemma py_max_spec (l : list Z) m :
  Xml.py_max l = Some m → m ∈ l ∧ Forall (λ y, y ≤ m) l.
Proof.
  destruct l as [|x l]; [done|]. intros [= <-]. apply foldl_max_spec.
Qed.

Lemma py_max_is_Some (l : list Z) : l ≠ [] → is_Some (Xml.py_max l).
Proof. destruct l; [done|]. by eexists. Qed.

Section builder_facts.
Context (float_int : string → option Z).

Lemma foldl_scan_entry toc acc :
  (foldl (Xml.scan_entry float_int) acc toc).2 =
  acc.2 ++ parseable_numbers float_int toc.
Proof.
  revert acc. induction toc as [|t toc IH]; intros acc.
  - simpl. by rewrite app_nil_r.
  - cbn [foldl]. rewrite IH. unfold parseable_numbers.
    rewrite omap_cons_eq. unfold Xml.scan_entry.
    destruct (Xml.to_int float_int (Xml.slide_number t)); [|done].
    simpl. by rewrite <- app_assoc.
Qed.

Lemma scan_toc_numbers toc :
  (Xml.scan_toc float_int toc).2 = parseable_numbers float_int toc.
Proof. unfold Xml.scan_toc. by rewrite foldl_scan_entry. Qed.

Lemma has_parseable_numbers toc :
  has_parseable float_int toc → parseable_numbers float_int toc ≠ [].
Proof.
  intros (t & Hin & [n Hn]) Hnil.
  assert (Hm : n ∈ parseable_numbers float_int toc).
  { unfold parseable_numbers. apply list_elem_of_omap. by exists t. }
  rewrite Hnil in Hm. by apply elem_of_nil in Hm.
Qed.

Lemma opener_au_urls xc ph tbs (l : list Xml.TocEntry) :
  Xml.au_url <$> (Xml.opener_au float_int xc ph tbs <$> l) = unit_url float_int <$> l.
Proof. induction l as [|x l IH]; [done|]. rewrite !fmap_cons, IH. done. Qed.

Lemma foldl_standard_au_urls bid ph tbs (l : list Xml.TocEntry) acc :
  Xml.au_url <$> (foldl (Xml.standard_au float_int bid ph tbs) acc l).2 =
  (Xml.au_url <$> acc.2) ++ (unit_url float_int <$> l).
Proof.
  revert acc. induction l as [|x l IH]; intros acc.
  - simpl. by rewrite app_nil_r.
  - cbn [foldl]. rewrite IH. unfold Xml.standard_au. cbn [snd].
    rewrite fmap_app, fmap_cons, <- app_assoc. done.
Qed.

(** Each group but "Additional Supports" gives one block, in the order of
    the groups: the block has the title of the group and one unit per
    entry, in the order of the stable sort by slide number. *)
Lemma foldl_emit_group_view xc ph ln tbs groups st :
  block_view <$> (foldl (Xml.emit_group float_int xc ph ln tbs) st groups).2 =
  (block_view <$> st.2) ++
  (group_view float_int
     <$> filter (λ g, g.1 ≠ "Additional Supports"%string) groups).
Proof.
  revert st. induction groups as [|g groups IH]; intros st.
  - simpl. by rewrite app_nil_r.
  - cbn [foldl]. rewrite IH. rewrite filter_cons. unfold Xml.emit_group.
    destruct (String.eqb_spec g.1 "Lesson Opener") as [Hop|Hop].
    + rewrite decide_True by (by rewrite Hop). cbn [snd].
      rewrite fmap_app, <- app_assoc, fmap_cons. do 2 f_equal.
      unfold block_view, group_view, Xml.opener_block. simpl.
      by rewrite opener_au_urls.
    + destruct (String.eqb_spec g.1 "Additional Supports") as [Has|Has].
      * rewrite decide_False by (by intros ?). done.
      * rewrite decide_True by done. cbn [snd].
        rewrite fmap_app, <- app_assoc, fmap_cons. do 2 f_equal.
        unfold block_view, group_view, Xml.standard_block. simpl.
        by rewrite foldl_standard_au_urls.
Qed.

(** The document of a sheet with a parseable slide number: the blocks of
    the groups, then the closing block for the largest parseable number. *)
Lemma build_blocks sheet xc :
  has_parseable float_int (Xml.toc sheet) →
  ∃ doc pre xc' ln idx m,
    (Xml.build_xml_for_sheet float_int sheet xc).1 = Some doc ∧
    Xml.blocks doc =
      pre ++ [Xml.additional_supports_block xc' ln idx m] ∧
    block_view <$> pre =
      group_view float_int
        <$> filter (λ g, g.1 ≠ "Additional Supports"%string)
              (Xml.group_toc (Xml.toc sheet)) ∧
    Xml.py_max (parseable_numbers float_int (Xml.toc sheet)) = Some m.
Proof.
  intros Hp.
  pose proof (has_parseable_numbers _ Hp) as Hne.
  destruct (py_max_is_Some _ Hne) as [m Hm].
  assert (Htoc : Xml.toc sheet ≠ []).
  { destruct Hp as (t & Hin & _). intros E. rewrite E in Hin.
    by apply elem_of_nil in Hin. }
  unfold Xml.build_xml_for_sheet.
  rewrite scan_toc_numbers, Hm.
  destruct (Xml.toc sheet) as [|t toc] eqn:E; [done|].
  eexists _, _, _, _, _, m. cbn [fst]. split; [reflexivity|].
  cbn [Xml.blocks]. split; [reflexivity|]. split; [|done].
  by rewrite foldl_emit_group_view.
Qed.

End builder_facts.

(** ** The closing block *)

(** C1. For a sheet whose toc has an entry with a parseable slide number,
    the builder returns a document whose last block is the synthesized
    "Additional Supports" block, the only block of that title; its single
    unit links to the largest parseable slide number plus one; and every
    block before it has another title and holds exactly the entries of the
    toc that classify under that title, so that the entries classifying as
    "Additional Supports" give no block of their own. *)
Theorem additional_supports_last float_int sheet xc :
  has_parseable float_int (Xml.toc sheet) →
  ∃ doc pre last_block m,
    (Xml.build_xml_for_sheet float_int sheet xc).1 = Some doc ∧
    Xml.blocks doc = pre ++ [last_block] ∧
    Xml.block_title last_block = "Additional Supports"%string ∧
    Xml.au_url <$> Xml.aus last_block = [Xml.lesson_url (m + 1)] ∧
    m ∈ parseable_numbers float_int (Xml.toc sheet) ∧
    Forall (λ k, k ≤ m) (parseable_numbers float_int (Xml.toc sheet)) ∧
    Forall (λ b,
              Xml.block_title b ≠ "Additional Supports"%string ∧
              Xml.au_url <$> Xml.aus b =
                unit_url float_int
                  <$> sorted_by (Xml.key0 float_int)
                        (entries_of (Xml.block_title b) (Xml.toc sheet)))
           pre.
Proof.
  intros Hp.
  destruct (build_blocks float_int sheet xc Hp)
    as (doc & pre & xc' & ln & idx & m & Hdoc & Hbl & Hview & Hm).
  destruct (py_max_spec _ _ Hm) as [Hin Hmax].
  exists doc, pre, (Xml.additional_supports_block xc' ln idx m), m.
  split_and!; try done.
  apply Forall_forall. intros b Hb.
  assert (Hv : block_view b ∈ block_view <$> pre)
    by (by apply list_elem_of_fmap_2).
  rewrite Hview in Hv.
  apply list_elem_of_fmap in Hv as ([T items] & Hv & Hg).
  apply list_elem_of_filter in Hg as [HT Hg]. simpl in HT.
  apply group_toc_elem_of in Hg as [-> _].
  unfold block_view, group_view in Hv. simpl in Hv.
  injection Hv as -> ->. done.
Qed.

Lemma additional_supports_last_witness :
  has_parseable float_raises (Xml.toc opener_first_sheet) ∧
  ∃ doc pre last_block,
    (Xml.build_xml_for_sheet float_raises opener_first_sheet None).1
      = Some doc ∧
    Xml.blocks doc = pre ++ [last_block] ∧
    Xml.block_title last_block = "Additional Supports"%string ∧
    Xml.au_url <$> Xml.aus last_block = ["contents/lesson/5.html"%string].
Proof.
  assert (H : has_parseable float_raises (Xml.toc opener_first_sheet)).
  { exists (entry (Xml.PyInt 4) "Multimodal Mini-Lesson" "Blend").
    split; [|by exists 4]. do 3 apply list_elem_of_further.
    apply list_elem_of_here. }
  split; [exact H|].
  destruct (additional_supports_last float_raises opener_first_sheet None H)
    as (doc & pre & b & m & Hdoc & Hbl & Ht & Hu & Hin & Hmax & _).
  exists doc, pre, b. split_and!; [done..|].
  rewrite Hu. do 2 f_equal.
  assert (Hle : 4 ≤ m).
  { rewrite Forall_forall in Hmax. apply Hmax. vm_compute.
    do 3 apply list_elem_of_further. apply list_elem_of_here. }
  assert (Hge : m ≤ 4).
  { vm_compute in Hin.
    repeat (apply elem_of_cons in Hin as [->|Hin]; [lia|]).
    by apply elem_of_nil in Hin. }
  assert (m = 4) as -> by lia. reflexivity.
Defined.

(** ** The opener block *)

(** C2, as worded, fails: with the opener section second in the toc the
    first block is the warm-up block, whatever the float conversion does. *)
Lemma opener_second_in_toc_is_second_block :
  ¬ ∃ float_int, opener_first_as_stated float_int warmup_first_sheet None.
Proof.
  intros [f H]. destruct H as (doc & Hdoc & Hhd).
  - exists (entry (Xml.PyInt 1) "Warm-up" "Sounds").
    split; [apply list_elem_of_here | by exists 1].
  - exists (entry (Xml.PyInt 2) "Intro" "Welcome").
    split; [apply list_elem_of_further, list_elem_of_here | reflexivity].
  - vm_compute in Hdoc. injection Hdoc as <-. vm_compute in Hhd.
    discriminate.
Qed.

(** C2, amended. For a sheet whose toc has an entry with a parseable slide
    number, the blocks carry the canonical titles of the toc in the order in
    which they are first seen, "Additional Supports" left out and then put
    at the end.  So the "Lesson Opener" block is the first block exactly
    when the first toc entry that does not classify as "Additional Supports"
    classifies as "Lesson Opener"; otherwise the blocks of the titles seen
    before it come first. *)
Theorem opener_first_iff_seen_first float_int sheet xc :
  has_parseable float_int (Xml.toc sheet) →
  ∃ doc,
    (Xml.build_xml_for_sheet float_int sheet xc).1 = Some doc ∧
    Xml.block_title <$> Xml.blocks doc =
      filter (λ T, T ≠ "Additional Supports"%string)
        (first_seen [] (entry_title <$> Xml.toc sheet))
      ++ ["Additional Supports"%string] ∧
    (Xml.block_title <$> head (Xml.blocks doc) = Some "Lesson Opener"%string
     ↔ head (filter (λ T, T ≠ "Additional Supports"%string)
               (entry_title <$> Xml.toc sheet))
         = Some "Lesson Opener"%string).
Proof.
  intros Hp.
  destruct (build_blocks float_int sheet xc Hp)
    as (doc & pre & xc' & ln & idx & m & Hdoc & Hbl & Hview & _).
  exists doc. split; [done|].
  assert (Htitles :
    Xml.block_title <$> Xml.blocks doc =
    filter (λ T, T ≠ "Additional Supports"%string)
      (first_seen [] (entry_title <$> Xml.toc sheet))
    ++ ["Additional Supports"%string]).
  { rewrite Hbl, fmap_app. f_equal.
    destruct (group_toc_facts (Xml.toc sheet)) as (_ & _ & _ & Hkeys).
    rewrite <- Hkeys. unfold ODict.keys.
    rewrite <- (fst_filter_fmap (λ T, T ≠ "Additional Supports"%string)).
    transitivity ((block_view <$> pre).*1).
    - rewrite <- list_fmap_compose. done.
    - rewrite Hview, <- list_fmap_compose. done. }
  split; [done|].
  assert (Hhead : Xml.block_title <$> head (Xml.blocks doc) =
                  head (Xml.block_title <$> Xml.blocks doc)).
  { by destruct (Xml.blocks doc). }
  rewrite Hhead, Htitles, head_app.
  rewrite (head_filter_first_seen _ [] _ (Forall_nil_2 _)).
  destruct (head (filter _ (entry_title <$> Xml.toc sheet))); simpl.
  - done.
  - split; discriminate.
Qed.

Lemma opener_first_iff_seen_first_witness :
  has_parseable float_raises (Xml.toc opener_first_sheet) ∧
  ∃ doc,
    (Xml.build_xml_for_sheet float_raises opener_first_sheet None).1
      = Some doc ∧
    Xml.block_title <$> Xml.blocks doc =
      [ "Lesson Opener"; "Warm-up Review and Repetition";
        "Multimodal Minilesson"; "Additional Supports" ]%string.
Proof.
  assert (H : has_parseable float_raises (Xml.toc opener_first_sheet)).
  { exists (entry (Xml.PyInt 1) "Intro" "Welcome").
    split; [apply list_elem_of_here | by exists 1]. }
  split; [exact H|].
  destruct (opener_first_iff_seen_first float_raises opener_first_sheet
              None H) as (doc & Hdoc & Ht & _).
  exists doc. split; [exact Hdoc|]. rewrite Ht. reflexivity.
Defined.

(** ** Identifiers *)

(** C7 fails on the code: the units of the opener block all get the
    identifier ".../block/lesson_opener_lesson", so a sheet with two opener
    slides gives a document with a repeated identifier. *)
Theorem opener_units_share_id float_int :
  ∃ doc,
    (Xml.build_xml_for_sheet float_int two_opener_sheet None).1 = Some doc ∧
    Xml.au_id <$> (Xml.blocks doc ≫= Xml.aus) =
      [ "http://benchmarkuniverse.com/X12345/block/lesson_opener_lesson";
        "http://benchmarkuniverse.com/X12345/block/lesson_opener_lesson";
        "http://benchmarkuniverse.com/X12345/block0/lesson_4/sounds";
        "http://benchmarkuniverse.com/X12345/block1/lesson_4/additionalsupports_0"
      ]%string ∧
    ¬ NoDup (document_ids doc).
Proof.
  eexists. split; [vm_compute; reflexivity|]. split; [vm_compute; reflexivity|].
  vm_compute. intros Hnd.
  apply NoDup_cons in Hnd as [_ Hnd]. apply NoDup_cons in Hnd as [Hnin _].
  apply Hnin, list_elem_of_here.
Qed.

(** The counter of the standard blocks misses as well: after "Blend" and
    "Blend" the second unit is named "blend_2", and so is the unit titled
    "Blend 2". *)
Lemma slug_counter_clash float_int :
  ∃ doc,
    (Xml.build_xml_for_sheet float_int slug_clash_sheet None).1 = Some doc ∧
    Xml.au_id <$> (Xml.blocks doc ≫= Xml.aus) =
      [ "http://benchmarkuniverse.com/X12345/block0/lesson_4/blend";
        "http://benchmarkuniverse.com/X12345/block0/lesson_4/blend_2";
        "http://benchmarkuniverse.com/X12345/block0/lesson_4/blend_2";
        "http://benchmarkuniverse.com/X12345/block1/lesson_4/additionalsupports_0"
      ]%string.
Proof. eexists. split; vm_compute; reflexivity. Qed.

(** ** Entries without a slide number *)

(** C10, as worded, fails twice on one sheet, for any float conversion that
    raises on "None": the unnumbered entry of the "Additional Supports"
    section gives no unit, and the unnumbered warm-up entry is sorted behind
    the entry numbered -1. *)
Lemma unnumbered_entry_dropped_or_behind :
  (¬ ∃ float_int, float_int "None"%string = None ∧
       unparseable_as_stated float_int unnumbered_sheet None) ∧
  (¬ ∃ float_int, float_int "None"%string = None ∧
       kept_as_unit float_int unnumbered_sheet None lost_support) ∧
  (¬ ∃ float_int, float_int "None"%string = None ∧
       sorts_first float_int (Xml.toc unnumbered_sheet) lost_warmup).
Proof.
  assert (Hnone : ∀ f : string → option Z,
            f "None"%string = None → Xml.to_int f Xml.PyNone = None).
  { intros f Hf. unfold Xml.to_int. simpl. exact Hf. }
  assert (Hp : ∀ f, has_parseable f (Xml.toc unnumbered_sheet)).
  { intros f. exists (entry (Xml.PyInt 2) "Warm-up" "Sounds").
    split; [apply list_elem_of_further, list_elem_of_here | by exists 2]. }
  assert (Hkept : ¬ ∃ float_int, float_int "None"%string = None ∧
            kept_as_unit float_int unnumbered_sheet None lost_support).
  { intros (f & Hf & doc & b & Hdoc & Hb & Ht & Hu).
    destruct (build_blocks f unnumbered_sheet None (Hp f))
      as (doc' & pre & xc' & ln & idx & m & Hdoc' & Hbl & Hview & Hm).
    rewrite Hdoc in Hdoc'. injection Hdoc' as <-.
    assert (Hnums : parseable_numbers f (Xml.toc unnumbered_sheet)
                    = [-1; 2]).
    { unfold parseable_numbers, unnumbered_sheet, sheet_with.
      cbn [Xml.toc]. rewrite !omap_cons_eq.
      unfold lost_warmup, lost_support, entry. cbn [Xml.slide_number].
      rewrite (Hnone f Hf). reflexivity. }
    rewrite Hnums in Hm. injection Hm as <-.
    rewrite Hbl in Hb. apply elem_of_app in Hb as [Hb|Hb].
    - assert (Hv : block_view b ∈ block_view <$> pre)
        by (by apply list_elem_of_fmap_2).
      rewrite Hview in Hv.
      apply list_elem_of_fmap in Hv as (g & Hv & Hg).
      apply list_elem_of_filter in Hg as [Hg _]. apply Hg.
      unfold block_view, group_view in Hv. injection Hv as <- _.
      rewrite Ht. reflexivity.
    - apply list_elem_of_singleton in Hb as ->.
      cbn [Xml.aus Xml.additional_supports_block fmap list_fmap Xml.au_url]
        in Hu.
      apply list_elem_of_singleton in Hu. vm_compute in Hu. discriminate. }
  assert (Hsort : ¬ ∃ float_int, float_int "None"%string = None ∧
            sorts_first float_int (Xml.toc unnumbered_sheet) lost_warmup).
  { intros (f & Hf & l1 & l2 & Hs & Hall).
    assert (He : entries_of (entry_title lost_warmup)
                   (Xml.toc unnumbered_sheet) =
                 [ entry (Xml.PyInt (-1)) "Warm-up" "Cover";
                   entry (Xml.PyInt 2) "Warm-up" "Sounds";
                   lost_warmup ]) by reflexivity.
    rewrite He in Hs.
    rewrite (sorted_by_ext (Xml.key0 f) (Xml.key0 float_raises)) in Hs.
    - vm_compute in Hs.
      destruct l1 as [|a l1]; [discriminate Hs|].
      injection Hs as <- Hs. apply Forall_cons in Hall as [Ha _].
      vm_compute in Ha. discriminate Ha.
    - repeat constructor.
      unfold Xml.key0, Xml.to_int0, lost_warmup, entry.
      cbn [Xml.slide_number]. rewrite (Hnone f Hf). reflexivity. }
  split_and!; [|done..].
  intros (f & Hf & H). apply Hkept. exists f. split; [done|].
  apply H.
  - apply Hp.
  - do 3 apply list_elem_of_further. apply list_elem_of_here.
  - exact (Hnone f Hf).
Qed.

(** C10, amended. For a sheet whose toc has an entry with a parseable slide
    number, a toc entry whose slide number fails to parse and whose section
    does not classify as "Additional Supports" is a unit of the block of its
    title with the url of slide 0, and the stable sort of that block puts in
    front of it only entries whose slide number is 0 or less (unparseable
    ones included): every entry with a positive slide number comes behind
    it. *)
Theorem unparseable_entry_kept float_int sheet xc e :
  has_parseable float_int (Xml.toc sheet) →
  e ∈ Xml.toc sheet →
  Xml.to_int float_int (Xml.slide_number e) = None →
  entry_title e ≠ "Additional Supports"%string →
  ∃ doc b l1 l2,
    (Xml.build_xml_for_sheet float_int sheet xc).1 = Some doc ∧
    b ∈ Xml.blocks doc ∧
    Xml.block_title b = entry_title e ∧
    sorted_by (Xml.key0 float_int) (entries_of (entry_title e) (Xml.toc sheet))
      = l1 ++ e :: l2 ∧
    Xml.au_url <$> Xml.aus b = unit_url float_int <$> (l1 ++ e :: l2) ∧
    unit_url float_int e = "contents/lesson/0.html"%string ∧
    Forall (λ x, Xml.key0 float_int x ≤ 0) l1.
Proof.
  intros Hp Hin Hnone HT.
  destruct (build_blocks float_int sheet xc Hp)
    as (doc & pre & xc' & ln & idx & m & Hdoc & Hbl & Hview & _).
  assert (Hk : Xml.key0 float_int e = 0).
  { unfold Xml.key0, Xml.to_int0. by rewrite Hnone. }
  pose proof (group_toc_of_entry _ _ Hin) as Hg.
  assert (Hv : group_view float_int
                 (entry_title e, entries_of (entry_title e) (Xml.toc sheet))
               ∈ block_view <$> pre).
  { rewrite Hview. apply list_elem_of_fmap_2.
    apply list_elem_of_filter. by split. }
  apply list_elem_of_fmap in Hv as (b & Hv & Hb).
  unfold block_view, group_view in Hv. simpl in Hv. injection Hv as Ht Hu.
  destruct (sorted_by_before (Xml.key0 float_int)
              (entries_of (entry_title e) (Xml.toc sheet)) e)
    as (l1 & l2 & Hs & Hall).
  { unfold entries_of. by apply list_elem_of_filter. }
  exists doc, b, l1, l2. split_and!; try done.
  - rewrite Hbl. apply elem_of_app. by left.
  - by rewrite <- Hs.
  - unfold unit_url. by rewrite Hk.
  - by rewrite Hk in Hall.
Qed.

Lemma unparseable_entry_kept_witness :
  has_parseable float_raises (Xml.toc unnumbered_sheet) ∧
  lost_warmup ∈ Xml.toc unnumbered_sheet ∧
  Xml.to_int float_raises (Xml.slide_number lost_warmup) = None ∧
  entry_title lost_warmup ≠ "Additional Supports"%string ∧
  ∃ doc b,
    (Xml.build_xml_for_sheet float_raises unnumbered_sheet None).1
      = Some doc ∧
    b ∈ Xml.blocks doc ∧
    Xml.block_title b = "Warm-up Review and Repetition"%string ∧
    Xml.au_url <$> Xml.aus b =
      [ "contents/lesson/-1.html"; "contents/lesson/0.html";
        "contents/lesson/2.html" ]%string.
Proof.
  assert (H1 : has_parseable float_raises (Xml.toc unnumbered_sheet)).
  { exists (entry (Xml.PyInt 2) "Warm-up" "Sounds").
    split; [apply list_elem_of_further, list_elem_of_here | by exists 2]. }
  assert (H2 : lost_warmup ∈ Xml.toc unnumbered_sheet).
  { do 2 apply list_elem_of_further. apply list_elem_of_here. }
  assert (H3 : Xml.to_int float_raises (Xml.slide_number lost_warmup) = None)
    by reflexivity.
  assert (H4 : entry_title lost_warmup ≠ "Additional Supports"%string)
    by (vm_compute; discriminate).
  split_and!; [done..|].
  destruct (unparseable_entry_kept float_raises unnumbered_sheet None
              lost_warmup H1 H2 H3 H4)
    as (doc & b & l1 & l2 & Hdoc & Hb & Ht & Hs & Hu & _).
  exists doc, b. split_and!; [done..| |].
  - by rewrite Ht.
  - rewrite Hu, <- Hs. reflexivity.
Defined.

(** ** Integers and their decimal text *)

Section decimal_text.
Import PyStr.

Lemma strip_by_id p s :
  string_forall (λ c, negb (p c)) s = true → strip_by p s = s.
Proof.
  intros H. unfold strip_by.
  assert (Hl : lstrip_by p s = s).
  { destruct s as [|c r]; [done|]. simpl in *.
    apply andb_prop in H as [Hc _]. by destruct (p c). }
  rewrite Hl. induction s as [|c r IH]; [done|]. simpl in *.
  apply andb_prop in H as [Hc Hr]. destruct (p c); [done|]. simpl.
  rewrite IH; [done|done|]. destruct r as [|c' r']; [done|].
  simpl in *. apply andb_prop in Hr as [Hc' _]. by destruct (p c').
Qed.

Lemma string_forall_impl (p q : ascii → bool) s :
  (∀ c, p c = true → q c = true) →
  string_forall p s = true → string_forall q s = true.
Proof.
  intros Hpq. induction s as [|c r IH]; [done|]. simpl.
  intros [Hc Hr]%andb_prop. by rewrite (Hpq _ Hc), IH.
Qed.

Lemma is_digit_not_space c : is_digit c = true → negb (is_space c) = true.
Proof.
  destruct c as [[] [] [] [] [] [] [] []]; try discriminate; reflexivity.
Qed.

Lemma digits_of_uint d :
  string_forall is_digit (NilEmpty.string_of_uint d) = true.
Proof. induction d; simpl; done. Qed.

Lemma parse_string_of_uint d acc seen :
  seen = true ∨ d ≠ Decimal.Nil →
  parse_digits acc seen (NilEmpty.string_of_uint d) = Some (uint_val acc d).
Proof.
  revert acc seen. induction d; intros acc seen Hs;
    try (cbn [NilEmpty.string_of_uint uint_val parse_digits];
         change (is_digit _) with true; cbn iota;
         rewrite IHd by (by left); reflexivity).
  destruct Hs as [->|]; done.
Qed.

Lemma uint_val_pos d a : uint_val (Z.pos a) d = Z.pos (Pos.of_uint_acc d a).
Proof.
  revert a. induction d; intros a; simpl; [done|..];
    match goal with
    | |- uint_val ?x _ = Z.pos (Pos.of_uint_acc _ ?y) =>
        replace x with (Z.pos y) by lia; apply IHd
    end.
Qed.

Lemma uint_val_0 d : uint_val 0 d = Z.of_N (Pos.of_uint d).
Proof. induction d; simpl; [done|done|..]; apply uint_val_pos. Qed.

Lemma py_int_digit_head s c r :
  strip s = String c r → is_digit c = true →
  py_int s = parse_digits 0 false (String c r).
Proof.
  intros Hs Hc. unfold py_int. rewrite Hs.
  destruct c as [[] [] [] [] [] [] [] []]; try discriminate; reflexivity.
Qed.

Lemma py_int_of_uint p :
  py_int (NilEmpty.string_of_uint (Pos.to_uint p)) = Some (Z.pos p).
Proof.
  pose proof (digits_of_uint (Pos.to_uint p)) as Hd.
  pose proof (DecimalPos.Unsigned.to_uint_nonnil p) as Hnil.
  assert (Hstrip : strip (NilEmpty.string_of_uint (Pos.to_uint p)) =
                   NilEmpty.string_of_uint (Pos.to_uint p)).
  { apply strip_by_id. eapply string_forall_impl; [|exact Hd].
    apply is_digit_not_space. }
  destruct (NilEmpty.string_of_uint (Pos.to_uint p)) as [|c r] eqn:E.
  { destruct (Pos.to_uint p); try done; discriminate. }
  rewrite (py_int_digit_head _ c r Hstrip).
  - rewrite <- E, parse_string_of_uint by (by right).
    by rewrite uint_val_0, DecimalPos.Unsigned.of_to.
  - simpl in Hd. by apply andb_prop in Hd as [? _].
Qed.

(** Reading the decimal text of an integer gives the integer back:
    [int(str(z)) == z]. *)
Lemma py_int_show_Z z : py_int (show_Z z) = Some z.
Proof.
  destruct z as [|p|p]; [reflexivity| |].
  - unfold show_Z. simpl.
    pose proof (DecimalPos.Unsigned.to_uint_nonnil p) as Hnil.
    assert (Hs : NilZero.string_of_uint (Pos.to_uint p) =
                 NilEmpty.string_of_uint (Pos.to_uint p))
      by (by destruct (Pos.to_uint p)).
    rewrite Hs. apply py_int_of_uint.
  - unfold show_Z. simpl.
    pose proof (DecimalPos.Unsigned.to_uint_nonnil p) as Hnil.
    assert (Hs : NilZero.string_of_uint (Pos.to_uint p) =
                 NilEmpty.string_of_uint (Pos.to_uint p))
      by (by destruct (Pos.to_uint p)).
    rewrite Hs.
    pose proof (py_int_of_uint p) as Hp.
    pose proof (digits_of_uint (Pos.to_uint p)) as Hd.
    assert (Hstrip : strip (String "-" (NilEmpty.string_of_uint (Pos.to_uint p)))
                     = String "-" (NilEmpty.string_of_uint (Pos.to_uint p))).
    { apply strip_by_id. simpl. eapply string_forall_impl; [|exact Hd].
      apply is_digit_not_space. }
    unfold py_int. rewrite Hstrip.
    unfold py_int in Hp.
    assert (Hstrip' : strip (NilEmpty.string_of_uint (Pos.to_uint p)) =
                      NilEmpty.string_of_uint (Pos.to_uint p)).
    { apply strip_by_id. eapply string_forall_impl; [|exact Hd].
      apply is_digit_not_space. }
    rewrite Hstrip' in Hp.
    destruct (NilEmpty.string_of_uint (Pos.to_uint p)) as [|c r] eqn:E.
    { destruct (Pos.to_uint p); try done; discriminate. }
    assert (Hc : is_digit c = true).
    { simpl in Hd. by apply andb_prop in Hd as [? _]. }
    assert (Hp' : parse_digits 0 false (String c r) = Some (Z.pos p)).
    { rewrite <- Hp. clear -Hc.
      destruct c as [[] [] [] [] [] [] [] []]; try discriminate; reflexivity. }
    rewrite Hp'. reflexivity.
Qed.

Lemma show_Z_inj a b : show_Z a = show_Z b → a = b.
Proof.
  intros H. pose proof (py_int_show_Z a) as Ha. rewrite H in Ha.
  rewrite py_int_show_Z in Ha. congruence.
Qed.

End decimal_text.

(** ** Order of the slides *)

Section sortedness.
Context {A : Type} (key : A → Z).

Lemma insert_by_sorted x (l : list A) :
  StronglySorted (λ a c, key a ≤ key c) l →
  StronglySorted (λ a c, key a ≤ key c) (insert_by key x l).
Proof.
  induction 1 as [|y l Hs IH Hall]; simpl.
  - repeat constructor.
  - destruct (key x <=? key y) eqn:Hle.
    + constructor; [by constructor|]. constructor; [lia|].
      eapply Forall_impl; [exact Hall|]. simpl. lia.
    + constructor; [done|].
      rewrite insert_by_Permutation. constructor; [lia|done].
Qed.

Lemma sorted_by_sorted (l : list A) :
  StronglySorted (λ a c, key a ≤ key c) (sorted_by key l).
Proof.
  induction l as [|x l IH]; simpl; [constructor|]. by apply insert_by_sorted.
Qed.

Lemma sorted_keys (l : list A) :
  StronglySorted (λ a c, key a ≤ key c) l → StronglySorted Z.le (key <$> l).
Proof.
  induction 1 as [|x l Hs IH Hall]; [constructor|].
  rewrite fmap_cons. constructor; [done|]. by apply Forall_fmap.
Qed.

End sortedness.

Lemma sorted_NoDup_strict (l : list Z) :
  StronglySorted Z.le l → NoDup l → StronglySorted Z.lt l.
Proof.
  induction 1 as [|x l Hs IH Hall]; intros Hnd; [constructor|].
  apply NoDup_cons in Hnd as [Hx Hnd]. constructor; [by apply IH|].
  rewrite Forall_forall in Hall. apply Forall_forall. intros y Hy.
  specialize (Hall y Hy). assert (x ≠ y) by (by intros ->). lia.
Qed.

Lemma values_keys_agree {V} (f : V → Z) (d : list (Z * V)) :
  (∀ k v, (k, v) ∈ d → f v = k) → f <$> ODict.values d = ODict.keys d.
Proof.
  unfold ODict.values, ODict.keys.
  induction d as [|[k v] d IH]; intros H; [done|].
  rewrite !fmap_cons. simpl. f_equal.
  - apply H, list_elem_of_here.
  - apply IH. intros k' v' Hin. by apply H, list_elem_of_further.
Qed.

Lemma aggregate_numbers b ln rows :
  Excel.slide_number <$> ODict.values
    (Excel.slides_by_num (Excel.aggregate b ln rows)) =
  ODict.keys (Excel.slides_by_num (Excel.aggregate b ln rows)).
Proof.
  destruct (aggregate_inv b ln rows) as (Hnd & Hok & _).
  apply values_keys_agree. intros k s Hin.
  by destruct (Hok _ _ (elem_of_get _ _ _ Hnd Hin)) as (? & _).
Qed.

(** The slides of a sheet object come in strictly ascending slide number
    (so no number occurs twice), and the toc lists the same numbers in the
    same order. *)
Theorem slides_strictly_ascending name b lv un ln rows codes :
  let so := Excel.sheet_object name b lv un ln rows codes in
  StronglySorted Z.lt
    ((λ s, Excel.slide_number (Excel.slide s)) <$> Excel.slides so) ∧
  Excel.toc_slide_number <$> Excel.toc so =
    (λ s, Excel.slide_number (Excel.slide s)) <$> Excel.slides so.
Proof.
  cbn zeta. unfold Excel.sheet_object. cbn [Excel.slides Excel.toc].
  rewrite close_slides_spec. cbn [fst]. split.
  - rewrite <- list_fmap_compose.
    change ((λ s, Excel.slide_number (Excel.slide s)) ∘ with_total)
      with Excel.slide_number.
    apply sorted_NoDup_strict.
    + apply sorted_keys, sorted_by_sorted.
    + rewrite sorted_by_Permutation, aggregate_numbers.
      by destruct (aggregate_inv b ln rows) as (Hnd & _).
  - by rewrite <- !list_fmap_compose.
Qed.

(** ** Slides and content rows *)

Section content_facts.
Import Excel.
Context (b : string) (ln : Z).

(** A slide record is created by a row with content and gets that row's
    audio item at once: no recorded slide is without audio. *)
Lemma step_no_empty_slide st row :
  (∀ n s, ODict.get n (slides_by_num st) = Some s → audio s ≠ []) →
  ∀ n s, ODict.get n (slides_by_num (step b ln st row)) = Some s →
         audio s ≠ [].
Proof.
  intros Hst n s.
  destruct (resolve_slide st row) as [[m st1]|] eqn:Hres;
    [|rewrite (step_skips b ln _ _ Hres); apply Hst].
  destruct (resolve_slide_frame _ _ _ _ Hres) as (_ & _ & _ & Hsl & _).
  destruct (decorative row) eqn:Hdec.
  - destruct (step_decorative b ln _ _ _ _ Hres Hdec) as [-> _].
    rewrite Hsl. apply Hst.
  - destruct (step_content b ln _ _ _ _ Hres Hdec) as (Hn & Hother & _).
    destruct (decide (n = m)) as [->|Hne].
    + rewrite Hn. intros [= <-]. simpl. by intros ?%app_nil_r_inv.
    + rewrite Hother, Hsl by done. apply Hst.
Qed.

Lemma aggregate_no_empty_slide rows n s :
  ODict.get n (slides_by_num (aggregate b ln rows)) = Some s → audio s ≠ [].
Proof.
  unfold aggregate. revert n s.
  assert (H : ∀ st,
    (∀ n s, ODict.get n (slides_by_num st) = Some s → audio s ≠ []) →
    ∀ n s, ODict.get n (slides_by_num (foldl (step b ln) st rows)) = Some s →
           audio s ≠ []).
  { induction rows as [|r rows IH]; intros st Hst; [done|].
    simpl. apply IH. by apply step_no_empty_slide. }
  apply H. intros n s. done.
Qed.

End content_facts.

(** Every slide of a sheet object has at least one audio item. *)
Theorem every_slide_has_audio name b lv un ln rows codes s :
  s ∈ Excel.slides (Excel.sheet_object name b lv un ln rows codes) →
  (1 ≤ Excel.audio_total s)%nat.
Proof.
  intros (s0 & -> & Hg & _)%sheet_slide_recorded.
  apply aggregate_no_empty_slide in Hg. simpl.
  destruct (Excel.audio s0); [done|simpl; lia].
Qed.

Lemma every_slide_has_audio_witness :
  lesson_slide_1 ∈ Excel.slides lesson_sheet ∧
  (1 ≤ Excel.audio_total lesson_slide_1)%nat.
Proof.
  assert (H : lesson_slide_1 ∈ Excel.slides lesson_sheet).
  { vm_compute. apply list_elem_of_here. }
  split; [exact H|].
  exact (every_slide_has_audio _ _ _ _ _ _ _ _ H).
Defined.

Lemma sum_list_cons_eq (x : nat) (l : list nat) :
  sum_list (x :: l) = (x + sum_list l)%nat.
Proof. reflexivity. Qed.

Lemma sum_list_Permutation (l1 l2 : list nat) :
  l1 ≡ₚ l2 → sum_list l1 = sum_list l2.
Proof. induction 1; simpl; lia. Qed.

(** Writing a key of a dictionary moves the total weight by the weight of
    the new value less the weight of the value it replaces. *)
Lemma sum_set {K V} `{EqDecision K} (w : K * V → nat) (d : list (K * V)) k v :
  (sum_list (w <$> ODict.set k v d)
   + from_option (λ old, w (k, old)) 0 (ODict.get k d) =
   sum_list (w <$> d) + w (k, v))%nat.
Proof.
  induction d as [|[k' v'] d IH].
  - cbn. lia.
  - cbn [ODict.set ODict.get].
    destruct (decide (k = k')) as [->|Hne];
      rewrite !fmap_cons, !sum_list_cons_eq; cbn [from_option]; lia.
Qed.

Section counting_facts.
Import Excel.
Context (b : string) (ln : Z).

Lemma audio_count_set (d : list (Z * Slide)) n s :
  (audio_count (ODict.set n s d)
   + from_option (λ old, length (audio old)) 0 (ODict.get n d) =
   audio_count d + length (audio s))%nat.
Proof.
  unfold audio_count, ODict.values. rewrite <- !list_fmap_compose.
  apply (sum_set (λ kv, length (audio kv.2))).
Qed.

Lemma step_audio_count st row n st1 :
  resolve_slide st row = Some (n, st1) →
  decorative row = false →
  audio_count (slides_by_num (step b ln st row)) =
  S (audio_count (slides_by_num st)).
Proof.
  intros Hres Hdec.
  destruct (resolve_slide_frame _ _ _ _ Hres) as (_ & _ & _ & Hsl & _).
  unfold step. rewrite Hres, Hdec. cbn [slides_by_num]. rewrite Hsl.
  unfold append_audio.
  destruct (ODict.get n (slides_by_num st)) as [s|] eqn:Hg.
  - rewrite Hg.
    pose proof (audio_count_set (slides_by_num st) n
                  (push_audio (mk_audio b n
                     (S (default 0%nat (audio_counts st1 !! n))) row) s)) as H.
    rewrite Hg in H. simpl in H. rewrite length_app in H. simpl in H. lia.
  - rewrite get_set_eq.
    set (new := new_slide ln n _ _).
    pose proof (audio_count_set (slides_by_num st) n new) as H1.
    rewrite Hg in H1. simpl in H1.
    pose proof (audio_count_set (ODict.set n new (slides_by_num st)) n
                  (push_audio (mk_audio b n
                     (S (default 0%nat (audio_counts st1 !! n))) row) new))
      as H2.
    rewrite get_set_eq in H2. simpl in H2. lia.
Qed.

Lemma foldl_audio_count rows st seen :
  seen = (if last_slide st is Some _ then true else false) →
  audio_count (slides_by_num (foldl (step b ln) st rows)) =
  (audio_count (slides_by_num st)
   + length (filter (λ r, decorative r = false) (kept_rows seen rows)))%nat.
Proof.
  revert st seen. induction rows as [|r rows IH]; intros st seen Hseen.
  - simpl. lia.
  - cbn [foldl kept_rows].
    destruct (resolve_slide st r) as [[n st1]|] eqn:Hres.
    + pose proof (step_carries b ln _ _ _ _ Hres) as (Hl & _).
      rewrite (IH _ true) by (by rewrite Hl).
      pose proof Hres as Hres'.
      rewrite resolve_slide_cases in Hres. unfold slide_cell_value in Hres.
      assert (Hk : (if blank (r_slide r)
                    then if seen then r :: kept_rows seen rows
                         else kept_rows seen rows
                    else match cell_int (r_slide r) with
                         | Some _ => r :: kept_rows true rows
                         | None => kept_rows seen rows
                         end) = r :: kept_rows true rows).
      { destruct (blank (r_slide r)).
        - destruct (last_slide st); [by subst seen|done].
        - by destruct (cell_int (r_slide r)). }
      rewrite Hk, filter_cons.
      destruct (decorative r) eqn:Hdec.
      * destruct (step_decorative b ln _ _ _ _ Hres' Hdec) as [-> _].
        destruct (resolve_slide_frame _ _ _ _ Hres') as (_ & _ & _ & -> & _).
        rewrite decide_False by done. done.
      * rewrite (step_audio_count _ _ _ _ Hres' Hdec).
        rewrite decide_True by done. simpl. lia.
    + rewrite (step_skips b ln _ _ Hres).
      rewrite resolve_slide_cases in Hres. unfold slide_cell_value in Hres.
      assert (Hk : (if blank (r_slide r)
                    then if seen then r :: kept_rows seen rows
                         else kept_rows seen rows
                    else match cell_int (r_slide r) with
                         | Some _ => r :: kept_rows true rows
                         | None => kept_rows seen rows
                         end) = kept_rows seen rows).
      { destruct (blank (r_slide r)).
        - destruct (last_slide st); [done|by subst seen].
        - by destruct (cell_int (r_slide r)). }
      rewrite Hk. by apply IH.
Qed.

(** A recorded slide keeps its number, lesson label, section and title
    through a further row, and its audio sequence only grows at the end. *)
Lemma step_keeps_slide st row n s :
  ODict.get n (slides_by_num st) = Some s →
  ∃ extra, ODict.get n (slides_by_num (step b ln st row)) =
             Some (extend_audio s extra).
Proof.
  intros Hg.
  assert (Hid : extend_audio s [] = s).
  { destruct s. unfold extend_audio. simpl. by rewrite app_nil_r. }
  destruct (resolve_slide st row) as [[m st1]|] eqn:Hres;
    [|rewrite (step_skips b ln _ _ Hres); exists []; by rewrite Hid].
  destruct (resolve_slide_frame _ _ _ _ Hres) as (_ & _ & _ & Hsl & _).
  destruct (decorative row) eqn:Hdec.
  - destruct (step_decorative b ln _ _ _ _ Hres Hdec) as [-> _].
    rewrite Hsl. exists []. by rewrite Hid.
  - destruct (step_content b ln _ _ _ _ Hres Hdec) as (Hn & Hother & _).
    destruct (decide (n = m)) as [->|Hne].
    + rewrite Hn, Hsl, Hg. simpl. by eexists.
    + rewrite Hother, Hsl, Hg by done. exists []. by rewrite Hid.
Qed.

Lemma foldl_keeps_slide rows st n s :
  ODict.get n (slides_by_num st) = Some s →
  ∃ extra, ODict.get n (slides_by_num (foldl (step b ln) st rows)) =
             Some (extend_audio s extra).
Proof.
  revert st s. induction rows as [|r rows IH]; intros st s Hg.
  - exists []. cbn [foldl]. rewrite Hg. f_equal. destruct s.
    unfold extend_audio. simpl. by rewrite app_nil_r.
  - cbn [foldl]. destruct (step_keeps_slide st r n s Hg) as [e1 H1].
    destruct (IH _ _ H1) as [e2 H2]. exists (e1 ++ e2). rewrite H2.
    f_equal. unfold extend_audio. simpl. by rewrite app_assoc.
Qed.

Lemma resolves_row_slide pre row n :
  row_slide pre row = Some n →
  ∃ st1, resolve_slide (aggregate b ln pre) row = Some (n, st1).
Proof.
  unfold row_slide. rewrite resolve_slide_cases. unfold slide_cell_value.
  destruct (blank (r_slide row)).
  - rewrite aggregate_last_slide. intros ->. by eexists.
  - intros ->. by eexists.
Qed.

End counting_facts.

(** The audio total of a sheet is the number of its rows that resolve to a
    slide and are not decorative: each such row gives exactly one audio
    item, and no other row gives any. *)
Theorem audio_items_count_content_rows name b lv un ln rows codes :
  Excel.total_audio_items
    (Excel.totals (Excel.sheet_object name b lv un ln rows codes)) =
  length (content_rows rows).
Proof.
  unfold Excel.sheet_object. cbn [Excel.totals Excel.total_audio_items].
  rewrite close_slides_spec. cbn [snd].
  rewrite <- list_fmap_compose.
  rewrite (sum_list_Permutation _
             ((λ s, length (Excel.audio s)) <$>
                ODict.values (Excel.slides_by_num (Excel.aggregate b ln rows)))).
  - unfold Excel.aggregate.
    pose proof (foldl_audio_count b ln rows Excel.init false eq_refl) as H.
    unfold audio_count in H at 1. rewrite H. reflexivity.
  - apply fmap_Permutation, sorted_by_Permutation.
Qed.

(** Once a slide is recorded, the rows that follow leave its number, lesson
    label, section and title as they are and only append to its audio
    sequence: the first row with content decides them. *)
Theorem recorded_slide_only_grows b ln pre post n s :
  ODict.get n (Excel.slides_by_num (Excel.aggregate b ln pre)) = Some s →
  ∃ extra,
    ODict.get n (Excel.slides_by_num (Excel.aggregate b ln (pre ++ post))) =
      Some (extend_audio s extra).
Proof.
  intros Hg. unfold Excel.aggregate. rewrite foldl_app.
  by apply foldl_keeps_slide.
Qed.

Lemma recorded_slide_only_grows_witness :
  ∃ s extra,
    ODict.get 1 (Excel.slides_by_num
                   (Excel.aggregate "level_3_unit_7_lesson_4" 4
                      (take 1 lesson_rows))) = Some s ∧
    ODict.get 1 (Excel.slides_by_num
                   (Excel.aggregate "level_3_unit_7_lesson_4" 4
                      (take 1 lesson_rows ++ drop 1 lesson_rows))) =
      Some (extend_audio s extra).
Proof.
  eexists. 
  assert (H : ODict.get 1 (Excel.slides_by_num
                (Excel.aggregate "level_3_unit_7_lesson_4" 4
                   (take 1 lesson_rows))) = Some (Excel.slide
                     (with_total
                        {| Excel.slide_number := 1;
                           Excel.lesson := "Lesson 4";
                           Excel.section := Some "Intro"%string;
                           Excel.title := Some "Slide 1: Welcome"%string;
                           Excel.audio :=
                             [ Excel.mk_audio "level_3_unit_7_lesson_4" 1 1
                                 (row_of (Some "1") (Some "Intro")
                                    (Some "Slide 1: Welcome")
                                    (Some "Hello"))%string ] |})))
    by (vm_compute; reflexivity).
  destruct (recorded_slide_only_grows "level_3_unit_7_lesson_4" 4
              (take 1 lesson_rows) (drop 1 lesson_rows) 1 _ H) as [extra He].
  exists extra. split; [exact H | exact He].
Defined.

(** The first row with content for a slide number makes the slide's record:
    it carries the row's own section and title, or the carried ones where
    the cell is blank, and the row's audio item is the slide's first, for
    all the rows that may follow. *)
Theorem first_content_row_makes_slide b ln pre row post n :
  row_slide pre row = Some n →
  Excel.decorative row = false →
  ODict.get n (Excel.slides_by_num (Excel.aggregate b ln pre)) = None →
  ∃ extra,
    ODict.get n
      (Excel.slides_by_num (Excel.aggregate b ln (pre ++ row :: post))) =
    Some {| Excel.slide_number := n;
            Excel.lesson := "Lesson " +:+ PyStr.show_Z ln;
            Excel.section :=
              py_or (Excel.clean (Excel.r_section row)) (carried_section pre);
            Excel.title :=
              py_or (Excel.clean (Excel.r_title row)) (carried_title pre);
            Excel.audio := Excel.mk_audio b n 1 row :: extra |}.
Proof.
  intros Hn Hdec Hnone.
  destruct (resolves_row_slide b ln _ _ _ Hn) as [st1 Hres].
  pose proof (aggregate_inv b ln pre) as Hinv.
  destruct (step_appends b ln _ _ _ _ Hinv Hres Hdec)
    as (_ & _ & _ & _ & Hnew).
  specialize (Hnew Hnone).
  destruct (step_carries b ln _ _ _ _ Hres) as (_ & Hsec & Httl).
  rewrite Hsec, Httl, aggregate_last_section, aggregate_last_title in Hnew.
  unfold audio_of in Hnew. rewrite Hnone in Hnew. simpl in Hnew.
  unfold Excel.aggregate. rewrite foldl_app. cbn [foldl].
  destruct (foldl_keeps_slide b ln post _ n _ Hnew) as [extra He].
  exists extra. exact He.
Qed.

Lemma first_content_row_makes_slide_witness :
  row_slide [heading_row] first_slide_row = Some 1 ∧
  Excel.decorative first_slide_row = false ∧
  ∃ extra,
    ODict.get 1
      (Excel.slides_by_num
         (Excel.aggregate "level_3_unit_7_lesson_4" 4
            ([heading_row] ++ first_slide_row :: [continuation_row]))) =
    Some {| Excel.slide_number := 1;
            Excel.lesson := "Lesson 4";
            Excel.section := None;
            Excel.title := None;
            Excel.audio :=
              Excel.mk_audio "level_3_unit_7_lesson_4" 1 1 first_slide_row
                :: extra |}.
Proof.
  split; [reflexivity|]. split; [reflexivity|].
  exact (first_content_row_makes_slide "level_3_unit_7_lesson_4" 4
           [heading_row] first_slide_row [continuation_row] 1
           eq_refl eq_refl eq_refl).
Defined.

(** ** Trimming, case and words *)

Section text_facts.
Import PyStr.

Lemma lstrip_by_head p s :
  match lstrip_by p s with
  | String c _ => p c = false
  | EmptyString => True
  end.
Proof.
  induction s as [|c r IH]; simpl; [done|].
  destruct (p c) eqn:Hc; [done|]. by simpl.
Qed.

Lemma rstrip_by_idem p s : rstrip_by p (rstrip_by p s) = rstrip_by p s.
Proof.
  induction s as [|c r IH]; simpl; [done|].
  destruct (p c && is_empty (rstrip_by p r)) eqn:E; [done|].
  simpl. by rewrite IH, E.
Qed.

Lemma strip_by_idem p s : strip_by p (strip_by p s) = strip_by p s.
Proof.
  unfold strip_by.
  assert (H : lstrip_by p (rstrip_by p (lstrip_by p s)) =
              rstrip_by p (lstrip_by p s)).
  { pose proof (lstrip_by_head p s) as Hh.
    destruct (lstrip_by p s) as [|c r]; [done|]. simpl.
    rewrite Hh. simpl. by rewrite Hh. }
  by rewrite H, rstrip_by_idem.
Qed.

Lemma is_space_lower_char c : is_space (lower_char c) = is_space c.
Proof. destruct c as [[] [] [] [] [] [] [] []]; reflexivity. Qed.

Lemma lower_char_idem c : lower_char (lower_char c) = lower_char c.
Proof. destruct c as [[] [] [] [] [] [] [] []]; reflexivity. Qed.

Lemma lower_idem s : lower (lower s) = lower s.
Proof.
  induction s as [|c r IH]; simpl; [done|]. by rewrite lower_char_idem, IH.
Qed.

Lemma is_empty_lower s : is_empty (lower s) = is_empty s.
Proof. by destruct s. Qed.

Lemma lstrip_lower s :
  lstrip_by is_space (lower s) = lower (lstrip_by is_space s).
Proof.
  induction s as [|c r IH]; simpl; [done|].
  rewrite is_space_lower_char. by destruct (is_space c).
Qed.

Lemma rstrip_lower s :
  rstrip_by is_space (lower s) = lower (rstrip_by is_space s).
Proof.
  induction s as [|c r IH]; simpl; [done|].
  rewrite is_space_lower_char, IH, is_empty_lower.
  by destruct (is_space c && is_empty (rstrip_by is_space r)).
Qed.

(** Trimming and lower-casing commute. *)
Lemma strip_lower s : strip (lower s) = lower (strip s).
Proof. unfold strip, strip_by. by rewrite lstrip_lower, rstrip_lower. Qed.

Lemma split_lstrip s : split (lstrip_by is_space s) = split s.
Proof.
  induction s as [|c r IH]; [done|]. cbn [lstrip_by].
  destruct (is_space c) eqn:Hc; [|done]. rewrite IH. simpl. by rewrite Hc.
Qed.

Lemma split_rstrip s : split (rstrip_by is_space s) = split s.
Proof.
  induction s as [|c r IH]; [done|]. cbn [rstrip_by].
  destruct (is_space c) eqn:Hc; cbn [andb].
  - destruct (is_empty (rstrip_by is_space r)) eqn:He.
    + destruct (rstrip_by is_space r); [|done].
      cbn [split]. rewrite Hc. by rewrite <- IH.
    + cbn [split]. by rewrite Hc, IH.
  - cbn [split]. rewrite Hc.
    destruct r as [|c' r']; [done|]. cbn [rstrip_by] in *.
    destruct (is_space c' && is_empty (rstrip_by is_space r')) eqn:E.
    + apply andb_prop in E as [Hc' _]. rewrite Hc'.
      by rewrite <- IH.
    + rewrite IH. done.
Qed.

Lemma split_strip s : split (strip s) = split s.
Proof. unfold strip, strip_by. by rewrite split_rstrip, split_lstrip. Qed.

Lemma split_words s : Forall (λ w, is_word w = true) (split s).
Proof.
  induction s as [|c r IH]; [constructor|]. cbn [split].
  destruct (is_space c) eqn:Hc; [done|].
  assert (Hw : is_word (String c EmptyString) = true).
  { unfold is_word. simpl. by rewrite Hc. }
  destruct r as [|c' r']; [by constructor|].
  destruct (is_space c'); [by constructor|].
  destruct (split (String c' r')) as [|w ws]; [by constructor|].
  apply Forall_cons in IH as [Hw1 Hws]. constructor; [|done].
  unfold is_word in *. simpl. rewrite Hc. simpl.
  by apply andb_prop in Hw1 as [_ ->].
Qed.

Lemma split_word_blank w s :
  is_word w = true → split (w +:+ String " " s) = w :: split s.
Proof.
  induction w as [|c w IH]; [done|]. intros Hw.
  unfold is_word in Hw. simpl in Hw.
  apply andb_prop in Hw as [Hc Hrest].
  apply negb_true_iff in Hc.
  change (String c w +:+ String " " s) with (String c (w +:+ String " " s)).
  cbn [split]. rewrite Hc.
  destruct w as [|c2 w2].
  - reflexivity.
  - change (String c2 w2 +:+ String " " s)
      with (String c2 (w2 +:+ String " " s)) in *.
    simpl in Hrest. pose proof Hrest as Hrest'.
    apply andb_prop in Hrest as [Hc2 _]. apply negb_true_iff in Hc2.
    rewrite Hc2. rewrite IH; [done|].
    unfold is_word. simpl. exact Hrest'.
Qed.

Lemma split_word w : is_word w = true → split w = [w].
Proof.
  induction w as [|c w IH]; [done|]. intros Hw.
  unfold is_word in Hw. simpl in Hw.
  apply andb_prop in Hw as [Hc Hrest]. apply negb_true_iff in Hc.
  cbn [split]. rewrite Hc. destruct w as [|c2 w2]; [done|].
  simpl in Hrest. pose proof Hrest as Hrest'.
  apply andb_prop in Hrest as [Hc2 _]. apply negb_true_iff in Hc2.
  rewrite Hc2, IH; [done|]. unfold is_word. simpl. exact Hrest'.
Qed.

Lemma split_join ws :
  Forall (λ w, is_word w = true) ws → split (join " " ws) = ws.
Proof.
  induction 1 as [|w ws Hw Hws IH]; [done|].
  destruct ws as [|w2 ws]; [by apply split_word|].
  change (join " " (w :: w2 :: ws))
    with (w +:+ String " " (join " " (w2 :: ws))).
  by rewrite split_word_blank, IH.
Qed.

End text_facts.

(** [clean] keeps the words of a text and nothing else: texts with the same
    words clean to the same text, and cleaning a cleaned text changes
    nothing. *)
Theorem clean_normalises :
  (∀ v v', PyStr.split v = PyStr.split v' →
           Excel.clean (Some v) = Excel.clean (Some v')) ∧
  (∀ c, Excel.clean (Excel.clean c) = Excel.clean c).
Proof.
  split.
  - intros v v' H. unfold Excel.clean. simpl. by rewrite !split_strip, H.
  - intros [v|]; [|done]. unfold Excel.clean. simpl. f_equal.
    by rewrite split_strip, split_join by apply split_words.
Qed.

Lemma filetype_table_values key val :
  ODict.get key Excel.FILETYPE_NORMALIZE = Some val →
  val ∈ ["Audio Bar"; "Embedded MP4"; "Embedded MP3"]%string.
Proof.
  unfold Excel.FILETYPE_NORMALIZE. cbn [ODict.get].
  repeat (destruct (decide _) as [_|_];
          [intros [= <-]; set_solver|]).
  discriminate.
Qed.

(** [norm_filetype] never gives the empty text, and normalising a second
    time changes nothing. *)
Theorem norm_filetype_stable raw :
  Excel.norm_filetype raw ≠ ""%string ∧
  Excel.norm_filetype (Some (Excel.norm_filetype raw)) =
    Excel.norm_filetype raw.
Proof.
  assert (Hfix : ∀ val,
            val ∈ ["Audio Bar"; "Embedded MP4"; "Embedded MP3"]%string →
            val ≠ ""%string ∧ Excel.norm_filetype (Some val) = val).
  { intros val Hin.
    repeat (apply elem_of_cons in Hin as [->|Hin]; [by split|]).
    by apply elem_of_nil in Hin. }
  assert (Hstrip : ∀ t, PyStr.strip (PyStr.strip t) = PyStr.strip t).
  { intros t. unfold PyStr.strip. apply strip_by_idem. }
  destruct raw as [v|].
  2: { apply (Hfix "Audio Bar"%string). apply list_elem_of_here. }
  assert (Hcases :
    Excel.norm_filetype (Some v)
      ∈ ["Audio Bar"; "Embedded MP4"; "Embedded MP3"]%string ∨
    (PyStr.is_empty (PyStr.strip v) = false ∧
     ODict.get (PyStr.join " " (PyStr.split (PyStr.lower (PyStr.strip v))))
       Excel.FILETYPE_NORMALIZE = None ∧
     Excel.norm_filetype (Some v) = PyStr.strip v)).
  { unfold Excel.norm_filetype.
    destruct (PyStr.is_empty (PyStr.strip v)) eqn:He.
    - left. apply list_elem_of_here.
    - destruct (ODict.get _ Excel.FILETYPE_NORMALIZE) as [val|] eqn:Hg.
      + left. simpl. by eapply filetype_table_values.
      + by right. }
  destruct Hcases as [Hin|(He & Hg & Hn)]; [by apply Hfix|].
  rewrite Hn. split; [by destruct (PyStr.strip v)|].
  unfold Excel.norm_filetype. by rewrite Hstrip, He, Hg.
Qed.

(** Header matching looks at the trimmed, lower-cased text only: letter case
    and blanks around the text make no difference. *)
Theorem map_header_ignores_case_and_margin v :
  Excel.map_header (Some (PyStr.lower (PyStr.strip v))) =
  Excel.map_header (Some v).
Proof.
  assert (H : PyStr.lower (PyStr.strip (PyStr.lower (PyStr.strip v))) =
              PyStr.lower (PyStr.strip v)).
  { rewrite strip_lower, lower_idem. unfold PyStr.strip.
    by rewrite strip_by_idem. }
  unfold Excel.map_header. cbn zeta. by rewrite H.
Qed.

(** ** The header row and the columns *)

Section header_facts.
Import Excel.

Lemma scan_header_seq ws k n :
  match scan_header ws (seq k n) with
  | Some (r, vals) =>
      vals = ws_row ws r ∧ has_required (ws_row ws r) = true ∧
      (k ≤ r < k + n)%nat ∧
      ∀ r', (k ≤ r' < r)%nat → has_required (ws_row ws r') = false
  | None => ∀ r', (k ≤ r' < k + n)%nat → has_required (ws_row ws r') = false
  end.
Proof.
  revert k. induction n as [|n IH]; intros k; simpl.
  - intros r' ?. lia.
  - destruct (has_required (ws_row ws k)) eqn:Hk.
    + split_and!; try done; try lia.
    + specialize (IH (S k)).
      destruct (scan_header ws (seq (S k) n)) as [[r vals]|].
      * destruct IH as (Hv & Hr & Hb & Hbefore).
        split_and!; try done; try lia.
        intros r' Hr'. destruct (decide (r' = k)) as [->|]; [done|].
        apply Hbefore. lia.
      * intros r' Hr'. destruct (decide (r' = k)) as [->|]; [done|].
        apply IH. lia.
Qed.

Lemma foldl_note_column (l : list cell) k acc f :
  ODict.get f (foldl note_column acc (enumerate_from k l)) =
  match ODict.get f acc with
  | Some i => Some i
  | None =>
      (λ p, (k + p.1)%nat) <$> list_find (λ h, map_header h = Some f) l
  end.
Proof.
  revert k acc. induction l as [|x l IH]; intros k acc.
  - simpl. by destruct (ODict.get f acc).
  - cbn [enumerate_from foldl list_find]. rewrite IH.
    unfold note_column at 1. cbn [fst snd].
    destruct (decide (map_header x = Some f)) as [Hx|Hx].
    + rewrite Hx. destruct (ODict.get f acc) eqn:Hg; [by rewrite Hg|].
      rewrite get_set_eq. simpl. f_equal. lia.
    + assert (Hsame : ODict.get f
                (match map_header x with
                 | Some m => match ODict.get m acc with
                             | Some _ => acc
                             | None => ODict.set m k acc
                             end
                 | None => acc
                 end) = ODict.get f acc).
      { destruct (map_header x) as [m|]; [|done].
        destruct (ODict.get m acc); [done|].
        apply get_set_ne. congruence. }
      rewrite Hsame. destruct (ODict.get f acc); [done|].
      destruct (list_find _ l) as [[i y]|]; [|done]. simpl. f_equal. lia.
Qed.

Lemma has_required_found vals :
  has_required vals = true →
  is_Some (list_find (λ h, map_header h = Some f_slide_number) vals) ∧
  is_Some (list_find (λ h, map_header h = Some f_transcription) vals).
Proof.
  unfold has_required. cbn zeta. intros [H1 H2]%andb_prop.
  apply bool_decide_eq_true in H1, H2.
  apply list_elem_of_fmap in H1 as (h1 & Hm1 & Hin1).
  apply list_elem_of_fmap in H2 as (h2 & Hm2 & Hin2).
  split; [apply (list_find_elem_of _ _ h1) | apply (list_find_elem_of _ _ h2)];
    done.
Qed.

Lemma has_required_missing vals f :
  f = f_slide_number ∨ f = f_transcription →
  list_find (λ h, map_header h = Some f) vals = None →
  has_required vals = false.
Proof.
  intros Hf Hnone. apply list_find_None in Hnone.
  unfold has_required. cbn zeta. apply andb_false_iff.
  destruct Hf as [->| ->]; [left|right];
    apply bool_decide_eq_false; intros (h & Hm & Hin)%list_elem_of_fmap;
    rewrite Forall_forall in Hnone; by apply (Hnone h).
Qed.

End header_facts.

Lemma find_header_row_cases ws :
  let r := (Excel.find_header_row ws).1 in
  (Excel.find_header_row ws).2 = Excel.ws_row ws r ∧
  ((Excel.has_required (Excel.ws_row ws r) = true ∧
    (1 ≤ r ≤ Nat.min (length ws) 8)%nat ∧
    ∀ r', (1 ≤ r' < r)%nat →
          Excel.has_required (Excel.ws_row ws r') = false) ∨
   (r = 2%nat ∧
    ∀ r', (1 ≤ r' ≤ Nat.min (length ws) 8)%nat →
          Excel.has_required (Excel.ws_row ws r') = false)).
Proof.
  cbn zeta. unfold Excel.find_header_row. cbn zeta.
  pose proof (scan_header_seq ws 1 (Nat.min (length ws) 8)) as H.
  destruct (Excel.scan_header ws (seq 1 (Nat.min (length ws) 8)))
    as [[r vals]|]; simpl.
  - destruct H as (Hv & Hr & Hb & Hbefore). split; [done|]. left.
    split_and!; try done; lia.
  - split; [done|]. right. split; [done|]. intros r' Hr'. apply H. lia.
Qed.

(** The header row is the first of the rows 1 to min(number of rows, 8)
    whose cells map to both [slide_number] and [transcription]; when no such
    row exists it is row 2. *)
Theorem find_header_row_first ws :
  let r := (Excel.find_header_row ws).1 in
  (Excel.find_header_row ws).2 = Excel.ws_row ws r ∧
  ((Excel.has_required (Excel.ws_row ws r) = true ∧
    (1 ≤ r ≤ Nat.min (length ws) 8)%nat ∧
    ∀ r', (1 ≤ r' < r)%nat →
          Excel.has_required (Excel.ws_row ws r') = false) ∨
   (r = 2%nat ∧
    ∀ r', (1 ≤ r' ≤ Nat.min (length ws) 8)%nat →
          Excel.has_required (Excel.ws_row ws r') = false)).
Proof.
  cbn zeta. unfold Excel.find_header_row. cbn zeta.
  pose proof (scan_header_seq ws 1 (Nat.min (length ws) 8)) as H.
  destruct (Excel.scan_header ws (seq 1 (Nat.min (length ws) 8)))
    as [[r vals]|]; simpl.
  - destruct H as (Hv & Hr & Hb & Hbefore). split; [done|]. left.
    split_and!; try done; lia.
  - split; [done|]. right. split; [done|]. intros r' Hr'. apply H. lia.
Qed.

Lemma header_map_get ws f :
  ODict.get f (Excel.header_map ws).1 =
  fst <$> list_find (λ h, Excel.map_header h = Some f)
            (Excel.find_header_row ws).2.
Proof.
  unfold Excel.header_map. cbn [fst]. rewrite foldl_note_column. simpl.
  by destruct (list_find _ _) as [[i y]|].
Qed.

(** A column of the header map is the first cell of the header row that
    maps to the field: a second header for the same field is ignored. *)
Theorem header_map_first_cell ws f :
  ODict.get f (Excel.header_map ws).1 =
  fst <$> list_find (λ h, Excel.map_header h = Some f)
            (Excel.find_header_row ws).2.
Proof.
  unfold Excel.header_map. cbn [fst]. rewrite foldl_note_column. simpl.
  by destruct (list_find _ _) as [[i y]|].
Qed.

(** A tab that has, among its first 8 rows, a row with a slide-number header
    and a transcription header compiles: the first such row is the header
    row, both columns are found, and the sheet object is made of the rows
    below it. *)
Theorem tab_with_header_compiles name b lv un ln ws codes r :
  (1 ≤ r ≤ Nat.min (length ws) 8)%nat →
  Excel.has_required (Excel.ws_row ws r) = true →
  ∃ r0 cols,
    (1 ≤ r0 ≤ r)%nat ∧
    Excel.header_map ws = (cols, r0) ∧
    is_Some (ODict.get Excel.f_slide_number cols) ∧
    is_Some (ODict.get Excel.f_transcription cols) ∧
    Excel.compile_tab name b lv un ln ws codes =
      inl (Excel.sheet_object name b lv un ln
             (Excel.read_row cols <$> drop r0 ws) codes).
Proof.
  intros Hr Hreq.
  destruct (find_header_row_cases ws) as (Hvals & Hcase). cbn zeta in *.
  assert (Hr0 : Excel.has_required
                  (Excel.ws_row ws (Excel.find_header_row ws).1) = true ∧
                (1 ≤ (Excel.find_header_row ws).1 ≤ r)%nat).
  { destruct Hcase as [(H1 & H2 & H3)|(H1 & H2)].
    - split; [done|]. split; [lia|].
      destruct (decide ((Excel.find_header_row ws).1 ≤ r)%nat); [done|].
      rewrite H3 in Hreq by lia. done.
    - rewrite H2 in Hreq by lia. done. }
  destruct Hr0 as [Hreq0 Hle].
  rewrite <- Hvals in Hreq0.
  destruct (has_required_found _ Hreq0) as [[p1 H1] [p2 H2]].
  exists (Excel.find_header_row ws).1, (Excel.header_map ws).1.
  assert (Hs : is_Some (ODict.get Excel.f_slide_number
                          (Excel.header_map ws).1))
    by (rewrite header_map_get, H1; by eexists).
  assert (Ht : is_Some (ODict.get Excel.f_transcription
                          (Excel.header_map ws).1))
    by (rewrite header_map_get, H2; by eexists).
  split_and!; try done; try lia.
  unfold Excel.compile_tab. cbn zeta.
  unfold Excel.missing_columns. rewrite !filter_cons, filter_nil.
  destruct Hs as [i1 Hs], Ht as [i2 Ht].
  rewrite !decide_False by (by rewrite ?Hs, ?Ht). done.
Qed.

Lemma tab_with_header_compiles_witness :
  (1 ≤ 2 ≤ Nat.min (length sample_ws) 8)%nat ∧
  Excel.has_required (Excel.ws_row sample_ws 2) = true ∧
  ∃ so,
    Excel.compile_tab "Level 3 Unit 7 Lesson 4" "level_3_unit_7_lesson_4"
      3 7 4 sample_ws ∅ = inl so ∧
    Excel.totals so =
      {| Excel.total_slides := 1; Excel.total_audio_items := 2 |}.
Proof.
  assert (H1 : (1 ≤ 2 ≤ Nat.min (length sample_ws) 8)%nat)
    by (vm_compute; lia).
  assert (H2 : Excel.has_required (Excel.ws_row sample_ws 2) = true)
    by reflexivity.
  split; [exact H1|]. split; [exact H2|].
  destruct (tab_with_header_compiles "Level 3 Unit 7 Lesson 4"
              "level_3_unit_7_lesson_4" 3 7 4 sample_ws ∅ 2 H1 H2)
    as (r0 & cols & _ & _ & _ & _ & Hc).
  eexists. split; [exact Hc|].
  assert (Hv : Excel.totals <$>
                 match Excel.compile_tab "Level 3 Unit 7 Lesson 4"
                         "level_3_unit_7_lesson_4" 3 7 4 sample_ws ∅ with
                 | inl so => Some so
                 | inr _ => None
                 end =
               Some {| Excel.total_slides := 1;
                       Excel.total_audio_items := 2 |})
    by (vm_compute; reflexivity).
  rewrite Hc in Hv. apply (inj Some). exact Hv.
Defined.

(** A tab fails for missing columns only when none of its first 8 rows has
    both headers: the row used is then row 2, the error names at least one
    of [slide_number] and [transcription], and each column it names has no
    header in row 2. *)
Theorem tab_error_means_no_header name b lv un ln ws codes missing r :
  Excel.compile_tab name b lv un ln ws codes = inr (missing, r) →
  r = 2%nat ∧
  missing ≠ [] ∧
  (∀ r', (1 ≤ r' ≤ Nat.min (length ws) 8)%nat →
         Excel.has_required (Excel.ws_row ws r') = false) ∧
  ∀ f, f ∈ missing →
       (f = Excel.f_slide_number ∨ f = Excel.f_transcription) ∧
       Forall (λ h, Excel.map_header h ≠ Some f) (Excel.ws_row ws 2).
Proof.
  unfold Excel.compile_tab. cbn zeta.
  destruct (Excel.missing_columns (Excel.header_map ws).1)
    as [|f0 rest] eqn:Hm; [done|].
  intros [= <- <-].
  assert (Hf0 : f0 ∈ Excel.missing_columns (Excel.header_map ws).1)
    by (rewrite Hm; apply list_elem_of_here).
  assert (Hmiss : ∀ f, f ∈ Excel.missing_columns (Excel.header_map ws).1 →
            (f = Excel.f_slide_number ∨ f = Excel.f_transcription) ∧
            list_find (λ h, Excel.map_header h = Some f)
              (Excel.find_header_row ws).2 = None).
  { intros f Hin. unfold Excel.missing_columns in Hin.
    apply list_elem_of_filter in Hin as [Hnone Hin].
    rewrite header_map_get in Hnone.
    split.
    - apply elem_of_cons in Hin as [->|Hin]; [by left|].
      apply elem_of_cons in Hin as [->|Hin]; [by right|].
      by apply elem_of_nil in Hin.
    - by destruct (list_find _ _). }
  destruct (find_header_row_cases ws) as (Hvals & Hcase). cbn zeta in *.
  destruct (Hmiss f0 Hf0) as [Hf0' Hnone0].
  pose proof (has_required_missing _ _ Hf0' Hnone0) as Hnot.
  rewrite Hvals in Hnot.
  destruct Hcase as [(H1 & _)|(H1 & H2)]; [congruence|].
  split_and!; [done|done|done|].
  - intros f Hin. rewrite <- Hm in Hin.
    destruct (Hmiss f Hin) as [Hf Hnone].
    split; [done|]. apply list_find_None in Hnone.
    by rewrite Hvals, H1 in Hnone.
Qed.

Lemma tab_error_means_no_header_witness :
  Excel.compile_tab "Level 3 Unit 7 Lesson 4" "level_3_unit_7_lesson_4"
    3 7 4 headless_ws ∅ =
    inr ([Excel.f_slide_number; Excel.f_transcription], 2%nat) ∧
  Forall (λ h, Excel.map_header h ≠ Some Excel.f_transcription)
    (Excel.ws_row headless_ws 2).
Proof.
  assert (H : Excel.compile_tab "Level 3 Unit 7 Lesson 4"
                "level_3_unit_7_lesson_4" 3 7 4 headless_ws ∅ =
              inr ([Excel.f_slide_number; Excel.f_transcription], 2%nat))
    by reflexivity.
  split; [exact H|].
  destruct (tab_error_means_no_header _ _ _ _ _ _ _ _ _ H)
    as (_ & _ & _ & Hf).
  apply (Hf Excel.f_transcription).
  apply list_elem_of_further, list_elem_of_here.
Defined.

(** ** Integer slide numbers *)

Lemma py_int_strip s : PyStr.py_int (PyStr.strip s) = PyStr.py_int s.
Proof.
  unfold PyStr.py_int, PyStr.strip. by rewrite strip_by_idem.
Qed.

(** An integer written as decimal text reads back as itself, in both
    stages: as the slide cell of a data row and as the slide number of a toc
    entry, where the float conversion is then not consulted. *)
Theorem int_text_round_trip (float_int : string → option Z) z :
  PyStr.py_int (PyStr.show_Z z) = Some z ∧
  Excel.cell_int (Some (PyStr.show_Z z)) = Some z ∧
  Xml.to_int float_int (Xml.PyInt z) = Some z ∧
  Xml.to_int0 float_int (Xml.PyInt z) = z.
Proof.
  assert (H : Xml.to_int float_int (Xml.PyInt z) = Some z).
  { unfold Xml.to_int. simpl. by rewrite py_int_show_Z. }
  split_and!.
  - apply py_int_show_Z.
  - unfold Excel.cell_int. simpl. by rewrite py_int_strip, py_int_show_Z.
  - done.
  - unfold Xml.to_int0. by rewrite H.
Qed.

(** ** Skipped sheets *)

Lemma parseable_numbers_nil float_int toc :
  parseable_numbers float_int toc = [] ↔
  Forall (λ t, Xml.to_int float_int (Xml.slide_number t) = None) toc.
Proof.
  unfold parseable_numbers. induction toc as [|t toc IH].
  - split; [constructor|done].
  - rewrite omap_cons_eq, Forall_cons.
    destruct (Xml.to_int float_int (Xml.slide_number t)).
    + split; [done|]. by intros [? _].
    + rewrite IH. tauto.
Qed.

(** The builder skips a sheet (returns no tree) exactly when no toc entry
    has a parseable slide number, an empty toc included; the file stem it
    returns does not depend on the toc. *)
Theorem sheet_skipped_iff_no_number float_int sheet xc :
  ((Xml.build_xml_for_sheet float_int sheet xc).1 = None ↔
   Forall (λ t, Xml.to_int float_int (Xml.slide_number t) = None)
     (Xml.toc sheet)) ∧
  (Xml.build_xml_for_sheet float_int sheet xc).2 =
    Xml.or_text (Some (PyStr.strip (Xml.or_text (Xml.base sheet) "")))
      (Xml.slugify
         (Some (Xml.or_text
                  (Some (PyStr.strip (Xml.or_text (Xml.sheet_name sheet) "")))
                  "Sheet"))).
Proof.
  split.
  - rewrite <- parseable_numbers_nil. split.
    + intros Hnone.
      destruct (parseable_numbers float_int (Xml.toc sheet)) eqn:E; [done|].
      assert (Hp : has_parseable float_int (Xml.toc sheet)).
      { assert (Hz : z ∈ parseable_numbers float_int (Xml.toc sheet))
          by (rewrite E; apply list_elem_of_here).
        unfold parseable_numbers in Hz.
        apply list_elem_of_omap in Hz as (t & Hin & Ht).
        exists t. split; [done|]. by eexists. }
      destruct (build_blocks float_int sheet xc Hp) as (doc & ? & ? & ? & ? & ? & Hdoc & _).
      congruence.
    + intros Hnil. unfold Xml.build_xml_for_sheet.
      rewrite scan_toc_numbers, Hnil. simpl.
      by destruct (Xml.toc sheet).
  - unfold Xml.build_xml_for_sheet.
    destruct (Xml.toc sheet); [done|].
    by destruct (Xml.py_max _).
Qed.

(** ** Slugs *)

Section slug_facts.
Import PyStr.

Lemma string_forall_lstrip p q s :
  string_forall p s = true → string_forall p (lstrip_by q s) = true.
Proof.
  induction s as [|c r IH]; [done|]. simpl. intros H.
  destruct (q c); [|done]. apply IH. by apply andb_prop in H as [_ ?].
Qed.

Lemma string_forall_rstrip p q s :
  string_forall p s = true → string_forall p (rstrip_by q s) = true.
Proof.
  induction s as [|c r IH]; [done|]. simpl. intros [Hc Hr]%andb_prop.
  destruct (q c && is_empty (rstrip_by q r)); [done|].
  simpl. by rewrite Hc, IH.
Qed.

Lemma squash_chars s : string_forall slug_char (Xml.squash s) = true.
Proof.
  induction s as [|c r IH]; [done|]. cbn [Xml.squash].
  destruct (Xml.is_slug_char c) eqn:Hc.
  - simpl. unfold slug_char at 1. by rewrite Hc.
  - destruct r as [|c' r']; [done|].
    destruct (Xml.is_slug_char c'); [|done].
    change (string_forall slug_char (String "_" (Xml.squash (String c' r'))))
      with (string_forall slug_char (Xml.squash (String c' r'))).
    exact IH.
Qed.

End slug_facts.

Lemma slugify_chars s :
  string_forall slug_char (Xml.slugify s) = true.
Proof.
  unfold Xml.slugify. cbn zeta.
  set (t := PyStr.strip_by (Ascii.eqb "_") _).
  assert (Ht : string_forall slug_char t = true).
  { unfold t, PyStr.strip_by.
    apply string_forall_rstrip, string_forall_lstrip, squash_chars. }
  unfold Xml.or_text. simpl. by destruct t.
Qed.

(** A slug is never empty and is made of lower-case letters, digits and
    underscores only, so it holds no slash, blank or quote. *)
Theorem slugify_safe s :
  Xml.slugify s ≠ ""%string ∧
  string_forall slug_char (Xml.slugify s) = true.
Proof.
  split; [|apply slugify_chars].
  unfold Xml.slugify, Xml.or_text. cbn zeta.
  by destruct (PyStr.strip_by (Ascii.eqb "_") _).
Qed.

(** ** Canonical block titles *)

Lemma canonical_block_title_cases section :
  Xml.canonical_block_title section ∈ fixed_titles ∨
  ∃ t, section = Some t ∧ t ≠ ""%string ∧
       Xml.canonical_block_title section = t.
Proof.
  unfold Xml.canonical_block_title. cbn zeta.
  repeat match goal with
         | |- context [if ?c then _ else _] =>
             destruct c; [left; unfold fixed_titles; set_solver|]
         end.
  destruct section as [t|]; [|left; unfold fixed_titles; set_solver].
  destruct t as [|c r]; [left; unfold fixed_titles; set_solver|].
  right. by eexists.
Qed.

(** A block title is never empty, and classifying a title that is already
    canonical gives it back: classification is idempotent. *)
Theorem canonical_block_title_stable section :
  Xml.canonical_block_title section ≠ ""%string ∧
  Xml.canonical_block_title (Some (Xml.canonical_block_title section)) =
    Xml.canonical_block_title section.
Proof.
  assert (Hfix : ∀ T, T ∈ fixed_titles →
            T ≠ ""%string ∧ Xml.canonical_block_title (Some T) = T).
  { intros T Hin. unfold fixed_titles in Hin.
    repeat (apply elem_of_cons in Hin as [->|Hin]; [by split|]).
    by apply elem_of_nil in Hin. }
  destruct (canonical_block_title_cases section)
    as [Hin|(t & -> & Hne & Ht)]; [by apply Hfix|].
  rewrite Ht. split; [done|]. exact Ht.
Qed.

(** ** The blocks of a document *)

Section emitted_facts.
Context (float_int : string → option Z).

Lemma foldl_emit_group_emitted xc ph ln tbs groups i bs :
  foldl (Xml.emit_group float_int xc ph ln tbs) (i, bs) groups =
  (next_index i groups, bs ++ emitted float_int xc ph ln tbs i groups).
Proof.
  revert i bs. induction groups as [|g groups IH]; intros i bs.
  - simpl. by rewrite app_nil_r.
  - cbn [foldl emitted next_index]. unfold Xml.emit_group at 2. cbn [fst snd].
    destruct (String.eqb g.1 "Lesson Opener").
    + rewrite IH, <- app_assoc. done.
    + destruct (String.eqb g.1 "Additional Supports").
      * by rewrite IH.
      * rewrite IH, <- app_assoc. done.
Qed.

(** The document of a sheet with a parseable slide number, block by
    block. *)
Lemma build_emitted sheet xc :
  has_parseable float_int (Xml.toc sheet) →
  ∃ doc xc' ph ln m,
    (Xml.build_xml_for_sheet float_int sheet xc).1 = Some doc ∧
    Xml.blocks doc =
      emitted float_int xc' ph ln (Xml.scan_toc float_int (Xml.toc sheet)).1
        (-1) (Xml.group_toc (Xml.toc sheet))
      ++ [Xml.additional_supports_block xc' ln
            (next_index (-1) (Xml.group_toc (Xml.toc sheet)) + 1) m] ∧
    Xml.py_max (parseable_numbers float_int (Xml.toc sheet)) = Some m.
Proof.
  intros Hp.
  pose proof (has_parseable_numbers _ _ Hp) as Hne.
  destruct (py_max_is_Some _ Hne) as [m Hm].
  assert (Htoc : Xml.toc sheet ≠ []).
  { destruct Hp as (t & Hin & _). intros E. rewrite E in Hin.
    by apply elem_of_nil in Hin. }
  unfold Xml.build_xml_for_sheet.
  rewrite scan_toc_numbers, Hm.
  destruct (Xml.toc sheet) as [|t toc] eqn:E; [done|].
  eexists _, _, _, _, m. cbn [fst]. split; [reflexivity|].
  cbn [Xml.blocks]. split; [|done].
  by rewrite foldl_emit_group_emitted.
Qed.


Lemma sorted_by_length {A} (key : A → Z) (l : list A) :
  length (sorted_by key l) = length l.
Proof. by rewrite sorted_by_Permutation. Qed.


End emitted_facts.




(** The units within a block come in ascending order of slide number
    (entries without a number counting as 0), and each entry of the block's
    title gives exactly one of them. *)
Theorem block_units_ascending float_int sheet xc :
  has_parseable float_int (Xml.toc sheet) →
  ∃ doc pre last_block,
    (Xml.build_xml_for_sheet float_int sheet xc).1 = Some doc ∧
    Xml.blocks doc = pre ++ [last_block] ∧
    Forall (λ b,
              ∃ l, l ≡ₚ entries_of (Xml.block_title b) (Xml.toc sheet) ∧
                   StronglySorted
                     (λ x y, Xml.key0 float_int x ≤ Xml.key0 float_int y) l ∧
                   Xml.au_url <$> Xml.aus b = unit_url float_int <$> l)
           pre.
Proof.
  intros Hp.
  destruct (build_blocks float_int sheet xc Hp)
    as (doc & pre & xc' & ln & idx & m & Hdoc & Hbl & Hview & _).
  exists doc, pre, (Xml.additional_supports_block xc' ln idx m).
  split_and!; [done..|].
  apply Forall_forall. intros b Hb.
  assert (Hv : block_view b ∈ block_view <$> pre)
    by (by apply list_elem_of_fmap_2).
  rewrite Hview in Hv.
  apply list_elem_of_fmap in Hv as ([T items] & Hv & Hg).
  apply list_elem_of_filter in Hg as [_ Hg].
  apply group_toc_elem_of in Hg as [-> _].
  unfold block_view, group_view in Hv. simpl in Hv. injection Hv as -> ->.
  eexists. split_and!; [apply sorted_by_Permutation|apply sorted_by_sorted|done].
Qed.

Lemma block_units_ascending_witness :
  has_parseable float_raises (Xml.toc unnumbered_sheet) ∧
  ∃ doc pre last_block,
    (Xml.build_xml_for_sheet float_raises unnumbered_sheet None).1
      = Some doc ∧
    Xml.blocks doc = pre ++ [last_block] ∧
    length pre = 1%nat.
Proof.
  assert (H : has_parseable float_raises (Xml.toc unnumbered_sheet)).
  { exists (entry (Xml.PyInt 2) "Warm-up" "Sounds").
    split; [apply list_elem_of_further, list_elem_of_here | by exists 2]. }
  split; [exact H|].
  destruct (block_units_ascending float_raises unnumbered_sheet None H)
    as (doc & pre & b & Hdoc & Hbl & _).
  exists doc, pre, b. split_and!; [done..|].
  assert (Hlen : length <$> (Xml.blocks <$>
            (Xml.build_xml_for_sheet float_raises unnumbered_sheet None).1)
          = Some 2%nat) by (vm_compute; reflexivity).
  rewrite Hdoc in Hlen. simpl in Hlen. rewrite Hbl, length_app in Hlen.
  simpl in Hlen. injection Hlen as Hlen. lia.
Defined.



(** ** Block identifiers *)

Section id_facts.
Import PyStr.

Lemma append_cons c (a s : string) : String c a +:+ s = String c (a +:+ s).
Proof. reflexivity. Qed.

Lemma append_nil_l (s : string) : EmptyString +:+ s = s.
Proof. reflexivity. Qed.

Lemma append_assoc (a c d : string) : (a +:+ c) +:+ d = a +:+ (c +:+ d).
Proof.
  induction a as [|x a IH]; [done|]. by rewrite !append_cons, IH.
Qed.

Lemma is_digit_not_slash c :
  is_digit c = true → negb (Ascii.eqb c "/") = true.
Proof.
  destruct c as [[] [] [] [] [] [] [] []]; try discriminate; reflexivity.
Qed.

Lemma show_Z_no_slash z :
  string_forall (λ c, negb (Ascii.eqb c "/")) (show_Z z) = true ∧
  show_Z z ≠ ""%string.
Proof.
  assert (Hd : ∀ d, string_forall (λ c, negb (Ascii.eqb c "/"))
                      (NilZero.string_of_uint d) = true ∧
                    NilZero.string_of_uint d ≠ ""%string).
  { intros d. split.
    - destruct d; try done;
        apply (string_forall_impl is_digit); try apply is_digit_not_slash;
        apply (digits_of_uint (_ d)) || exact (digits_of_uint _).
    - by destruct d. }
  unfold show_Z. destruct (Z.to_int z) as [d|d]; simpl.
  - apply Hd.
  - split; [apply Hd | done].
Qed.

Lemma slash_split s1 s2 r1 r2 :
  string_forall (λ c, negb (Ascii.eqb c "/")) s1 = true →
  string_forall (λ c, negb (Ascii.eqb c "/")) s2 = true →
  s1 +:+ String "/" r1 = s2 +:+ String "/" r2 → s1 = s2.
Proof.
  revert s2. induction s1 as [|c s1 IH]; intros [|c' s2] H1 H2 Heq;
    rewrite ?append_cons, ?append_nil_l in Heq; simpl in *; try done.
  - injection Heq as <- _. by apply andb_prop in H2 as [? _].
  - injection Heq as -> _. by apply andb_prop in H1 as [? _].
  - injection Heq as <- Heq.
    apply andb_prop in H1 as [_ H1]. apply andb_prop in H2 as [_ H2].
    f_equal. by apply IH.
Qed.

Lemma indexed_id_inj xc j j' r r' :
  indexed_id xc j r = indexed_id xc j' r' → j = j'.
Proof.
  unfold indexed_id. intros H.
  do 3 apply String.app_inj in H.
  apply show_Z_inj. eapply slash_split; [apply show_Z_no_slash..|exact H].
Qed.

Lemma opener_id_not_indexed xc j r : opener_id xc ≠ indexed_id xc j r.
Proof.
  unfold opener_id, indexed_id. intros H.
  change (Xml.site +:+ xc +:+ "/block/lesson_opener_block")
    with (Xml.site +:+ xc +:+ "/block"
            +:+ (EmptyString +:+ String "/" "lesson_opener_block")) in H.
  do 3 apply String.app_inj in H.
  apply slash_split in H; [|done|apply show_Z_no_slash].
  by destruct (show_Z_no_slash j) as [_ Hne].
Qed.

Lemma closing_block_id xc ln idx m :
  Xml.block_id (Xml.additional_supports_block xc ln idx m) =
  indexed_id xc idx ("lesson_" +:+ show_Z ln +:+ "/additional_supports").
Proof.
  unfold Xml.additional_supports_block, indexed_id. cbn [Xml.block_id].
  rewrite !append_assoc. reflexivity.
Qed.

End id_facts.

Section emitted_ids.
Context (float_int : string → option Z) (xc ph : string) (ln : Z)
        (tbs : gmap Z (option string)).

Lemma next_index_le i groups : i ≤ next_index i groups.
Proof.
  revert i. induction groups as [|g groups IH]; intros i; simpl; [lia|].
  destruct (String.eqb g.1 "Lesson Opener"); [apply IH|].
  destruct (String.eqb g.1 "Additional Supports"); [apply IH|].
  specialize (IH (i + 1)). lia.
Qed.

Lemma emitted_ids i groups :
  NoDup groups.*1 →
  NoDup (Xml.block_id <$> emitted float_int xc ph ln tbs i groups) ∧
  Forall (λ b,
            (Xml.block_id b = opener_id xc ∧
             "Lesson Opener"%string ∈ groups.*1) ∨
            ∃ j r, i < j ≤ next_index i groups ∧
                   Xml.block_id b = indexed_id xc j r)
         (emitted float_int xc ph ln tbs i groups).
Proof.
  revert i. induction groups as [|g groups IH]; intros i Hnd.
  - simpl. split; constructor.
  - rewrite fmap_cons in Hnd. apply NoDup_cons in Hnd as [Hg Hnd].
    cbn [emitted next_index].
    destruct (String.eqb_spec g.1 "Lesson Opener") as [Hop|Hop].
    + destruct (IH i Hnd) as [Hn Hall]. split.
      * rewrite fmap_cons. apply NoDup_cons. split; [|done].
        intros (b & Hb & Hin)%list_elem_of_fmap.
        rewrite Forall_forall in Hall.
        destruct (Hall b Hin) as [[_ Hlo]|(j & r & _ & Hid)].
        -- apply Hg. by rewrite Hop.
        -- rewrite Hid in Hb. by apply opener_id_not_indexed in Hb.
      * constructor.
        -- left. split; [done|]. rewrite fmap_cons, Hop.
           apply list_elem_of_here.
        -- eapply Forall_impl; [exact Hall|]. simpl.
           intros b [[? ?]|?]; [left|by right].
           split; [done|]. rewrite ?fmap_cons. by apply list_elem_of_further.
    + destruct (String.eqb g.1 "Additional Supports").
      * destruct (IH i Hnd) as [Hn Hall]. split; [done|].
        eapply Forall_impl; [exact Hall|]. simpl.
        intros b [[? ?]|?]; [left|by right].
        split; [done|]. rewrite ?fmap_cons. by apply list_elem_of_further.
      * destruct (IH (i + 1) Hnd) as [Hn Hall].
        pose proof (next_index_le (i + 1) groups) as Hle.
        assert (Hid0 : ∃ r,
          Xml.block_id (Xml.standard_block float_int xc ph ln (i + 1)
                          tbs g.1 g.2) = indexed_id xc (i + 1) r).
        { eexists. unfold Xml.standard_block, indexed_id.
          cbn [Xml.block_id]. reflexivity. }
        destruct Hid0 as [r0 Hid0]. split.
        -- rewrite fmap_cons. apply NoDup_cons. split; [|done].
           intros (b & Hb & Hin)%list_elem_of_fmap.
           rewrite Forall_forall in Hall.
           destruct (Hall b Hin) as [[Hid _]|(j & r & Hj & Hid)].
           ++ rewrite Hid0, Hid in Hb. symmetry in Hb.
              by apply opener_id_not_indexed in Hb.
           ++ rewrite Hid0, Hid in Hb. apply indexed_id_inj in Hb. lia.
        -- constructor.
           ++ right. exists (i + 1), r0. split; [lia|done].
           ++ eapply Forall_impl; [exact Hall|]. simpl.
              intros b [[? ?]|(j & r & Hj & Hid)].
              ** left. split; [done|]. rewrite ?fmap_cons.
                 by apply list_elem_of_further.
              ** right. exists j, r. split; [lia|done].
Qed.

End emitted_ids.

(** The block identifiers of a document are pairwise distinct: the opener
    block has an identifier of its own, and every other block, the closing
    one included, carries its own block index. *)
Theorem block_ids_distinct float_int sheet xc :
  has_parseable float_int (Xml.toc sheet) →
  ∃ doc,
    (Xml.build_xml_for_sheet float_int sheet xc).1 = Some doc ∧
    NoDup (Xml.block_id <$> Xml.blocks doc).
Proof.
  intros Hp.
  destruct (build_emitted float_int sheet xc Hp)
    as (doc & xc' & ph & ln & m & Hdoc & Hbl & _).
  exists doc. split; [done|]. rewrite Hbl, fmap_app.
  destruct (group_toc_facts (Xml.toc sheet)) as (Hnd & _).
  destruct (emitted_ids float_int xc' ph ln
              (Xml.scan_toc float_int (Xml.toc sheet)).1 (-1)
              (Xml.group_toc (Xml.toc sheet)) Hnd) as [Hn Hall].
  apply NoDup_app. split_and!; [done| |apply NoDup_singleton].
  intros id (b & Hb & Hin)%list_elem_of_fmap Hid.
  apply list_elem_of_singleton in Hid. rewrite closing_block_id in Hid.
  rewrite Forall_forall in Hall.
  destruct (Hall b Hin) as [[Hop _]|(j & r & Hj & Hidx)].
  - rewrite Hb, Hop in Hid. by apply opener_id_not_indexed in Hid.
  - rewrite Hb, Hidx in Hid. apply indexed_id_inj in Hid. lia.
Qed.

Lemma block_ids_distinct_witness :
  has_parseable float_raises (Xml.toc two_opener_sheet) ∧
  ∃ doc,
    (Xml.build_xml_for_sheet float_raises two_opener_sheet None).1
      = Some doc ∧
    NoDup (Xml.block_id <$> Xml.blocks doc).
Proof.
  assert (H : has_parseable float_raises (Xml.toc two_opener_sheet)).
  { exists (entry (Xml.PyInt 1) "Intro" "Welcome").
    split; [apply list_elem_of_here | by exists 1]. }
  split; [exact H|].
  exact (block_ids_distinct float_raises two_opener_sheet None H).
Defined.

(** ** Unit identifiers across blocks *)

Section unit_id_facts.
Import PyStr.

Lemma slug_char_not_slash c :
  slug_char c = true → negb (Ascii.eqb c "/") = true.
Proof.
  destruct c as [[] [] [] [] [] [] [] []]; try discriminate; reflexivity.
Qed.

Lemma before_last_slash_none s :
  string_forall (λ c, negb (Ascii.eqb c "/")) s = true →
  Xml.before_last_slash s = None.
Proof.
  induction s as [|c s IH]; [done|]. simpl. intros [Hc Hs]%andb_prop.
  rewrite IH by done. apply negb_true_iff in Hc. by rewrite Hc.
Qed.

Lemma rsplit_head_segment a s :
  string_forall (λ c, negb (Ascii.eqb c "/")) s = true →
  Xml.rsplit_head (a +:+ String "/" s) = a.
Proof.
  intros Hs. unfold Xml.rsplit_head.
  assert (H : Xml.before_last_slash (a +:+ String "/" s) = Some a).
  { induction a as [|c a IH].
    - rewrite append_nil_l. simpl. by rewrite before_last_slash_none.
    - rewrite append_cons. simpl. by rewrite IH. }
  by rewrite H.
Qed.

Lemma opener_unit_id_not_indexed xc j r :
  opener_unit_id xc ≠ indexed_id xc j r.
Proof.
  unfold opener_unit_id, indexed_id. intros H.
  change (Xml.site +:+ xc +:+ "/block/lesson_opener_lesson")
    with (Xml.site +:+ xc +:+ "/block"
            +:+ (EmptyString +:+ String "/" "lesson_opener_lesson")) in H.
  do 3 apply String.app_inj in H.
  apply slash_split in H; [|done|apply show_Z_no_slash].
  by destruct (show_Z_no_slash j) as [_ Hne].
Qed.

End unit_id_facts.

Section tagged_blocks.
Context (float_int : string → option Z) (xc ph : string) (ln : Z)
        (tbs : gmap Z (option string)).

Lemma opener_block_tagged T items :
  tagged xc (Xml.opener_block float_int xc ph tbs T items) None.
Proof.
  split; [done|]. unfold Xml.opener_block. cbn [Xml.aus].
  apply Forall_fmap, Forall_forall. by intros it _.
Qed.

Lemma foldl_standard_au_ids bid (l : list Xml.TocEntry) acc :
  Forall (λ au, ∃ r, Xml.au_id au = Xml.rsplit_head bid +:+ String "/" r)
         acc.2 →
  Forall (λ au, ∃ r, Xml.au_id au = Xml.rsplit_head bid +:+ String "/" r)
         (foldl (Xml.standard_au float_int bid ph tbs) acc l).2.
Proof.
  revert acc. induction l as [|it l IH]; intros acc Hacc; [done|].
  cbn [foldl]. apply IH. unfold Xml.standard_au. cbn [snd].
  apply Forall_app. split; [done|]. constructor; [|constructor].
  by eexists.
Qed.

Lemma standard_block_tagged j T items :
  tagged xc (Xml.standard_block float_int xc ph ln j tbs T items) (Some j).
Proof.
  unfold Xml.standard_block. cbn zeta.
  set (slug := Xml.slugify _).
  assert (Hslug : string_forall (λ c, negb (Ascii.eqb c "/")) slug = true).
  { eapply string_forall_impl; [apply slug_char_not_slash|].
    apply slugify_chars. }
  set (stem := Xml.site +:+ xc +:+ "/block" +:+ PyStr.show_Z j
               +:+ "/lesson_" +:+ PyStr.show_Z ln).
  assert (Hbid : Xml.site +:+ xc +:+ "/block" +:+ PyStr.show_Z j
                 +:+ "/lesson_" +:+ PyStr.show_Z ln +:+ "/" +:+ slug =
                 stem +:+ String "/" slug).
  { unfold stem. by rewrite !append_assoc. }
  split.
  - cbn [Xml.block_id]. eexists. unfold indexed_id. reflexivity.
  - cbn [Xml.aus].
    eapply Forall_impl.
    + apply foldl_standard_au_ids. constructor.
    + simpl. intros au [r Hr]. rewrite Hr, Hbid.
      rewrite rsplit_head_segment by done.
      exists ("lesson_" +:+ PyStr.show_Z ln +:+ String "/" r).
      unfold stem, indexed_id. by rewrite !append_assoc.
Qed.

Lemma closing_block_tagged idx m :
  tagged xc (Xml.additional_supports_block xc ln idx m) (Some idx).
Proof.
  split.
  - eexists. apply closing_block_id.
  - unfold Xml.additional_supports_block. cbn [Xml.aus].
    constructor; [|constructor]. cbn [Xml.au_id].
    exists ("lesson_" +:+ PyStr.show_Z ln +:+ "/additionalsupports_0").
    unfold indexed_id. by rewrite !append_assoc.
Qed.

Lemma emitted_tagged i groups :
  NoDup groups.*1 →
  ∃ tags : list (option Z),
    NoDup tags ∧
    Forall2 (tagged xc) (emitted float_int xc ph ln tbs i groups) tags ∧
    Forall (λ t, match t with
                 | None => "Lesson Opener"%string ∈ groups.*1
                 | Some j => i < j ≤ next_index i groups
                 end) tags.
Proof.
  revert i. induction groups as [|g groups IH]; intros i Hnd.
  - exists []. split_and!; constructor.
  - rewrite fmap_cons in Hnd. apply NoDup_cons in Hnd as [Hg Hnd].
    cbn [emitted next_index].
    destruct (String.eqb_spec g.1 "Lesson Opener") as [Hop|Hop].
    + destruct (IH i Hnd) as (tags & Hn & H2 & Hall).
      exists (None :: tags). split_and!.
      * apply NoDup_cons. split; [|done]. intros Hin.
        rewrite Forall_forall in Hall. specialize (Hall _ Hin).
        apply Hg. by rewrite Hop.
      * constructor; [apply opener_block_tagged|done].
      * constructor.
        -- rewrite fmap_cons, Hop. apply list_elem_of_here.
        -- eapply Forall_impl; [exact Hall|]. intros [j|]; [done|].
           rewrite fmap_cons. by apply list_elem_of_further.
    + destruct (String.eqb g.1 "Additional Supports").
      * destruct (IH i Hnd) as (tags & Hn & H2 & Hall).
        exists tags. split_and!; [done..|].
        eapply Forall_impl; [exact Hall|]. intros [j|]; [done|].
        rewrite fmap_cons. by apply list_elem_of_further.
      * destruct (IH (i + 1) Hnd) as (tags & Hn & H2 & Hall).
        pose proof (next_index_le (i + 1) groups) as Hle.
        exists (Some (i + 1) :: tags). split_and!.
        -- apply NoDup_cons. split; [|done]. intros Hin.
           rewrite Forall_forall in Hall. specialize (Hall _ Hin).
           simpl in Hall. lia.
        -- constructor; [apply standard_block_tagged|done].
        -- constructor; [lia|].
           eapply Forall_impl; [exact Hall|]. intros [j|]; [lia|].
           rewrite fmap_cons. by apply list_elem_of_further.
Qed.

Lemma tagged_units_differ b1 b2 t1 t2 au1 au2 :
  tagged xc b1 t1 → tagged xc b2 t2 → t1 ≠ t2 →
  au1 ∈ Xml.aus b1 → au2 ∈ Xml.aus b2 →
  Xml.au_id au1 ≠ Xml.au_id au2.
Proof.
  intros H1 H2 Hne Hin1 Hin2 Heq.
  destruct t1 as [j1|], t2 as [j2|]; simpl in H1, H2;
    destruct H1 as [_ H1], H2 as [_ H2];
    rewrite Forall_forall in H1, H2;
    specialize (H1 _ Hin1); specialize (H2 _ Hin2).
  - destruct H1 as [r1 H1], H2 as [r2 H2]. rewrite H1, H2 in Heq.
    apply indexed_id_inj in Heq. congruence.
  - destruct H1 as [r1 H1]. rewrite H1, H2 in Heq. symmetry in Heq.
    by apply opener_unit_id_not_indexed in Heq.
  - destruct H2 as [r2 H2]. rewrite H1, H2 in Heq.
    by apply opener_unit_id_not_indexed in Heq.
  - done.
Qed.

End tagged_blocks.

(** Two units of different blocks of a document never have the same
    identifier: a repeated unit identifier can only come from within one
    block. *)
Theorem units_of_different_blocks_differ float_int sheet xc :
  has_parseable float_int (Xml.toc sheet) →
  ∃ doc,
    (Xml.build_xml_for_sheet float_int sheet xc).1 = Some doc ∧
    ∀ p q b1 b2 au1 au2,
      Xml.blocks doc !! p = Some b1 → Xml.blocks doc !! q = Some b2 →
      p ≠ q → au1 ∈ Xml.aus b1 → au2 ∈ Xml.aus b2 →
      Xml.au_id au1 ≠ Xml.au_id au2.
Proof.
  intros Hp.
  destruct (build_emitted float_int sheet xc Hp)
    as (doc & xc' & ph & ln & m & Hdoc & Hbl & _).
  exists doc. split; [done|].
  destruct (group_toc_facts (Xml.toc sheet)) as (Hnd & _).
  destruct (emitted_tagged float_int xc' ph ln
              (Xml.scan_toc float_int (Xml.toc sheet)).1 (-1)
              (Xml.group_toc (Xml.toc sheet)) Hnd)
    as (tags & Hn & H2 & Hall).
  set (idx := next_index (-1) (Xml.group_toc (Xml.toc sheet)) + 1) in *.
  assert (Htags : Forall2 (tagged xc') (Xml.blocks doc) (tags ++ [Some idx])).
  { rewrite Hbl. apply Forall2_app; [done|].
    constructor; [apply closing_block_tagged|constructor]. }
  assert (Hnd' : NoDup (tags ++ [Some idx])).
  { apply NoDup_app. split_and!; [done| |apply NoDup_singleton].
    intros t Hin ->%list_elem_of_singleton.
    rewrite Forall_forall in Hall. specialize (Hall _ Hin). simpl in Hall.
    unfold idx in Hall. lia. }
  intros p q b1 b2 au1 au2 Hb1 Hb2 Hpq Hin1 Hin2.
  destruct (Forall2_lookup_l _ _ _ _ _ Htags Hb1) as (t1 & Ht1 & Htag1).
  destruct (Forall2_lookup_l _ _ _ _ _ Htags Hb2) as (t2 & Ht2 & Htag2).
  eapply tagged_units_differ; [exact Htag1|exact Htag2| |done|done].
  intros ->. apply Hpq. by eapply NoDup_lookup.
Qed.

Lemma units_of_different_blocks_differ_witness :
  has_parseable float_raises (Xml.toc two_opener_sheet) ∧
  ∃ doc,
    (Xml.build_xml_for_sheet float_raises two_opener_sheet None).1
      = Some doc ∧
    length (Xml.blocks doc) = 3%nat.
Proof.
  assert (H : has_parseable float_raises (Xml.toc two_opener_sheet)).
  { exists (entry (Xml.PyInt 1) "Intro" "Welcome").
    split; [apply list_elem_of_here | by exists 1]. }
  split; [exact H|].
  destruct (units_of_different_blocks_differ float_raises two_opener_sheet
              None H) as (doc & Hdoc & _).
  exists doc. split; [exact Hdoc|].
  assert (Hlen : length <$> (Xml.blocks <$>
            (Xml.build_xml_for_sheet float_raises two_opener_sheet None).1)
          = Some 3%nat) by (vm_compute; reflexivity).
  rewrite Hdoc in Hlen. apply (inj Some). exact Hlen.
Defined.


(** ** From the tab to the document *)

Section hand_over.
Context (float_int : string → option Z).

Lemma parseable_toc_dict (l : list Excel.TocEntry) :
  parseable_numbers float_int (toc_dict <$> l) = Excel.toc_slide_number <$> l.
Proof.
  unfold parseable_numbers. induction l as [|t l IH]; [done|].
  rewrite !fmap_cons, omap_cons_eq, IH. unfold toc_dict at 1. simpl.
  unfold Xml.to_int. simpl. by rewrite py_int_show_Z.
Qed.

Lemma sorted_last_max (l : list Z) x :
  StronglySorted Z.le l → last l = Some x → Forall (λ y, y ≤ x) l.
Proof.
  induction 1 as [|y l Hs IH Hall]; [done|].
  destruct l as [|z l].
  - intros [= ->]. by constructor.
  - change (last (y :: z :: l)) with (last (z :: l)). intros Hl.
    constructor; [|by apply IH].
    rewrite Forall_forall in Hall. apply Hall.
    apply last_Some in Hl as [l' ->]. set_solver.
Qed.

Lemma audio_count_nil (d : list (Z * Excel.Slide)) :
  (∀ n s, ODict.get n d = Some s → Excel.audio s ≠ []) →
  audio_count d = 0%nat → d = [].
Proof.
  destruct d as [|[k v] d]; [done|]. intros Hne.
  unfold audio_count, ODict.values. rewrite !fmap_cons, sum_list_cons_eq.
  simpl. specialize (Hne k v). simpl in Hne.
  rewrite decide_True in Hne by done.
  destruct (Excel.audio v); [by destruct Hne|]. simpl. lia.
Qed.

End hand_over.

(** The two stages composed.  A compiled tab is skipped by the builder
    exactly when it has no content row; otherwise the builder returns a
    document for it, and the single unit of the document's last block links
    to the page after the tab's last slide. *)
Theorem tab_to_document float_int name b lv un ln rows codes :
  let o := Excel.sheet_object name b lv un ln rows codes in
  let r := Xml.build_xml_for_sheet float_int (sheet_dict o)
             (py_or None (Excel.xcode o)) in
  match last (Excel.slides o) with
  | None => content_rows rows = [] ∧ r.1 = None
  | Some s =>
      content_rows rows ≠ [] ∧
      ∃ doc cb,
        r.1 = Some doc ∧ last (Xml.blocks doc) = Some cb ∧
        Xml.au_url <$> Xml.aus cb =
          [Xml.lesson_url (Excel.slide_number (Excel.slide s) + 1)]
  end.
Proof.
  cbn zeta.
  set (o := Excel.sheet_object name b lv un ln rows codes).
  set (d := Excel.slides_by_num (Excel.aggregate b ln rows)).
  set (S := sorted_by Excel.slide_number (ODict.values d)).
  assert (Hsl : Excel.slides o = with_total <$> S).
  { unfold o, Excel.sheet_object. cbn [Excel.slides].
    by rewrite close_slides_spec. }
  assert (Htoc : Xml.toc (sheet_dict o)
                 = toc_dict <$> (Excel.toc_entry <$> (with_total <$> S))).
  { unfold sheet_dict. cbn [Xml.toc]. unfold o, Excel.sheet_object.
    cbn [Excel.toc]. by rewrite close_slides_spec. }
  assert (Hnum : parseable_numbers float_int (Xml.toc (sheet_dict o))
                 = Excel.slide_number <$> S).
  { rewrite Htoc, parseable_toc_dict, <- !list_fmap_compose. done. }
  assert (Hcount : length (content_rows rows) = audio_count d).
  { pose proof (foldl_audio_count b ln rows Excel.init false eq_refl) as H.
    unfold d, Excel.aggregate. rewrite H. reflexivity. }
  assert (Hlen : length S = length d).
  { unfold S, ODict.values. by rewrite sorted_by_length, length_fmap. }
  rewrite Hsl, fmap_last.
  destruct (last S) as [s0|] eqn:Hlast; simpl.
  - split.
    + intros Hnil. rewrite Hnil in Hcount. simpl in Hcount.
      assert (Hd : d = []).
      { apply audio_count_nil; [|done]. intros n s.
        apply aggregate_no_empty_slide. }
      rewrite Hd in Hlen. destruct S; [done|]. done.
    + assert (Hp : has_parseable float_int (Xml.toc (sheet_dict o))).
      { assert (Hin : Excel.slide_number s0
                      ∈ parseable_numbers float_int (Xml.toc (sheet_dict o))).
        { rewrite Hnum. apply list_elem_of_fmap. exists s0. split; [done|].
          apply last_Some in Hlast as [l' ->]. set_solver. }
        unfold parseable_numbers in Hin.
        apply list_elem_of_omap in Hin as (t & Hin & Ht).
        exists t. split; [done|]. by eexists. }
      destruct (build_blocks float_int (sheet_dict o)
                  (py_or None (Excel.xcode o)) Hp)
        as (doc & pre & xc' & ln' & idx & m & Hdoc & Hbl & _ & Hm).
      exists doc, (Xml.additional_supports_block xc' ln' idx m).
      split; [done|]. split; [by rewrite Hbl, last_snoc|].
      rewrite Hnum in Hm. apply py_max_spec in Hm as [Hin Hall].
      assert (Hs : StronglySorted Z.le (Excel.slide_number <$> S))
        by apply sorted_keys, sorted_by_sorted.
      assert (Hl : last (Excel.slide_number <$> S)
                   = Some (Excel.slide_number s0))
        by (by rewrite fmap_last, Hlast).
      pose proof (sorted_last_max _ _ Hs Hl) as Hmax.
      rewrite Forall_forall in Hall, Hmax.
      assert (Hx : Excel.slide_number s0 ∈ Excel.slide_number <$> S).
      { apply last_Some in Hl as [l' Hl]. rewrite Hl.
        apply elem_of_app. right. apply list_elem_of_here. }
      pose proof (Hall _ Hx). pose proof (Hmax _ Hin).
      assert (m = Excel.slide_number s0) as -> by lia.
      reflexivity.
  - apply last_None in Hlast.
    assert (Hd : d = []).
    { rewrite Hlast in Hlen. by destruct d. }
    split.
    + apply nil_length_inv. rewrite Hcount, Hd. done.
    + unfold Xml.build_xml_for_sheet. rewrite Htoc, Hlast. done.
Qed.


(** ** File names of a sheet *)

Section filename_facts.
Import PyStr.

Lemma is_digit_not_underscore c :
  is_digit c = true → negb (Ascii.eqb c "_") = true.
Proof.
  destruct c as [[] [] [] [] [] [] [] []]; try discriminate; reflexivity.
Qed.

Lemma show_Z_no_underscore z :
  string_forall (λ c, negb (Ascii.eqb c "_")) (show_Z z) = true.
Proof.
  assert (Hd : ∀ d, string_forall (λ c, negb (Ascii.eqb c "_"))
                      (NilZero.string_of_uint d) = true).
  { intros d.
    destruct d; try done;
      apply (string_forall_impl is_digit); try apply is_digit_not_underscore;
      apply (digits_of_uint (_ d)) || exact (digits_of_uint _). }
  unfold show_Z. destruct (Z.to_int z) as [d|d]; simpl; apply Hd.
Qed.

Lemma underscore_split s1 s2 r1 r2 :
  string_forall (λ c, negb (Ascii.eqb c "_")) s1 = true →
  string_forall (λ c, negb (Ascii.eqb c "_")) s2 = true →
  s1 +:+ String "_" r1 = s2 +:+ String "_" r2 → s1 = s2 ∧ r1 = r2.
Proof.
  revert s2. induction s1 as [|c s1 IH]; intros [|c' s2] H1 H2 Heq;
    rewrite ?append_cons, ?append_nil_l in Heq; simpl in *; try done.
  - by injection Heq as ->.
  - injection Heq as <- _. by apply andb_prop in H2 as [? _].
  - injection Heq as -> _. by apply andb_prop in H1 as [? _].
  - injection Heq as <- Heq.
    apply andb_prop in H1 as [_ H1]. apply andb_prop in H2 as [_ H2].
    destruct (IH _ H1 H2 Heq) as [-> ->]. done.
Qed.

(** A file name determines the slide number and the audio index it was
    made of. *)
Lemma mk_filename_inj b n n' i i' :
  Excel.mk_filename b n i = Excel.mk_filename b n' i' → n = n' ∧ i = i'.
Proof.
  unfold Excel.mk_filename. intros H. apply String.app_inj in H.
  rewrite !append_cons, !append_nil_l in H. injection H as H.
  apply underscore_split in H as [Hn Hi]; [|apply show_Z_no_underscore..].
  split; [by apply show_Z_inj|].
  unfold show_nat in Hi. apply show_Z_inj in Hi. lia.
Qed.

Lemma numbered_filenames_NoDup b (l : list Excel.Slide) :
  NoDup (Excel.slide_number <$> l) →
  Forall (λ s, Excel.filename <$> Excel.audio s =
               Excel.mk_filename b (Excel.slide_number s)
                 <$> seq 1 (length (Excel.audio s))) l →
  NoDup (l ≫= λ s, Excel.filename <$> Excel.audio s).
Proof.
  induction l as [|s l IH]; [constructor|].
  rewrite fmap_cons, bind_cons.
  intros [Hs Hnd]%NoDup_cons [Hfn Hall]%Forall_cons.
  apply NoDup_app. split_and!.
  - rewrite Hfn. apply NoDup_fmap_2_strong; [|apply NoDup_seq].
    intros i i' _ _ Heq. by apply mk_filename_inj in Heq as [_ ?].
  - intros x Hx (s' & Hx' & Hin)%list_elem_of_bind.
    rewrite Hfn in Hx. apply list_elem_of_fmap in Hx as (i & -> & _).
    rewrite Forall_forall in Hall. rewrite (Hall _ Hin) in Hx'.
    apply list_elem_of_fmap in Hx' as (i' & Heq & _).
    apply mk_filename_inj in Heq as [Heq _].
    apply Hs. rewrite Heq. apply list_elem_of_fmap. by exists s'.
  - by apply IH.
Qed.

End filename_facts.

(** No two audio items of a sheet have the same file name, within a slide
    or across slides. *)
Theorem filenames_distinct name b lv un ln rows codes :
  NoDup (Excel.slides (Excel.sheet_object name b lv un ln rows codes)
           ≫= λ s, Excel.filename <$> Excel.audio (Excel.slide s)).
Proof.
  unfold Excel.sheet_object. cbn [Excel.slides].
  rewrite close_slides_spec. cbn [fst].
  set (S := sorted_by Excel.slide_number _).
  assert (H : ∀ l : list Excel.Slide,
            (with_total <$> l) ≫= (λ s, Excel.filename
                                          <$> Excel.audio (Excel.slide s))
            = l ≫= (λ s, Excel.filename <$> Excel.audio s)).
  { induction l as [|x l IH]; [done|].
    by rewrite fmap_cons, !bind_cons, IH. }
  rewrite H. apply (numbered_filenames_NoDup b).
  - unfold S. rewrite sorted_by_Permutation, aggregate_numbers.
    by destruct (aggregate_inv b ln rows) as (Hnd & _).
  - apply Forall_forall. intros s Hin. unfold S in Hin.
    rewrite sorted_by_Permutation in Hin.
    apply list_elem_of_fmap in Hin as ([k s1] & -> & Hin). simpl.
    destruct (aggregate_inv b ln rows) as (Hnd & Hok & _).
    destruct (Hok _ _ (elem_of_get _ _ _ Hnd Hin)) as (Hk & Hfn & _).
    by rewrite Hk.
Qed.


(** ** Titles by slide number *)

Lemma foldl_scan_entry_other float_int (l : list Xml.TocEntry) acc n :
  Forall (λ u, Xml.to_int float_int (Xml.slide_number u) ≠ Some n) l →
  (foldl (Xml.scan_entry float_int) acc l).1 !! n = acc.1 !! n.
Proof.
  revert acc. induction l as [|u l IH]; intros acc; [done|].
  intros [Hu Hl]%Forall_cons. cbn [foldl]. rewrite IH by done.
  unfold Xml.scan_entry.
  destruct (Xml.to_int float_int (Xml.slide_number u)) as [sn|]; [|done].
  cbn [fst]. apply lookup_insert_ne. congruence.
Qed.

(** The title kept for a slide number is the title of the last toc entry
    with that number: when two entries have the same slide number, the
    units of both take the later entry's title. *)
Theorem title_of_last_entry float_int pre t post n :
  Xml.to_int float_int (Xml.slide_number t) = Some n →
  Forall (λ u, Xml.to_int float_int (Xml.slide_number u) ≠ Some n) post →
  (Xml.scan_toc float_int (pre ++ t :: post)).1 !! n = Some (Xml.title t).
Proof.
  intros Ht Hpost. unfold Xml.scan_toc. rewrite foldl_app. cbn [foldl].
  rewrite foldl_scan_entry_other by done.
  unfold Xml.scan_entry at 1. rewrite Ht. cbn [fst].
  apply lookup_insert_eq.
Qed.

Lemma title_of_last_entry_witness :
  (Xml.scan_toc float_raises
     ([entry (Xml.PyInt 2) "Warm-up" "Sounds"]
        ++ entry (Xml.PyInt 2) "Warm-up" "Blend"
        :: [entry (Xml.PyInt 3) "Warm-up" "Read"])).1 !! 2
  = Some (Some "Blend"%string).
Proof.
  apply (title_of_last_entry float_raises
           [entry (Xml.PyInt 2) "Warm-up" "Sounds"]
           (entry (Xml.PyInt 2) "Warm-up" "Blend")
           [entry (Xml.PyInt 3) "Warm-up" "Read"] 2).
  - vm_compute. reflexivity.
  - constructor; [|constructor]. vm_compute. discriminate.
Defined.
